(** * Webscrapper: the job scrapers and the text normalizer

    A shallow embedding of [src/utils/helpers.py] ([clean_text]) and of
    [src/scrapers/job_scraper.py] ([BaseScraper], [IndeedScraper],
    [LinkedInScraper]), followed by the properties of the fetch loop, the
    card extractors, the pagination drivers and the normalizer.

    Conventions.
    - A Python [str] is a [string]; a character is a code point of the
      Latin-1 range U+0000..U+00FF, and the character classes below are
      CPython's on that range.
    - A record mapping ([Dict]) is a [gmap string string].
    - Effects (the network, sleeping, logging, exceptions, the local list
      [jobs]) are threaded through a state-and-exception monad [M]. *)

From Stdlib Require Import ZArith NArith Ascii String List Bool Lia DecimalString.
From stdpp Require Import base option list gmap strings.

Import ListNotations.
Local Open Scope string_scope.
Local Open Scope Z_scope.

(** ** Python strings *)

Module PyStr.

(** [str.isspace] / the regular expression class [\s] / what [str.strip]
    removes: TAB..CR, FS..US, SPACE, NEL and NBSP. *)
Definition isspace (c : ascii) : bool :=
  let n := N_of_ascii c in
  ((9 <=? n) && (n <=? 13) || (28 <=? n) && (n <=? 32)
   || (n =? 133) || (n =? 160))%N.

(** [str.isalnum]: ASCII digits and letters, and the Latin-1 letters and
    numeric characters. *)
Definition isalnum (c : ascii) : bool :=
  let n := N_of_ascii c in
  ((48 <=? n) && (n <=? 57) || (65 <=? n) && (n <=? 90)
   || (97 <=? n) && (n <=? 122)
   || (n =? 170) || (178 <=? n) && (n <=? 179) || (n =? 181)
   || (185 <=? n) && (n <=? 186) || (188 <=? n) && (n <=? 190)
   || (192 <=? n) && (n <=? 214) || (216 <=? n) && (n <=? 246)
   || (248 <=? n) && (n <=? 255))%N.

(** The regular expression class [\w]. *)
Definition isword (c : ascii) : bool :=
  isalnum c || Ascii.eqb c "_".

(** [str.lower], one character. *)
Definition lower_char (c : ascii) : ascii :=
  let n := N_of_ascii c in
  if ((65 <=? n) && (n <=? 90) || (192 <=? n) && (n <=? 214)
      || (216 <=? n) && (n <=? 222))%N
  then ascii_of_N (n + 32) else c.

Fixpoint lower (s : string) : string :=
  match s with
  | EmptyString => EmptyString
  | String c r => String (lower_char c) (lower r)
  end.

Fixpoint lstrip (s : string) : string :=
  match s with
  | EmptyString => EmptyString
  | String c r => if isspace c then lstrip r else s
  end.

Fixpoint rstrip (s : string) : string :=
  match s with
  | EmptyString => EmptyString
  | String c r =>
      match rstrip r with
      | EmptyString => if isspace c then EmptyString else String c EmptyString
      | r' => String c r'
      end
  end.

(** [s.strip()] *)
Definition strip (s : string) : string := rstrip (lstrip s).

(** [needle in hay] *)
Fixpoint contains (needle hay : string) : bool :=
  String.prefix needle hay
  || match hay with
     | EmptyString => false
     | String _ r => contains needle r
     end.

(** [re.sub(r'\s+', ' ', s)]: every maximal run of whitespace becomes one
    space.  [in_run] says that the previous character was whitespace. *)
Fixpoint sub_spaces (in_run : bool) (s : string) : string :=
  match s with
  | EmptyString => EmptyString
  | String c r =>
      if isspace c
      then if in_run then sub_spaces true r
           else String " " (sub_spaces true r)
      else String c (sub_spaces false r)
  end.

(** The characters the class [[^\w\s.,$]] does NOT match. *)
Definition kept (c : ascii) : bool :=
  isword c || isspace c
  || Ascii.eqb c "." || Ascii.eqb c "," || Ascii.eqb c "$".

(** [re.sub(r'[^\w\s.,$]', '', s)] *)
Fixpoint sub_special (s : string) : string :=
  match s with
  | EmptyString => EmptyString
  | String c r => if kept c then String c (sub_special r) else sub_special r
  end.

(** [str(n)] for an [int]. *)
Definition of_int (n : Z) : string := NilZero.string_of_int (Z.to_int n).

(** Observations on strings used in the statements. *)
Fixpoint all_chars (p : ascii -> bool) (s : string) : bool :=
  match s with
  | EmptyString => true
  | String c r => p c && all_chars p r
  end.

Fixpoint adjacent_spaces (s : string) : bool :=
  match s with
  | String c ((String d _) as r) => isspace c && isspace d || adjacent_spaces r
  | _ => false
  end.

Definition starts_with_space (s : string) : bool :=
  match s with
  | String c _ => isspace c
  | EmptyString => false
  end.

Fixpoint ends_with_space (s : string) : bool :=
  match s with
  | EmptyString => false
  | String c EmptyString => isspace c
  | String _ r => ends_with_space r
  end.

End PyStr.

(** ** Python values, as far as [clean_text] can tell them apart *)

Inductive pyval :=
| PyStr_ (s : string)          (* a [str] *)
| PyNone                       (* [None] *)
| PyBool (b : bool)
| PyInt (n : Z)
| PyObject (repr : string).    (* any other object; [repr] is its [str()] *)

Definition isinstance_str (v : pyval) : bool :=
  match v with PyStr_ _ => true | _ => false end.

(** [str(v)] *)
Definition str (v : pyval) : string :=
  match v with
  | PyStr_ s => s
  | PyNone => "None"
  | PyBool true => "True"
  | PyBool false => "False"
  | PyInt n => PyStr.of_int n
  | PyObject repr => repr
  end.

(** ** utils/helpers.py *)

Module helpers.

(** The two substitutions and the final [strip] of [clean_text], on a
    [str] (lines 14-18). *)
Definition normalize (text : string) : string :=
  let text := PyStr.sub_spaces false text in
  let text := PyStr.sub_special text in
  PyStr.strip text.

(** [clean_text(text)] (lines 9-18). *)
Definition clean_text (text : pyval) : string :=
  if negb (isinstance_str text) then str text
  else normalize (str text).

End helpers.

(** ** The parsed document (bs4)

    The part of BeautifulSoup the scrapers use: a tree of tags and text
    nodes, [find]/[find_all] by tag name and CSS class over the descendants
    in document order, and [.text]. *)

Module bs4.

#[warnings="-register-all"] Inductive node :=
| NavigableString (s : string)
| Tag (name : string) (class_ : list string) (contents : list node).

(** [tag.descendants], in document order. *)
Fixpoint descendants (n : node) : list node :=
  match n with
  | NavigableString _ => []
  | Tag _ _ contents => flat_map (fun c => c :: descendants c) contents
  end.

(** Does [n] match [find(name, class_=cls)]?  A tag matches on its name
    and when [cls] is one of its classes. *)
Definition matches (name cls : string) (n : node) : bool :=
  match n with
  | NavigableString _ => false
  | Tag name' class_ _ => String.eqb name' name && existsb (String.eqb cls) class_
  end.

(** [n.find_all(name, class_=cls)] *)
Definition find_all (n : node) (name cls : string) : list node :=
  List.filter (matches name cls) (descendants n).

(** [n.find(name, class_=cls)]: the first match, or [None]. *)
Definition find (n : node) (name cls : string) : option node :=
  head (find_all n name cls).

(** [n.text]: the text nodes below [n], concatenated. *)
Fixpoint text (n : node) : string :=
  match n with
  | NavigableString s => s
  | Tag _ _ contents => String.concat "" (map text contents)
  end.

End bs4.

(** ** Exceptions *)

Inductive exn_class :=
| HTTPError | ConnectionError | Timeout | TooManyRedirects
| RequestException              (* any other [requests] exception *)
| AttributeError
| OtherException.               (* any other subclass of [Exception] *)

Record exn := Exn { exn_cls : exn_class; exn_msg : string }.

(** [isinstance(e, requests.RequestException)] *)
Definition is_RequestException (e : exn) : bool :=
  match exn_cls e with
  | HTTPError | ConnectionError | Timeout | TooManyRedirects
  | RequestException => true
  | AttributeError | OtherException => false
  end.

(** [isinstance(e, Exception)]: every class above derives from it. *)
Definition is_Exception (e : exn) : bool := true.

(** ** The world: the network, the clock and the log *)

Inductive duration :=
| Seconds (n : Z)                (* a fixed number of seconds *)
| Uniform (lo hi : Z).           (* [random.uniform(lo, hi)] seconds *)

Inductive event :=
| UpdateHeaders                  (* [_update_headers]: a new random User-Agent *)
| Sleep (d : duration)           (* [time.sleep] *)
| Get (url : string) (timeout : Z)   (* [session.get] *)
| LogError (msg : string)
| LogInfo (msg : string)
| Enter_get_soup (url : string). (* a call of [_get_soup] (ghost) *)

Record response := Response { status_code : Z; body : string }.

(** What one [session.get] does: it returns a response or raises. *)
Inductive outcome :=
| Responds (r : response)
| Raises (e : exn).

(** The environment of a run: what the [n]-th request of the run yields when
    it asks for [url], and the document [html.parser] builds from a body. *)
Record env := Env {
  server : string -> nat -> outcome;
  html_parser : string -> bs4.node
}.

Abbreviation JobRecord := (gmap string string).

Record state := State {
  requests : nat;                (* requests issued so far *)
  trace : list event;            (* what happened, oldest first *)
  jobs : list JobRecord          (* the local list [jobs] of [scrape_job_listings] *)
}.

Definition emit (e : event) (s : state) : state :=
  State (requests s) (trace s ++ [e]) (jobs s).

(** ** The monad of effects: state, and an exception or a value *)

Definition M (A : Type) : Type := state -> (exn + A) * state.

Definition ret {A} (a : A) : M A := fun s => (inr a, s).

Definition raise {A} (e : exn) : M A := fun s => (inl e, s).

Definition bind {A B} (m : M A) (k : A -> M B) : M B :=
  fun s =>
    match m s with
    | (inr a, s') => k a s'
    | (inl e, s') => (inl e, s')
    end.

(** [try: body / except <catches> as e: handler e]; an exception that is not
    caught goes on. *)
Definition try_except {A} (body : M A) (catches : exn -> bool)
    (handler : exn -> M A) : M A :=
  fun s =>
    match body s with
    | (inr a, s') => (inr a, s')
    | (inl e, s') => if catches e then handler e s' else (inl e, s')
    end.

Declare Scope py_scope.
Delimit Scope py_scope with py.
Notation "x <- c ;; k" := (bind c (fun x => k))
  (at level 100, c at next level, right associativity) : py_scope.
Notation "c ;;; k" := (bind c (fun _ => k))
  (at level 100, right associativity) : py_scope.
Local Open Scope py_scope.

Definition tell (e : event) : M unit := fun s => (inr tt, emit e s).

Definition time_sleep (d : duration) : M unit := tell (Sleep d).
Definition logger_error (msg : string) : M unit := tell (LogError msg).
Definition logger_info (msg : string) : M unit := tell (LogInfo msg).

(** [range(n)] *)
Definition range (n : Z) : list Z := map Z.of_nat (seq 0 (Z.to_nat n)).

(** A loop body either returns from the function or goes on to the next
    iteration with its loop-carried variable. *)
Inductive flow (R V : Type) :=
| Return_ (r : R)
| Next (v : V).
Arguments Return_ {R V} r.
Arguments Next {R V} v.

(** ** scrapers/job_scraper.py: BaseScraper *)

Module BaseScraper.
Section WithEnv.
Variable W : env.

(** [_update_headers] (lines 20-35): a fresh header set; only the fact
    that it happened is recorded. *)
Definition _update_headers : M unit := tell UpdateHeaders.

(** [self.session.get(url, headers=self.headers, timeout=10)] *)
Definition session_get (url : string) (timeout : Z) : M response :=
  fun s =>
    let s' := State (S (requests s)) (trace s ++ [Get url timeout]) (jobs s) in
    match server W url (requests s) with
    | Responds r => (inr r, s')
    | Raises e => (inl e, s')
    end.

(** [response.raise_for_status()]: an [HTTPError] for 4xx and 5xx. *)
Definition raise_for_status (r : response) : M unit :=
  if (400 <=? status_code r) && (status_code r <? 600)
  then raise (Exn HTTPError (PyStr.of_int (status_code r) ++ " Error"))
  else ret tt.

Definition max_retries : Z := 3.

(** The [for attempt in range(max_retries)] loop of [_get_soup]
    (lines 42-62); [retry_delay] is carried from one attempt to the next.
    When the loop runs out the function ends without a [return]: the
    result is [None]. *)
Fixpoint _get_soup_loop (url : string) (attempts : list Z) (retry_delay : Z)
    : M (option bs4.node) :=
  match attempts with
  | [] => ret None
  | attempt :: rest =>
      r <- try_except
             (_update_headers ;;;
              time_sleep (Uniform 2 5) ;;;
              response <- session_get url 10 ;;
              raise_for_status response ;;;
              if status_code response =? 200
              then ret (Return_ (html_parser W (body response)))
              else ret (Next retry_delay))
             is_RequestException
             (fun e =>
                logger_error ("Attempt " ++ PyStr.of_int (attempt + 1) ++ "/"
                              ++ PyStr.of_int max_retries ++ " failed for URL "
                              ++ url ++ ": " ++ exn_msg e) ;;;
                if attempt <? max_retries - 1
                then time_sleep (Seconds retry_delay) ;;;
                     ret (Next (retry_delay * 2))
                else raise e) ;;
      match r with
      | Return_ soup => ret (Some soup)
      | Next retry_delay => _get_soup_loop url rest retry_delay
      end
  end.

(** [_get_soup(url)] (lines 37-62). *)
Definition _get_soup (url : string) : M (option bs4.node) :=
  tell (Enter_get_soup url) ;;;
  _get_soup_loop url (range max_retries) 5.

End WithEnv.
End BaseScraper.

(** ** What the extractors and the drivers share *)

(** [o.text] where [o] is the result of a [find]: an [AttributeError] on
    [None]. *)
Definition text_of (o : option bs4.node) : M string :=
  match o with
  | Some n => ret (bs4.text n)
  | None => raise (Exn AttributeError "'NoneType' object has no attribute 'text'")
  end.

(** [soup.find_all(name, class_=cls)] where [soup] is what [_get_soup]
    returned: an [AttributeError] on [None]. *)
Definition find_all_of (soup : option bs4.node) (name cls : string)
    : M (list bs4.node) :=
  match soup with
  | Some d => ret (bs4.find_all d name cls)
  | None => raise (Exn AttributeError "'NoneType' object has no attribute 'find_all'")
  end.

(** [for x in l: body x] *)
Fixpoint for_each {A} (l : list A) (body : A -> M unit) : M unit :=
  match l with
  | [] => ret tt
  | x :: r => body x ;;; for_each r body
  end.

(** [jobs = []], [jobs.append(r)] and reading [jobs]. *)
Definition jobs_init : M unit :=
  fun s => (inr tt, State (requests s) (trace s) []).

Definition jobs_append (r : JobRecord) : M unit :=
  fun s => (inr tt, State (requests s) (trace s) (jobs s ++ [r])).

Definition jobs_get : M (list JobRecord) := fun s => (inr (jobs s), s).

(** The truth value of a mapping: it is not empty. *)
Definition truthy (d : JobRecord) : bool := bool_decide (d ≠ ∅).

(** ** scrapers/job_scraper.py: IndeedScraper *)

Module IndeedScraper.

(** [_extract_job_data(job_element)] (lines 71-88). *)
Definition _extract_job_data (job_element : bs4.node) : M JobRecord :=
  try_except
    (title <- text_of (bs4.find job_element "h2" "jobTitle") ;;
     let title := PyStr.strip title in
     company <- text_of (bs4.find job_element "span" "companyName") ;;
     let company := PyStr.strip company in
     location <- text_of (bs4.find job_element "div" "companyLocation") ;;
     let location := PyStr.strip location in
     let salary := bs4.find job_element "div" "salary-snippet" in
     let salary := match salary with
                   | Some salary => PyStr.strip (bs4.text salary)
                   | None => "Not specified"
                   end in
     ret (<["title" := helpers.clean_text (PyStr_ title)]>
          (<["company" := helpers.clean_text (PyStr_ company)]>
           (<["location" := helpers.clean_text (PyStr_ location)]>
            (<["salary" := helpers.clean_text (PyStr_ salary)]>
             (<["source" := "Indeed"]> ∅))))))
    is_Exception
    (fun e =>
       logger_error ("Error extracting job data: " ++ exn_msg e) ;;;
       ret ∅).

Section WithEnv.
Variable W : env.

(** [scrape_job_listings(url, max_pages)] (lines 90-111). *)
Definition scrape_job_listings (url : string) (max_pages : Z) : M (list JobRecord) :=
  jobs_init ;;;
  for_each (range max_pages) (fun page =>
    try_except
      (let page_url := url ++ "&start=" ++ PyStr.of_int (page * 10) in
       soup <- BaseScraper._get_soup W page_url ;;
       job_elements <- find_all_of soup "div" "job_seen_beacon" ;;
       for_each job_elements (fun job_element =>
         job_data <- _extract_job_data job_element ;;
         if truthy job_data then jobs_append job_data else ret tt) ;;;
       logger_info ("Scraped page " ++ PyStr.of_int (page + 1) ++ " of "
                    ++ PyStr.of_int max_pages) ;;;
       time_sleep (Uniform 1 3))
      is_Exception
      (fun e =>
         logger_error ("Error scraping page " ++ PyStr.of_int (page + 1) ++ ": "
                       ++ exn_msg e))) ;;;
  jobs_get.

End WithEnv.
End IndeedScraper.

(** ** scrapers/job_scraper.py: LinkedInScraper *)

Module LinkedInScraper.

(** The job type read off the title (lines 122-132). *)
Definition job_type_of (title : string) : string :=
  let job_type := "Full-time" in
  let title_lower := PyStr.lower title in
  if existsb (fun term => PyStr.contains term title_lower) ["contract"; "contractor"]
  then "Contract"
  else if PyStr.contains "part-time" title_lower then "Part-time"
  else if PyStr.contains "intern" title_lower then "Internship"
  else if PyStr.contains "temporary" title_lower then "Temporary"
  else job_type.

(** [_extract_job_data(job_element)] (lines 116-150). *)
Definition _extract_job_data (job_element : bs4.node) : M JobRecord :=
  try_except
    (title <- text_of (bs4.find job_element "h3" "base-search-card__title") ;;
     let title := PyStr.strip title in
     company <- text_of (bs4.find job_element "h4" "base-search-card__subtitle") ;;
     let company := PyStr.strip company in
     location <- text_of (bs4.find job_element "span" "job-search-card__location") ;;
     let location := PyStr.strip location in
     let job_type := job_type_of title in
     let salary := "Not specified" in
     let salary_elem := bs4.find job_element "span" "job-search-card__salary-info" in
     let salary := match salary_elem with
                   | Some salary_elem => PyStr.strip (bs4.text salary_elem)
                   | None => salary
                   end in
     ret (<["title" := helpers.clean_text (PyStr_ title)]>
          (<["company" := helpers.clean_text (PyStr_ company)]>
           (<["location" := helpers.clean_text (PyStr_ location)]>
            (<["salary" := helpers.clean_text (PyStr_ salary)]>
             (<["job_type" := job_type]>
              (<["source" := "LinkedIn"]> ∅)))))))
    is_Exception
    (fun e =>
       logger_error ("Error extracting job data: " ++ exn_msg e) ;;;
       ret ∅).

Section WithEnv.
Variable W : env.

(** [scrape_job_listings(url, max_pages)] (lines 152-173). *)
Definition scrape_job_listings (url : string) (max_pages : Z) : M (list JobRecord) :=
  jobs_init ;;;
  for_each (range max_pages) (fun page =>
    try_except
      (let page_url := url ++ "&start=" ++ PyStr.of_int (page * 25) in
       soup <- BaseScraper._get_soup W page_url ;;
       job_elements <- find_all_of soup "div" "base-card" ;;
       for_each job_elements (fun job_element =>
         job_data <- _extract_job_data job_element ;;
         if truthy job_data then jobs_append job_data else ret tt) ;;;
       logger_info ("Scraped page " ++ PyStr.of_int (page + 1) ++ " of "
                    ++ PyStr.of_int max_pages) ;;;
       time_sleep (Uniform 1 3))
      is_Exception
      (fun e =>
         logger_error ("Error scraping page " ++ PyStr.of_int (page + 1) ++ ": "
                       ++ exn_msg e))) ;;;
  jobs_get.

End WithEnv.
End LinkedInScraper.

(** ** Reference definitions

    What the statements below compare the code with: the pagination loop
    with its three site constants as parameters, the outcome of a fetch as a
    function of the request counter, the record of a card, and the
    case-insensitive occurrence of a keyword. *)

Module Reference.

(** How many calls of [_get_soup] a trace shows. *)
Definition is_page_fetch (e : event) : bool :=
  match e with Enter_get_soup _ => true | _ => false end.

Definition page_fetches (evs : list event) : nat :=
  length (List.filter is_page_fetch evs).

(** The URL of page [page]: the offset is appended as a query parameter. *)
Definition page_url (per_page : Z) (url : string) (page : Z) : string :=
  url ++ "&start=" ++ PyStr.of_int (page * per_page).

(** What is logged when attempt number [k] fails with [e]. *)
Definition attempt_failed (k : Z) (url : string) (e : exn) : event :=
  LogError ("Attempt " ++ PyStr.of_int k ++ "/"
            ++ PyStr.of_int BaseScraper.max_retries ++ " failed for URL "
            ++ url ++ ": " ++ exn_msg e).

(** The two [scrape_job_listings] differ in the offset per page, the class
    of a card and the extractor only.  [scrape_page] is the body of their
    loop over the pages, [scrape_with] the whole method. *)
Definition scrape_page (W : env) (per_page : Z) (card_class : string)
    (extract : bs4.node -> M JobRecord) (url : string) (max_pages : Z)
    (page : Z) : M unit :=
  try_except
    (let page_url := url ++ "&start=" ++ PyStr.of_int (page * per_page) in
     soup <- BaseScraper._get_soup W page_url ;;
     job_elements <- find_all_of soup "div" card_class ;;
     for_each job_elements (fun job_element =>
       job_data <- extract job_element ;;
       if truthy job_data then jobs_append job_data else ret tt) ;;;
     logger_info ("Scraped page " ++ PyStr.of_int (page + 1) ++ " of "
                  ++ PyStr.of_int max_pages) ;;;
     time_sleep (Uniform 1 3))
    is_Exception
    (fun e =>
       logger_error ("Error scraping page " ++ PyStr.of_int (page + 1) ++ ": "
                     ++ exn_msg e)).

Definition scrape_with (W : env) (per_page : Z) (card_class : string)
    (extract : bs4.node -> M JobRecord) (url : string) (max_pages : Z)
    : M (list JobRecord) :=
  jobs_init ;;;
  for_each (range max_pages)
    (scrape_page W per_page card_class extract url max_pages) ;;;
  jobs_get.

(** The exception an attempt fails with, if it fails: what [session.get]
    raised, or the [HTTPError] of a 4xx or 5xx status. *)
Definition failure_of (o : outcome) : option exn :=
  match o with
  | Raises e => Some e
  | Responds r =>
      if (400 <=? status_code r) && (status_code r <? 600)
      then Some (Exn HTTPError (PyStr.of_int (status_code r) ++ " Error"))
      else None
  end.

(** What a call of [_get_soup] yields and the request counter it leaves,
    when it starts at request [n] with the attempts [attempts] to go. *)
Fixpoint fetched (W : env) (url : string) (attempts : list Z) (n : nat)
    : (exn + option bs4.node) * nat :=
  match attempts with
  | [] => (inr None, n)
  | attempt :: rest =>
      match failure_of (server W url n) with
      | Some e =>
          if is_RequestException e && (attempt <? 2)
          then fetched W url rest (S n)
          else (inl e, S n)
      | None =>
          match server W url n with
          | Responds r =>
              if status_code r =? 200
              then (inr (Some (html_parser W (body r))), S n)
              else fetched W url rest (S n)
          | Raises e => (inl e, S n)
          end
      end
  end.

(** The document a fetch yielded, if it yielded one. *)
Definition doc_of (r : exn + option bs4.node) : option bs4.node :=
  match r with
  | inr (Some doc) => Some doc
  | _ => None
  end.

(** The document of each page in page order ([None] for a page that
    failed), the requests being numbered from [n] on. *)
Fixpoint pages_docs (W : env) (page_url : Z -> string) (pages : list Z) (n : nat)
    : list (option bs4.node) :=
  match pages with
  | [] => []
  | page :: rest =>
      let '(r, n') := fetched W (page_url page) (range BaseScraper.max_retries) n in
      doc_of r :: pages_docs W page_url rest n'
  end.

(** The records of one page: those of its cards, in the order of the
    cards, the empty ones dropped. *)
Definition page_records (card_class : string) (record_of : bs4.node -> JobRecord)
    (doc : option bs4.node) : list JobRecord :=
  match doc with
  | Some d => List.filter truthy (map record_of (bs4.find_all d "div" card_class))
  | None => []
  end.

(** The record of an Indeed card: empty when a required node is missing. *)
Definition indeed_record (card : bs4.node) : JobRecord :=
  match bs4.find card "h2" "jobTitle",
        bs4.find card "span" "companyName",
        bs4.find card "div" "companyLocation" with
  | Some title, Some company, Some location =>
      let salary := match bs4.find card "div" "salary-snippet" with
                    | Some salary => PyStr.strip (bs4.text salary)
                    | None => "Not specified"
                    end in
      list_to_map
        [("title", helpers.normalize (PyStr.strip (bs4.text title)));
         ("company", helpers.normalize (PyStr.strip (bs4.text company)));
         ("location", helpers.normalize (PyStr.strip (bs4.text location)));
         ("salary", helpers.normalize salary);
         ("source", "Indeed")]
  | _, _, _ => ∅
  end.

(** The record of a LinkedIn card. *)
Definition linkedin_record (card : bs4.node) : JobRecord :=
  match bs4.find card "h3" "base-search-card__title",
        bs4.find card "h4" "base-search-card__subtitle",
        bs4.find card "span" "job-search-card__location" with
  | Some title, Some company, Some location =>
      let salary := match bs4.find card "span" "job-search-card__salary-info" with
                    | Some salary => PyStr.strip (bs4.text salary)
                    | None => "Not specified"
                    end in
      list_to_map
        [("title", helpers.normalize (PyStr.strip (bs4.text title)));
         ("company", helpers.normalize (PyStr.strip (bs4.text company)));
         ("location", helpers.normalize (PyStr.strip (bs4.text location)));
         ("salary", helpers.normalize salary);
         ("job_type", LinkedInScraper.job_type_of (PyStr.strip (bs4.text title)));
         ("source", "LinkedIn")]
  | _, _, _ => ∅
  end.

(** An extractor that returns the record of the card, never raises, touches
    neither the network nor [jobs], and logs one error exactly when the
    record is empty. *)
Definition extracts (extract : bs4.node -> M JobRecord)
    (record_of : bs4.node -> JobRecord) : Prop :=
  forall card s,
    exists evs,
      extract card s
      = (inr (record_of card), State (requests s) (trace s ++ evs) (jobs s))
      /\ page_fetches evs = 0%nat
      /\ (record_of card = ∅ -> exists msg, evs = [LogError msg])
      /\ (record_of card <> ∅ -> evs = []).

(** A record has exactly the fields [fields]. *)
Definition has_fields (fields : list string) (r : JobRecord) : Prop :=
  dom r = list_to_set fields.

Definition indeed_fields : list string :=
  ["title"; "company"; "location"; "salary"; "source"].

Definition linkedin_fields : list string :=
  ["title"; "company"; "location"; "salary"; "job_type"; "source"].

(** [term] occurs in [title] up to the case of the letters of [title]. *)
Definition occurs_ci (term title : string) : Prop :=
  exists pre mid suf : string,
    title = pre ++ mid ++ suf /\ PyStr.lower mid = term.

(** [part] occurs in [s]. *)
Definition occurs (part s : string) : Prop :=
  exists pre suf : string, s = pre ++ part ++ suf.

(** The job type as the precedence of the keywords says it. *)
Inductive job_type_rule (title : string) : string -> Prop :=
| jt_contract :
    occurs_ci "contract" title \/ occurs_ci "contractor" title ->
    job_type_rule title "Contract"
| jt_part_time :
    ~ occurs_ci "contract" title -> ~ occurs_ci "contractor" title ->
    occurs_ci "part-time" title ->
    job_type_rule title "Part-time"
| jt_internship :
    ~ occurs_ci "contract" title -> ~ occurs_ci "contractor" title ->
    ~ occurs_ci "part-time" title ->
    occurs_ci "intern" title ->
    job_type_rule title "Internship"
| jt_temporary :
    ~ occurs_ci "contract" title -> ~ occurs_ci "contractor" title ->
    ~ occurs_ci "part-time" title -> ~ occurs_ci "intern" title ->
    occurs_ci "temporary" title ->
    job_type_rule title "Temporary"
| jt_full_time :
    ~ occurs_ci "contract" title -> ~ occurs_ci "contractor" title ->
    ~ occurs_ci "part-time" title -> ~ occurs_ci "intern" title ->
    ~ occurs_ci "temporary" title ->
    job_type_rule title "Full-time".

(** The two substitutions of the normalizer applied to the string form of
    any value: what a normalizer that treated every input alike would
    return, up to the final [strip]. *)
Definition filtered_str (v : pyval) : string :=
  PyStr.sub_special (PyStr.sub_spaces false (str v)).

(** *** The two sites side by side *)

Inductive site := Indeed | LinkedIn.

Definition extract_job_data (w : site) : bs4.node -> M JobRecord :=
  match w with
  | Indeed => IndeedScraper._extract_job_data
  | LinkedIn => LinkedInScraper._extract_job_data
  end.

Definition scrape_job_listings (w : site) (W : env)
    : string -> Z -> M (list JobRecord) :=
  match w with
  | Indeed => IndeedScraper.scrape_job_listings W
  | LinkedIn => LinkedInScraper.scrape_job_listings W
  end.

Definition per_page (w : site) : Z :=
  match w with Indeed => 10 | LinkedIn => 25 end.

Definition card_class (w : site) : string :=
  match w with Indeed => "job_seen_beacon" | LinkedIn => "base-card" end.

Definition source_name (w : site) : string :=
  match w with Indeed => "Indeed" | LinkedIn => "LinkedIn" end.

Definition record_of (w : site) : bs4.node -> JobRecord :=
  match w with Indeed => indeed_record | LinkedIn => linkedin_record end.

Definition fields (w : site) : list string :=
  match w with Indeed => indeed_fields | LinkedIn => linkedin_fields end.

(** The sub-nodes of a card: the three required ones and the salary. *)
Definition title_node (w : site) (card : bs4.node) : option bs4.node :=
  match w with
  | Indeed => bs4.find card "h2" "jobTitle"
  | LinkedIn => bs4.find card "h3" "base-search-card__title"
  end.

Definition company_node (w : site) (card : bs4.node) : option bs4.node :=
  match w with
  | Indeed => bs4.find card "span" "companyName"
  | LinkedIn => bs4.find card "h4" "base-search-card__subtitle"
  end.

Definition location_node (w : site) (card : bs4.node) : option bs4.node :=
  match w with
  | Indeed => bs4.find card "div" "companyLocation"
  | LinkedIn => bs4.find card "span" "job-search-card__location"
  end.

Definition salary_node (w : site) (card : bs4.node) : option bs4.node :=
  match w with
  | Indeed => bs4.find card "div" "salary-snippet"
  | LinkedIn => bs4.find card "span" "job-search-card__salary-info"
  end.

(** What the extractor stores for a sub-node: its text, stripped and then
    normalized. *)
Definition cleaned (n : bs4.node) : string :=
  helpers.clean_text (PyStr_ (PyStr.strip (bs4.text n))).

(** No call of [_get_soup] yields a document, whenever it starts. *)
Definition every_fetch_fails (W : env) : Prop :=
  forall url n, doc_of (fst (fetched W url (range 3) n)) = None.

(** The five job types. *)
Definition job_types : list string :=
  ["Full-time"; "Contract"; "Part-time"; "Internship"; "Temporary"].

End Reference.

(** ** Sample inputs *)

Module Fixtures.

Import bs4.

(** A state with nothing done yet. *)
Definition start : state := State 0 [] [].

(** An Indeed card with the three required nodes and no salary. *)
Definition indeed_card : node :=
  Tag "div" ["job_seen_beacon"]
    [Tag "h2" ["jobTitle"] [Tag "span" [] [NavigableString "  Senior Dev (m/f) "]];
     Tag "span" ["companyName"] [NavigableString "ACME"];
     Tag "div" ["companyLocation"] [NavigableString "Oslo"]].

(** An Indeed card without a title. *)
Definition indeed_card_untitled : node :=
  Tag "div" ["job_seen_beacon"]
    [Tag "span" ["companyName"] [NavigableString "ACME"];
     Tag "div" ["companyLocation"] [NavigableString "Oslo"]].

(** A LinkedIn card with the three required nodes and no salary. *)
Definition linkedin_card : node :=
  Tag "div" ["base-card"]
    [Tag "h3" ["base-search-card__title"] [NavigableString " Data Engineer "];
     Tag "h4" ["base-search-card__subtitle"] [NavigableString "Initech"];
     Tag "span" ["job-search-card__location"] [NavigableString "Bergen"]].

(** A results page with two good cards around a bad one. *)
Definition indeed_page : node :=
  Tag "[document]" [] [indeed_card; indeed_card_untitled; indeed_card].

(** A server that is down: every request raises a [ConnectionError]. *)
Definition server_down : env :=
  Env (fun _ _ => Raises (Exn ConnectionError "Connection refused"))
      (fun _ => Tag "[document]" [] []).

(** A server that answers every request with status 304, Not Modified. *)
Definition server_304 : env :=
  Env (fun _ _ => Responds (Response 304 ""))
      (fun _ => Tag "[document]" [] []).

(** A server that answers every request with the sample page. *)
Definition server_up : env :=
  Env (fun _ _ => Responds (Response 200 "<html>...</html>"))
      (fun _ => indeed_page).

Definition search_url : string := "https://www.indeed.com/jobs?q=python".

End Fixtures.

(** ** Observations on traces *)

Module Trace.

Import Reference.

(** The requests of a trace, in order: URL and timeout. *)
Fixpoint requested (evs : list event) : list (string * Z) :=
  match evs with
  | [] => []
  | Get url timeout :: rest => (url, timeout) :: requested rest
  | _ :: rest => requested rest
  end.

(** The fixed sleeps of a trace, in order: the backoff delays. *)
Fixpoint backoffs (evs : list event) : list Z :=
  match evs with
  | [] => []
  | Sleep (Seconds d) :: rest => d :: backoffs rest
  | _ :: rest => backoffs rest
  end.

(** How far the preparation of the next request has got: nothing done, the
    headers refreshed, or the headers refreshed and the 2 to 5 seconds
    slept. *)
Inductive prep := Cold | Refreshed | Ready.

Definition is_jitter (d : duration) : bool :=
  match d with
  | Uniform lo hi => (lo =? 2) && (hi =? 5)
  | Seconds _ => false
  end.

(** A trace is polite when each request comes right after a refresh of the
    headers and the sleep of 2 to 5 seconds, in this order. *)
Fixpoint polite_from (st : prep) (evs : list event) : bool :=
  match evs with
  | [] => true
  | Get _ _ :: rest =>
      match st with Ready => polite_from Cold rest | _ => false end
  | UpdateHeaders :: rest => polite_from Refreshed rest
  | Sleep d :: rest =>
      polite_from (match st with
                   | Refreshed => if is_jitter d then Ready else Cold
                   | _ => Cold
                   end) rest
  | _ :: rest => polite_from Cold rest
  end.

Definition polite (evs : list event) : bool := polite_from Cold evs.

(** The events of the loop of [_get_soup], when it starts at request [n]
    with the attempts [attempts] to go and the delay [d]. *)
Fixpoint fetch_events (W : env) (url : string) (attempts : list Z) (d : Z)
    (n : nat) : list event :=
  match attempts with
  | [] => []
  | attempt :: rest =>
      [UpdateHeaders; Sleep (Uniform 2 5); Get url 10]
      ++ match failure_of (server W url n) with
         | Some e =>
             if is_RequestException e
             then attempt_failed (attempt + 1) url e
                  :: (if attempt <? 2
                      then Sleep (Seconds d) :: fetch_events W url rest (d * 2) (S n)
                      else [])
             else []
         | None =>
             match server W url n with
             | Responds r =>
                 if status_code r =? 200 then []
                 else fetch_events W url rest d (S n)
             | Raises _ => []
             end
         end
  end.

(** What the driver itself adds around a fetch: log lines and the sleep of 1
    to 3 seconds between pages. *)
Definition is_local (e : event) : bool :=
  match e with
  | LogError _ | LogInfo _ => true
  | Sleep (Uniform lo hi) => (lo =? 1) && (hi =? 3)
  | _ => false
  end.

(** The shape of the trace of the loop over the pages, from request [n] to
    request [n']: for each page the call of [_get_soup] with its events,
    then local events only. *)
Inductive driver_trace (W : env) (url_of : Z -> string)
    : list Z -> nat -> list event -> nat -> Prop :=
| driver_done n : driver_trace W url_of [] n [] n
| driver_page page pages n tail evs n' :
    Forall (fun e => is_local e = true) tail ->
    driver_trace W url_of pages
      (snd (fetched W (url_of page) (range 3) n)) evs n' ->
    driver_trace W url_of (page :: pages) n
      (Enter_get_soup (url_of page)
       :: fetch_events W (url_of page) (range 3) 5 n ++ tail ++ evs) n'.

End Trace.

(** ** More sample inputs *)

Module Samples.


(** A server that times out on the first request of the run and answers
    the sample page from then on. *)
Definition server_flaky : env :=
  Env (fun _ n =>
         match n with
         | O => Raises (Exn Timeout "Read timed out")
         | S _ => Responds (Response 200 "<html>...</html>")
         end)
      (fun _ => Fixtures.indeed_page).

(** A server that answers every request with a page of two LinkedIn
    cards. *)
Definition server_linkedin : env :=
  Env (fun _ _ => Responds (Response 200 "<html>...</html>"))
      (fun _ => bs4.Tag "[document]" []
                  [Fixtures.linkedin_card; Fixtures.linkedin_card]).

End Samples.

(** ** Tidy text *)

Module Text.

(** A character that is no whitespace other than the space itself. *)
Definition plain_space (c : ascii) : bool :=
  negb (PyStr.isspace c) || Ascii.eqb c " ".

(** Text with nothing left to clean: only kept characters, no whitespace but
    single spaces, none of them at either end. *)
Definition tidy (s : string) : bool :=
  PyStr.all_chars PyStr.kept s && PyStr.all_chars plain_space s
  && negb (PyStr.adjacent_spaces s)
  && negb (PyStr.starts_with_space s) && negb (PyStr.ends_with_space s).

End Text.

(** ** How the LinkedIn record is built *)

Module Provenance.






End Provenance.

(** ** Regular expressions

    Enough of Python's [re] for [validate_url]: character classes,
    concatenation, alternation, repetition; matching by derivatives.  The
    flag [re.IGNORECASE] is part of the classes of the pattern. *)

Module Regex.

Inductive re :=
| Void                          (* matches nothing *)
| Eps                           (* the empty string *)
| Chr (p : ascii -> bool)       (* one character of a class *)
| Cat (a b : re)
| Alt (a b : re)
| Star (a : re).

(** [r?], [r+], [r{m}], [r{0,k}] and [r{m,n}]. *)
Definition Opt (r : re) : re := Alt Eps r.
Definition Plus (r : re) : re := Cat r (Star r).

Fixpoint times (m : nat) (r : re) : re :=
  match m with
  | O => Eps
  | S m => Cat r (times m r)
  end.

Fixpoint upto (k : nat) (r : re) : re :=
  match k with
  | O => Eps
  | S k => Opt (Cat r (upto k r))
  end.

Definition rep (m n : nat) (r : re) : re := Cat (times m r) (upto (n - m) r).

(** A literal character, and a literal string, under [re.IGNORECASE]. *)
Definition ichar (x : ascii) : re :=
  Chr (fun c => Ascii.eqb (PyStr.lower_char c) (PyStr.lower_char x)).

Fixpoint ilit (s : string) : re :=
  match s with
  | EmptyString => Eps
  | String x r => Cat (ichar x) (ilit r)
  end.

(** Does [r] match the empty string? *)
Fixpoint nullable (r : re) : bool :=
  match r with
  | Void => false
  | Eps => true
  | Chr _ => false
  | Cat a b => nullable a && nullable b
  | Alt a b => nullable a || nullable b
  | Star _ => true
  end.

(** Concatenation and alternation that drop what cannot match. *)
Definition cat (a b : re) : re :=
  match a, b with
  | Void, _ => Void
  | _, Void => Void
  | Eps, _ => b
  | _, _ => Cat a b
  end.

Definition alt (a b : re) : re :=
  match a, b with
  | Void, _ => b
  | _, Void => a
  | _, _ => Alt a b
  end.

(** What is left of [r] after the character [c]. *)
Fixpoint deriv (c : ascii) (r : re) : re :=
  match r with
  | Void => Void
  | Eps => Void
  | Chr p => if p c then Eps else Void
  | Cat a b =>
      alt (cat (deriv c a) b) (if nullable a then deriv c b else Void)
  | Alt a b => alt (deriv c a) (deriv c b)
  | Star a => cat (deriv c a) (Star a)
  end.

(** Does [r] match the whole of [s]? *)
Fixpoint matches (r : re) (s : string) : bool :=
  match s with
  | EmptyString => nullable r
  | String c rest => matches (deriv c r) rest
  end.

(** The strings of [r]. *)
Inductive lang : re -> string -> Prop :=
| lang_eps : lang Eps EmptyString
| lang_chr p c : p c = true -> lang (Chr p) (String c EmptyString)
| lang_cat a b s t : lang a s -> lang b t -> lang (Cat a b) (s ++ t)
| lang_alt_l a b s : lang a s -> lang (Alt a b) s
| lang_alt_r a b s : lang b s -> lang (Alt a b) s
| lang_star_nil a : lang (Star a) EmptyString
| lang_star_cons a s t : lang a s -> lang (Star a) t -> lang (Star a) (s ++ t).

(** Every class of [r] lies within [q]. *)
Fixpoint classes_within (q : ascii -> bool) (r : re) : Prop :=
  match r with
  | Void | Eps => True
  | Chr p => forall c, p c = true -> q c = true
  | Cat a b | Alt a b => classes_within q a /\ classes_within q b
  | Star a => classes_within q a
  end.

(** No class of [r] tells [c] from [f c]. *)
Fixpoint classes_blind (f : ascii -> ascii) (r : re) : Prop :=
  match r with
  | Void | Eps => True
  | Chr p => forall c, p (f c) = p c
  | Cat a b | Alt a b => classes_blind f a /\ classes_blind f b
  | Star a => classes_blind f a
  end.

(** The string that is one newline. *)
Definition newline : string := String "010" EmptyString.

(** The string without its last character when that is a newline: where
    [$] may match besides the very end. *)
Fixpoint before_final_newline (s : string) : option string :=
  match s with
  | EmptyString => None
  | String c EmptyString => if Ascii.eqb c "010" then Some EmptyString else None
  | String c rest => option_map (String c) (before_final_newline rest)
  end.

(** [bool(re.compile('^' r '$').match(s))] *)
Definition match_anchored (r : re) (s : string) : bool :=
  matches r s
  || match before_final_newline s with
     | Some s' => matches r s'
     | None => false
     end.

End Regex.

(** ** utils/helpers.py: validate_url *)

Module url.

Import Regex.

(** The classes of the pattern, under [re.IGNORECASE]. *)
Definition in_range (lo hi : N) (c : ascii) : bool :=
  ((lo <=? N_of_ascii c) && (N_of_ascii c <=? hi))%N.

(** [\d] *)
Definition digit (c : ascii) : bool := in_range 48 57 c.
(** [[A-Z]] *)
Definition letter (c : ascii) : bool := in_range 65 90 c || in_range 97 122 c.
(** [[A-Z0-9]] *)
Definition alnum (c : ascii) : bool := letter c || digit c.
(** [[A-Z0-9-]] *)
Definition alnum_dash (c : ascii) : bool := alnum c || Ascii.eqb c "-".
(** [\S] *)
Definition nonspace (c : ascii) : bool := negb (PyStr.isspace c).
(** [[/?]] *)
Definition slash_or_query (c : ascii) : bool := Ascii.eqb c "/" || Ascii.eqb c "?".

(** One to three digits: what the pattern takes for a part of an IPv4
    address. *)
Definition octet_like (s : string) : bool :=
  PyStr.all_chars digit s
  && (1 <=? String.length s)%nat && (String.length s <=? 3)%nat.

(** [https?://] *)
Definition scheme : re := Cat (ilit "http") (Cat (Opt (ichar "s")) (ilit "://")).

(** [(?:[A-Z0-9](?:[A-Z0-9-]{0,61}[A-Z0-9])?\.)+[A-Z]{2,6}\.?] *)
Definition label : re :=
  Cat (Chr alnum) (Cat (Opt (Cat (rep 0 61 (Chr alnum_dash)) (Chr alnum))) (ichar ".")).

Definition domain : re :=
  Cat (Plus label) (Cat (rep 2 6 (Chr letter)) (Opt (ichar "."))).

(** [\d{1,3}\.\d{1,3}\.\d{1,3}\.\d{1,3}] *)
Definition octet : re := rep 1 3 (Chr digit).

Definition ipv4 : re :=
  Cat octet (Cat (ichar ".") (Cat octet (Cat (ichar ".")
    (Cat octet (Cat (ichar ".") octet))))).

Definition host : re := Alt domain (Alt (ilit "localhost") ipv4).

(** [(?::\d+)?] *)
Definition port : re := Opt (Cat (ichar ":") (Plus (Chr digit))).

(** [(?:/?|[/?]\S+)] *)
Definition path : re :=
  Alt (Opt (ichar "/")) (Cat (Chr slash_or_query) (Plus (Chr nonspace))).

Definition url_pattern : re := Cat scheme (Cat host (Cat port path)).

End url.

Module helpers_url.

(** [validate_url(url)] (lines 46-56), for a [url] of Latin-1 characters:
    a [string] here holds code points below 256, as in [PyStr].  On these
    the classes of the pattern under [re.IGNORECASE] are the ones of module
    [url]: a letter of the pattern matches its two ASCII cases, [[A-Z]]
    matches the 52 ASCII letters, and [\d] the ten ASCII digits.

    Beyond Latin-1 the compiled pattern matches more, and this definition
    says nothing there: [re.IGNORECASE] lets U+017F (long s) match [s], so
    also the [s] of [https], lets U+0130, U+0131, U+017F and U+212A match
    [[A-Z]], [\d] matches every decimal digit of Unicode, and [str.lower]
    can change the length of a string. *)
Definition validate_url (url : string) : bool :=
  Regex.match_anchored url.url_pattern url.

End helpers_url.

(** ** The file system under the two writers

    A Linux file system, as far as [os.makedirs], [open(path, 'w')] and
    [DataFrame.to_csv(path)] look at it: directories and regular files,
    found by walking a path name by name from the root or from the current
    directory, with names of at most 255 bytes and paths of fewer than 4096,
    in UTF-8.  Left out, and so assumed not to come into play: symbolic
    links, permissions and read-only mounts, and running out of space. *)

Module posix.

(** The exceptions of the three calls: four subclasses of [OSError],
    [OSError] itself (here for [ENAMETOOLONG], and for what pandas raises),
    and [ValueError]. *)
Inductive exception :=
| FileNotFoundError
| FileExistsError
| IsADirectoryError
| NotADirectoryError
| OSError
| ValueError.

Inductive entry :=
| Dir
| File (content : string).

(** A place in the tree: the names from the root down, outermost first. *)
Definition names := list string.

(** The entries of the tree, apart from the root. *)
Abbreviation filesystem := (gmap names entry).

(** What is at a place; the root is a directory. *)
Definition kind (fs : filesystem) (p : names) : option entry :=
  match p with
  | [] => Some Dir
  | _ => fs !! p
  end.

Definition is_dir (fs : filesystem) (p : names) : bool :=
  match kind fs p with
  | Some Dir => true
  | _ => false
  end.

Definition is_file (fs : filesystem) (p : names) : bool :=
  match kind fs p with
  | Some (File _) => true
  | _ => false
  end.

(** No slash in a string. *)
Definition no_slash (s : string) : bool :=
  PyStr.all_chars (fun c => negb (Ascii.eqb c "/")) s.

(** A NUL character in a string. *)
Definition embedded_null (s : string) : bool :=
  negb (PyStr.all_chars (fun c => negb (Ascii.eqb c Ascii.zero)) s).

(** The names that are no entry of their own: the empty name (between two
    slashes, or at an end of the path), [.] and [..]. *)
Definition is_dots (name : string) : bool :=
  String.eqb name "" || String.eqb name "." || String.eqb name "..".

(** The bytes of a string in UTF-8: one for an ASCII character, two for
    the other characters of Latin-1. *)
Fixpoint encoded_length (s : string) : nat :=
  match s with
  | EmptyString => O
  | String c rest =>
      ((if (N_of_ascii c <? 128)%N then 1 else 2) + encoded_length rest)%nat
  end.

Definition NAME_MAX : nat := 255.
Definition PATH_MAX : nat := 4096.

(** A name of more than [NAME_MAX] bytes, and a path that does not fit,
    with its final NUL, in [PATH_MAX] bytes: both give [ENAMETOOLONG]. *)
Definition name_too_long (name : string) : bool :=
  (NAME_MAX <? encoded_length name)%nat.

Definition path_too_long (path : string) : bool :=
  (PATH_MAX <=? encoded_length path)%nat.

(** A name that can be the name of an entry. *)
Definition proper_name (name : string) : bool :=
  no_slash name && negb (is_dots name).

(** A path cut at its slashes. *)
Fixpoint components (s : string) : list string :=
  match s with
  | EmptyString => [EmptyString]
  | String c rest =>
      if Ascii.eqb c "/" then EmptyString :: components rest
      else match components rest with
           | name :: more => String c name :: more
           | [] => [String c EmptyString]
           end
  end.

(** One step of the walk, from a directory into a name that is not the
    last of its path: [ENAMETOOLONG] for a name that is too long, [ENOENT]
    when there is no such entry, [ENOTDIR] when it is a regular file.
    Without symbolic links [..] leads to the directory above, and stays at
    the root. *)
Definition enter (fs : filesystem) (dir : names) (name : string)
    : exception + names :=
  if String.eqb name "" || String.eqb name "." then inr dir
  else if String.eqb name ".." then inr (removelast dir)
  else if name_too_long name then inl OSError
  else match kind fs (dir ++ [name])%list with
       | Some Dir => inr (dir ++ [name])%list
       | Some (File _) => inl NotADirectoryError
       | None => inl FileNotFoundError
       end.

(** The walk along all names but the last: the directory reached, and the
    last name. *)
Fixpoint locate (fs : filesystem) (dir : names) (path : list string)
    : exception + (names * string) :=
  match path with
  | [] => inr (dir, EmptyString)
  | name :: rest =>
      match rest with
      | [] => inr (dir, name)
      | _ => match enter fs dir name with
             | inl e => inl e
             | inr dir' => locate fs dir' rest
             end
      end
  end.

(** The walk of a path: from the root when it starts with a slash, from the
    current directory [cwd] otherwise. *)
Definition resolve (fs : filesystem) (cwd : names) (path : string)
    : exception + (names * string) :=
  let start := if String.prefix "/" path then [] else cwd in
  if is_dir fs start then locate fs start (components path)
  else inl FileNotFoundError.

(** [with open(path, 'w') as f: f.write(content)]: the file is made, or cut
    to nothing when it is there, and filled.  [open] raises [ValueError] for
    a NUL in the path; the system call, with [O_CREAT], gives [ENOENT] for
    the empty path, [ENAMETOOLONG] for a path or a last name that is too
    long, and [EISDIR] for a last name that is empty, [.] or [..] or that
    names a directory. *)
Definition open_w (fs : filesystem) (cwd : names) (path content : string)
    : exception + filesystem :=
  if embedded_null path then inl ValueError
  else if String.eqb path "" then inl FileNotFoundError
  else if path_too_long path then inl OSError
  else match resolve fs cwd path with
       | inl e => inl e
       | inr (dir, name) =>
           if is_dots name then inl IsADirectoryError
           else if name_too_long name then inl OSError
           else match kind fs (dir ++ [name])%list with
                | Some Dir => inl IsADirectoryError
                | _ => inr (<[(dir ++ [name])%list := File content]> fs)
                end
       end.

(** [os.mkdir(name)] for a proper name, in the current directory. *)
Definition mkdir (fs : filesystem) (cwd : names) (name : string)
    : exception + filesystem :=
  if is_dir fs cwd then
    if name_too_long name then inl OSError
    else match kind fs (cwd ++ [name])%list with
         | Some _ => inl FileExistsError
         | None => inr (<[(cwd ++ [name])%list := Dir]> fs)
         end
  else inl FileNotFoundError.

(** [os.makedirs(name, exist_ok=exist_ok)] for a proper name, which is all
    the source asks of it ([name] is ['data']): there is no directory above
    to make first, so it is [mkdir(name)], whose [OSError] is let go when
    [exist_ok] is set and [name] is a directory. *)
Definition makedirs (fs : filesystem) (cwd : names) (name : string) (exist_ok : bool)
    : exception + filesystem :=
  match mkdir fs cwd name with
  | inr fs' => inr fs'
  | inl e =>
      if negb exist_ok || negb (is_dir fs (cwd ++ [name])%list) then inl e
      else inr fs
  end.

(** Whether [Path(path).parent] is a directory, for a path that does not
    end with a slash: the walk along all names but the last arrives.  (For
    a NUL in the path [is_dir()] answers [False].) *)
Definition parent_is_dir (fs : filesystem) (cwd : names) (path : string) : bool :=
  negb (embedded_null path)
  && match resolve fs cwd path with
     | inr _ => true
     | inl _ => false
     end.

End posix.

(** ** utils/helpers.py: save_to_json and save_to_csv

    The clock is an argument ([now] is what [datetime.now()] returns) and
    the two serializers ([json.dump] with [ensure_ascii=False, indent=2],
    and [DataFrame.to_csv] with [index=False]) are parameters.  The two
    functions are given in two steps: [save_to_json] and [save_to_csv] are
    what the function asks of the file system, in order, with the path it
    computes; [on_disk] carries the requests out on a file system, where
    each of them can raise, and gives the path only when none did. *)

Module helpers_io.

Record datetime := DateTime {
  year : Z; month : Z; day : Z; hour : Z; minute : Z; second : Z
}.

(** A date and time of day, with a year of four digits. *)
Definition well_formed (t : datetime) : Prop :=
  1000 <= year t <= 9999 /\ 1 <= month t <= 12 /\ 1 <= day t <= 31
  /\ 0 <= hour t <= 23 /\ 0 <= minute t <= 59 /\ 0 <= second t <= 59.

(** The decimal digit [d]. *)
Definition digit (d : Z) : ascii := ascii_of_N (48 + Z.to_N d).

(** A number on two and on four digits, padded with zeros: the fields
    [%m %d %H %M %S] and [%Y]. *)
Definition two_digits (n : Z) (rest : string) : string :=
  String (digit (n / 10 mod 10)) (String (digit (n mod 10)) rest).

Definition four_digits (n : Z) (rest : string) : string :=
  String (digit (n / 1000 mod 10)) (String (digit (n / 100 mod 10))
    (two_digits n rest)).

(** [t.strftime('%Y%m%d_%H%M%S')], for the years 1000 to 9999. *)
Definition strftime (t : datetime) : string :=
  four_digits (year t) (two_digits (month t) (two_digits (day t)
    (String "_" (two_digits (hour t) (two_digits (minute t)
      (two_digits (second t) EmptyString)))))).

(** The last character of a string. *)
Fixpoint last_char (s : string) : option ascii :=
  match s with
  | EmptyString => None
  | String c EmptyString => Some c
  | String _ rest => last_char rest
  end.

(** [os.path.join(a, b)] on a POSIX system: an absolute [b] replaces [a];
    otherwise [b] is appended, after a slash unless [a] is empty or ends
    with one. *)
Definition os_path_join (a b : string) : string :=
  if String.prefix "/" b then b
  else match last_char a with
       | None => a ++ b
       | Some c => if Ascii.eqb c "/" then a ++ b else a ++ "/" ++ b
       end.

Inductive fs_op :=
| Makedirs (name : string) (exist_ok : bool)
    (* os.makedirs(name, exist_ok=exist_ok) *)
| WriteFile (path : string) (encoding : string) (content : string)
    (* with open(path, 'w', encoding=encoding) as f: the content is written *)
| ToCsv (path : string) (encoding : string) (content : string).
    (* df.to_csv(path, index=False, encoding=encoding) *)

Section WithSerializers.
Variable json_dumps : list JobRecord -> string.
Variable to_csv : list JobRecord -> string.

(** [save_to_json(data, filename)] (lines 20-31): the two requests, and the
    path that is returned when neither raises. *)
Definition save_to_json (now : datetime) (data : list JobRecord) (filename : string)
    : list fs_op * string :=
  let timestamp := strftime now in
  let filename := filename ++ "_" ++ timestamp ++ ".json" in
  let filepath := os_path_join "data" filename in
  ([Makedirs "data" true; WriteFile filepath "utf-8" (json_dumps data)], filepath).

(** [save_to_csv(data, filename)] (lines 33-44): the two requests, and the
    path that is returned when neither raises. *)
Definition save_to_csv (now : datetime) (data : list JobRecord) (filename : string)
    : list fs_op * string :=
  let timestamp := strftime now in
  let filename := filename ++ "_" ++ timestamp ++ ".csv" in
  let filepath := os_path_join "data" filename in
  ([Makedirs "data" true; ToCsv filepath "utf-8" (to_csv data)], filepath).

(** The two writers, under one name. *)
Inductive format := Json | Csv.

Definition save (w : format) : datetime -> list JobRecord -> string -> list fs_op * string :=
  match w with
  | Json => save_to_json
  | Csv => save_to_csv
  end.

Definition extension (w : format) : string :=
  match w with
  | Json => ".json"
  | Csv => ".csv"
  end.

Definition serialized (w : format) (data : list JobRecord) : string :=
  match w with
  | Json => json_dumps data
  | Csv => to_csv data
  end.

End WithSerializers.

(** [DataFrame.to_csv(path)] on a file (pandas 1.4 and later): it first
    checks that the directory of the path is there, and raises a plain
    [OSError] when it is not; then it opens the path as [open] does.  (What
    the check itself may raise for a name that is too long is a plain
    [OSError] as well.  Earlier versions of pandas left it all to [open],
    whose [FileNotFoundError] is an [OSError] too.) *)
Definition dataframe_to_csv (fs : posix.filesystem) (cwd : posix.names)
    (path content : string) : posix.exception + posix.filesystem :=
  if posix.parent_is_dir fs cwd path then posix.open_w fs cwd path content
  else inl posix.OSError.

(** One request, carried out in the directory [cwd]. *)
Definition perform (fs : posix.filesystem) (cwd : posix.names) (op : fs_op)
    : posix.exception + posix.filesystem :=
  match op with
  | Makedirs name exist_ok => posix.makedirs fs cwd name exist_ok
  | WriteFile path _ content => posix.open_w fs cwd path content
  | ToCsv path _ content => dataframe_to_csv fs cwd path content
  end.

(** The requests in order, up to the first that raises: the exception if
    any, and the file system then. *)
Fixpoint perform_all (fs : posix.filesystem) (cwd : posix.names) (ops : list fs_op)
    : option posix.exception * posix.filesystem :=
  match ops with
  | [] => (None, fs)
  | op :: rest =>
      match perform fs cwd op with
      | inl e => (Some e, fs)
      | inr fs' => perform_all fs' cwd rest
      end
  end.

(** A call of one of the writers on a file system: the requests are
    carried out, and the path is returned when none of them raised. *)
Definition on_disk (call : list fs_op * string)
    (fs : posix.filesystem) (cwd : posix.names)
    : (posix.exception + string) * posix.filesystem :=
  match perform_all fs cwd (fst call) with
  | (Some e, fs') => (inl e, fs')
  | (None, fs') => (inr (snd call), fs')
  end.

(** What the writers raise when the directory of the file is not there. *)
Definition no_directory (w : format) : posix.exception :=
  match w with
  | Json => posix.FileNotFoundError
  | Csv => posix.OSError
  end.

(** The third of November 2026, 15:27:09, and one second later. *)
Definition sample_time : datetime := DateTime 2026 11 3 15 27 9.
Definition sample_time_later : datetime := DateTime 2026 11 3 15 27 10.

(** A file system with nothing below the root but the directory [srv]. *)
Definition sample_disk : posix.filesystem := {[ ["srv"] := posix.Dir ]}.

End helpers_io.

(** ** utils/visualization.py: JobVisualizer

    Of pandas, matplotlib, seaborn and wordcloud the model keeps what the
    methods do with them: a [DataFrame] built from a list of mappings has
    the union of their keys as columns; [df[name]] raises [KeyError] for a
    name that is no column, and seaborn raises [ValueError] for a variable
    that is no column; the drawing calls are recorded, with the column they
    draw, and are taken to succeed. *)

Module visualization.

Inductive error :=
| KeyError (name : string)
| ValueError (name : string).

Inductive plot_op :=
| Makedirs (path : string) (exist_ok : bool)
| Figure (width height : Z)
| BarPlot (column : string) (top : nat)   (* [value_counts().head(top)] of a column *)
| Pie (column : string)                   (* [value_counts()] of a column *)
| HistPlot (column : string) (bins : Z)
| WordCloud (column : string)
| Axis (setting : string)
| Title (text : string)
| XLabel (text : string)
| YLabel (text : string)
| SaveFig (path : string)
| Close
| LogInfo (msg : string).

(** The monad of the methods: the drawing calls so far, and an error or a
    value. *)
Definition P (A : Type) : Type := list plot_op * (error + A).

Definition pret {A} (a : A) : P A := ([], inr a).
Definition pfail {A} (e : error) : P A := ([], inl e).
Definition pbind {A B} (m : P A) (k : A -> P B) : P B :=
  match m with
  | (ops, inl e) => (ops, inl e)
  | (ops, inr a) => let '(ops', r) := k a in ((ops ++ ops')%list, r)
  end.
Definition op (o : plot_op) : P unit := ([o], inr tt).

Notation "x <~ c ;; k" := (pbind c (fun x => k))
  (at level 100, c at next level, right associativity) : py_scope.
Notation "c ~;; k" := (pbind c (fun _ => k))
  (at level 100, right associativity) : py_scope.

Record JobVisualizer := Visualizer {
  jobs : list JobRecord;
  columns : gset string;       (* the columns of [self.df] *)
  output_dir : string
}.

(** The columns of [pd.DataFrame(jobs)]. *)
Definition dataframe_columns (jobs : list JobRecord) : gset string :=
  foldr (fun r acc => dom r ∪ acc) ∅ jobs.

(** [JobVisualizer(jobs)] (lines 14-19). *)
Definition init (jobs : list JobRecord) : P JobVisualizer :=
  let self := Visualizer jobs (dataframe_columns jobs) "data/visualizations" in
  op (Makedirs (output_dir self) true) ~;;
  pret self.

(** [self.df[name]] *)
Definition column (self : JobVisualizer) (name : string) : P string :=
  if decide (name ∈ columns self) then pret name else pfail (KeyError name).

(** A seaborn variable [x=name] of [data=self.df]. *)
Definition variable (self : JobVisualizer) (name : string) : P string :=
  if decide (name ∈ columns self) then pret name else pfail (ValueError name).

(** [_save_plot(filename)] (lines 21-26). *)
Definition _save_plot (self : JobVisualizer) (filename : string) : P string :=
  let filepath := helpers_io.os_path_join (output_dir self) filename in
  op (SaveFig filepath) ~;;
  op Close ~;;
  pret filepath.

(** [plot_jobs_by_company()] (lines 28-38). *)
Definition plot_jobs_by_company (self : JobVisualizer) : P string :=
  op (Figure 12 6) ~;;
  company_counts <~ column self "company" ;;
  op (BarPlot company_counts 10) ~;;
  op (Title "Top 10 Companies by Number of Job Listings") ~;;
  op (XLabel "Number of Jobs") ~;;
  op (YLabel "Company") ~;;
  filepath <~ _save_plot self "jobs_by_company.png" ;;
  op (LogInfo ("Saved company distribution plot to " ++ filepath)) ~;;
  pret filepath.

(** [plot_jobs_by_location()] (lines 40-50). *)
Definition plot_jobs_by_location (self : JobVisualizer) : P string :=
  op (Figure 12 6) ~;;
  location_counts <~ column self "location" ;;
  op (BarPlot location_counts 10) ~;;
  op (Title "Top 10 Locations by Number of Job Listings") ~;;
  op (XLabel "Number of Jobs") ~;;
  op (YLabel "Location") ~;;
  filepath <~ _save_plot self "jobs_by_location.png" ;;
  op (LogInfo ("Saved location distribution plot to " ++ filepath)) ~;;
  pret filepath.

(** [plot_job_types()] (lines 52-60). *)
Definition plot_job_types (self : JobVisualizer) : P string :=
  op (Figure 10 10) ~;;
  job_types <~ column self "job_type" ;;
  op (Pie job_types) ~;;
  op (Title "Distribution of Job Types") ~;;
  filepath <~ _save_plot self "job_types.png" ;;
  op (LogInfo ("Saved job types plot to " ++ filepath)) ~;;
  pret filepath.

(** [plot_salary_distribution()] (lines 62-71). *)
Definition plot_salary_distribution (self : JobVisualizer) : P string :=
  op (Figure 12 6) ~;;
  x <~ variable self "salary" ;;
  op (HistPlot x 20) ~;;
  op (Title "Salary Distribution") ~;;
  op (XLabel "Salary Range") ~;;
  op (YLabel "Number of Jobs") ~;;
  filepath <~ _save_plot self "salary_distribution.png" ;;
  op (LogInfo ("Saved salary distribution plot to " ++ filepath)) ~;;
  pret filepath.

(** [create_word_cloud()] (lines 73-83). *)
Definition create_word_cloud (self : JobVisualizer) : P string :=
  op (Figure 12 8) ~;;
  text <~ column self "description" ;;
  op (WordCloud text) ~;;
  op (Axis "off") ~;;
  op (Title "Word Cloud of Job Descriptions") ~;;
  filepath <~ _save_plot self "job_descriptions_wordcloud.png" ;;
  op (LogInfo ("Saved word cloud to " ++ filepath)) ~;;
  pret filepath.

(** The five methods, by name. *)
Inductive method :=
| by_company | by_location | job_types | salary_distribution | word_cloud.

Definition run (m : method) (self : JobVisualizer) : P string :=
  match m with
  | by_company => plot_jobs_by_company self
  | by_location => plot_jobs_by_location self
  | job_types => plot_job_types self
  | salary_distribution => plot_salary_distribution self
  | word_cloud => create_word_cloud self
  end.

(** The column a method reads, and the file it saves. *)
Definition column_of (m : method) : string :=
  match m with
  | by_company => "company"
  | by_location => "location"
  | job_types => "job_type"
  | salary_distribution => "salary"
  | word_cloud => "description"
  end.

Definition file_of (m : method) : string :=
  match m with
  | by_company => "jobs_by_company.png"
  | by_location => "jobs_by_location.png"
  | job_types => "job_types.png"
  | salary_distribution => "salary_distribution.png"
  | word_cloud => "job_descriptions_wordcloud.png"
  end.

(** A visualizer as [JobVisualizer(jobs)] builds it. *)
Definition visualizer (jobs : list JobRecord) : JobVisualizer :=
  Visualizer jobs (dataframe_columns jobs) "data/visualizations".

(** The figures a run saved. *)
Fixpoint saved (ops : list plot_op) : list string :=
  match ops with
  | [] => []
  | SaveFig path :: rest => path :: saved rest
  | _ :: rest => saved rest
  end.

End visualization.

(** ** From the scrapers to the visualizer *)

Module Pipeline.

(** The list [scrape_job_listings] returns. *)
Definition scraped (w : Reference.site) (W : env) (url : string) (max_pages : Z)
    (s : state) : list JobRecord :=
  match fst (Reference.scrape_job_listings w W url max_pages s) with
  | inr found => found
  | inl _ => []
  end.

(** The error of a method that does not find its column: pandas raises
    [KeyError], seaborn [ValueError]. *)
Definition missing_column (m : visualization.method) : visualization.error :=
  match m with
  | visualization.salary_distribution => visualization.ValueError "salary"
  | _ => visualization.KeyError (visualization.column_of m)
  end.

End Pipeline.

(** * Properties *)

(** ** Strings *)

Section StringFacts.

Import PyStr.

Lemma all_chars_lstrip p s : all_chars p s = true -> all_chars p (lstrip s) = true.
Proof.
  induction s as [|c r IH]; simpl; [done|].
  intros [Hc Hr]%andb_true_iff.
  destruct (isspace c); [by apply IH | simpl; by rewrite Hc, Hr].
Qed.

Lemma all_chars_rstrip p s : all_chars p s = true -> all_chars p (rstrip s) = true.
Proof.
  induction s as [|c r IH]; simpl; [done|].
  intros [Hc Hr]%andb_true_iff. specialize (IH Hr).
  destruct (rstrip r) as [|d r'].
  - destruct (isspace c); simpl; [done | by rewrite Hc].
  - change (all_chars p (String c (String d r')) = true).
    simpl in *. by rewrite Hc, IH.
Qed.

Lemma all_chars_sub_special s : all_chars kept (sub_special s) = true.
Proof.
  induction s as [|c r IH]; simpl; [done|].
  destruct (kept c) eqn:Hk; simpl; [by rewrite Hk, IH | done].
Qed.

Lemma lstrip_no_leading_space s : starts_with_space (lstrip s) = false.
Proof.
  induction s as [|c r IH]; simpl; [done|].
  destruct (isspace c) eqn:Hc; [done | simpl; by rewrite Hc].
Qed.

Lemma rstrip_no_leading_space s :
  starts_with_space s = false -> starts_with_space (rstrip s) = false.
Proof.
  destruct s as [|c r]; simpl; [done|]. intros Hc.
  destruct (rstrip r); rewrite ?Hc; simpl; done.
Qed.

Lemma rstrip_no_trailing_space s : ends_with_space (rstrip s) = false.
Proof.
  induction s as [|c r IH]; simpl; [done|].
  destruct (rstrip r) as [|d r'].
  - destruct (isspace c) eqn:Hc; simpl; [done | by rewrite Hc].
  - change (ends_with_space (String c (String d r')) = false).
    exact IH.
Qed.

(** The normalizer keeps only word characters, whitespace, and [. , $]. *)
Lemma normalize_kept s : all_chars kept (helpers.normalize s) = true.
Proof.
  unfold helpers.normalize, strip.
  apply all_chars_rstrip, all_chars_lstrip, all_chars_sub_special.
Qed.

(** The normalizer leaves no whitespace at either end. *)
Lemma normalize_trimmed s :
  starts_with_space (helpers.normalize s) = false
  /\ ends_with_space (helpers.normalize s) = false.
Proof.
  unfold helpers.normalize, strip. split.
  - apply rstrip_no_leading_space, lstrip_no_leading_space.
  - apply rstrip_no_trailing_space.
Qed.

Lemma lower_app (a b : string) : lower (a ++ b) = (lower a ++ lower b)%string.
Proof. induction a as [|c a IH]; simpl; [done | by rewrite IH]. Qed.

Lemma lower_split s (a b : string) :
  lower s = (a ++ b)%string ->
  exists a' b', s = (a' ++ b')%string /\ lower a' = a /\ lower b' = b.
Proof.
  revert s. induction a as [|c a IH]; intros s H; simpl in H.
  - by exists EmptyString, s.
  - destruct s as [|d s]; simpl in H; [done|].
    injection H as Hd Hs. destruct (IH _ Hs) as (a' & b' & -> & Ha & Hb).
    exists (String d a'), b'. simpl. by rewrite Hd, Ha.
Qed.

Lemma prefix_spec (a b : string) :
  String.prefix a b = true <-> exists suf, b = (a ++ suf)%string.
Proof.
  revert b. induction a as [|c a IH]; intros b.
  - split; [intros _; by exists b | by destruct b].
  - destruct b as [|d b]; simpl.
    + split; [done | intros [suf H]; done].
    + destruct (ascii_dec c d) as [->|Hne].
      * rewrite IH. split; intros [suf H]; exists suf; [by rewrite H | by injection H].
      * split; [done | intros [suf H]; injection H as ? ?; done].
Qed.

Lemma contains_spec (needle hay : string) :
  contains needle hay = true <-> Reference.occurs needle hay.
Proof.
  unfold Reference.occurs.
  induction hay as [|c r IH].
  - cbn [contains]. rewrite orb_false_r, prefix_spec. split.
    + intros [suf H]. by exists EmptyString, suf.
    + intros (pre & suf & H). destruct pre; simpl in H; [by exists suf | done].
  - cbn [contains]. rewrite orb_true_iff, IH, prefix_spec. split.
    + intros [[suf H] | (pre & suf & H)].
      * by exists EmptyString, suf.
      * exists (String c pre), suf. simpl. by rewrite H.
    + intros (pre & suf & H). destruct pre as [|d pre]; simpl in H.
      * left. by exists suf.
      * right. injection H as _ H. by exists pre, suf.
Qed.

(** [term in title.lower()] is the case-insensitive occurrence of [term]. *)
Lemma contains_lower_spec (term title : string) :
  contains term (lower title) = true <-> Reference.occurs_ci term title.
Proof.
  rewrite contains_spec. unfold Reference.occurs, Reference.occurs_ci. split.
  - intros (pre & suf & H).
    apply lower_split in H as (pre' & rest & -> & _ & H).
    apply lower_split in H as (mid & suf' & -> & Hm & _).
    by exists pre', mid, suf'.
  - intros (pre & mid & suf & -> & Hm).
    exists (lower pre), (lower suf). by rewrite !lower_app, Hm.
Qed.

End StringFacts.

(** ** Running the monad *)

Ltac run :=
  unfold BaseScraper._update_headers, BaseScraper.session_get,
    BaseScraper.raise_for_status, time_sleep, logger_error, logger_info,
    text_of, find_all_of,
    jobs_init, jobs_append, jobs_get, tell, emit, bind, try_except, ret, raise;
  cbn [requests trace jobs fst snd is_RequestException is_Exception
       exn_cls exn_msg andb orb].

(** Close a goal [exists evs, run = (v, State n (trace s ++ evs) j) /\ ...]
    once the run is evaluated. *)
Ltac trace_done :=
  eexists; split; [rewrite <- ?app_assoc; reflexivity |].

Section RunFacts.

Import Reference.

Lemma page_fetches_app a b :
  page_fetches (a ++ b) = (page_fetches a + page_fetches b)%nat.
Proof. unfold page_fetches. by rewrite List.filter_app, length_app. Qed.

Lemma state_eta s : State (requests s) (trace s) (jobs s) = s.
Proof. by destruct s. Qed.

(** ** The fetch client *)

(** A call uses at most one request per attempt. *)
Lemma fetched_requests W url attempts n :
  (n <= snd (fetched W url attempts n) <= n + length attempts)%nat.
Proof.
  revert n. induction attempts as [|a rest IH]; intros n; cbn [fetched length snd].
  - lia.
  - pose proof (IH (S n)).
    repeat (match goal with
            | |- context [match ?x with _ => _ end] => destruct x
            end; cbn [snd]); lia.
Qed.

(** The loop of [_get_soup] yields what [fetched] says, and only adds events
    to the trace. *)
Lemma get_soup_loop_run W url attempts d s :
  exists evs,
    BaseScraper._get_soup_loop W url attempts d s
    = (fst (fetched W url attempts (requests s)),
       State (snd (fetched W url attempts (requests s))) (trace s ++ evs) (jobs s))
    /\ page_fetches evs = 0%nat.
Proof.
  revert d s. induction attempts as [|attempt rest IH]; intros d s.
  - exists []. simpl. rewrite app_nil_r. by destruct s.
  - cbn [BaseScraper._get_soup_loop fetched]. unfold failure_of. run.
    change (BaseScraper.max_retries - 1) with 2.
    destruct (server W url (requests s)) as [r|[cls msg]].
    + destruct ((400 <=? status_code r) && (status_code r <? 600)); run.
      * destruct (attempt <? 2); run.
        -- edestruct IH as (evs & -> & Hev). cbn [requests trace jobs].
           trace_done. by rewrite !page_fetches_app, Hev.
        -- by trace_done.
      * destruct (status_code r =? 200); run.
        -- by trace_done.
        -- edestruct IH as (evs & -> & Hev). cbn [requests trace jobs].
           trace_done. by rewrite !page_fetches_app, Hev.
    + destruct cls; run; try (destruct (attempt <? 2); run);
        try (edestruct IH as (evs & -> & Hev); cbn [requests trace jobs]);
        trace_done; by rewrite ?page_fetches_app, ?Hev.
Qed.

Lemma get_soup_run W url s :
  exists evs,
    BaseScraper._get_soup W url s
    = (fst (fetched W url (range 3) (requests s)),
       State (snd (fetched W url (range 3) (requests s))) (trace s ++ evs) (jobs s))
    /\ page_fetches evs = 1%nat.
Proof.
  unfold BaseScraper._get_soup. run.
  edestruct get_soup_loop_run as (evs & -> & Hev). cbn [requests trace jobs].
  trace_done. by rewrite page_fetches_app, Hev.
Qed.

(** A first answer with status 200 is parsed and returned at once. *)
Lemma get_soup_200 W url s r :
  server W url (requests s) = Responds r -> status_code r = 200 ->
  BaseScraper._get_soup W url s
  = (inr (Some (html_parser W (body r))),
     State (S (requests s))
       (trace s ++ [Enter_get_soup url; UpdateHeaders; Sleep (Uniform 2 5);
                    Get url 10])
       (jobs s)).
Proof.
  intros Hsrv Hst. unfold BaseScraper._get_soup.
  change (range BaseScraper.max_retries) with [0; 1; 2].
  cbn [BaseScraper._get_soup_loop].
  run. rewrite Hsrv, Hst. cbn. by rewrite <- !app_assoc.
Qed.

(** One failed attempt: the failure is logged, and then either the loop
    sleeps [retry_delay] seconds and goes on with the delay doubled, or (at
    the last attempt) the failure is raised again. *)
Lemma get_soup_loop_failure W url attempt rest d s e :
  failure_of (server W url (requests s)) = Some e ->
  is_RequestException e = true ->
  BaseScraper._get_soup_loop W url (attempt :: rest) d s
  = if attempt <? 2
    then BaseScraper._get_soup_loop W url rest (d * 2)
           (State (S (requests s))
              (trace s ++ [UpdateHeaders; Sleep (Uniform 2 5); Get url 10;
                           attempt_failed (attempt + 1) url e; Sleep (Seconds d)])
              (jobs s))
    else (inl e,
          State (S (requests s))
            (trace s ++ [UpdateHeaders; Sleep (Uniform 2 5); Get url 10;
                         attempt_failed (attempt + 1) url e])
            (jobs s)).
Proof.
  unfold failure_of. intros Hf He.
  cbn [BaseScraper._get_soup_loop]. run.
  change (BaseScraper.max_retries - 1) with 2.
  destruct (server W url (requests s)) as [r|x];
    [destruct ((400 <=? status_code r) && (status_code r <? 600)); [|done]|];
    injection Hf as <-; run; rewrite ?He;
    destruct (attempt <? 2); run; by rewrite <- ?app_assoc.
Qed.

(** Three attempts that fail with a [RequestException] (a network error, a
    timeout, or a 4xx or 5xx status): a sleep of 5 seconds after the first,
    of 10 seconds after the second, and the third failure goes to the
    caller. *)
Lemma get_soup_exhausted W url s e1 e2 e3 :
  failure_of (server W url (requests s)) = Some e1 ->
  failure_of (server W url (S (requests s))) = Some e2 ->
  failure_of (server W url (S (S (requests s)))) = Some e3 ->
  is_RequestException e1 = true -> is_RequestException e2 = true ->
  is_RequestException e3 = true ->
  BaseScraper._get_soup W url s
  = (inl e3,
     State (S (S (S (requests s))))
       (trace s ++ [Enter_get_soup url;
                    UpdateHeaders; Sleep (Uniform 2 5); Get url 10;
                    attempt_failed 1 url e1; Sleep (Seconds 5);
                    UpdateHeaders; Sleep (Uniform 2 5); Get url 10;
                    attempt_failed 2 url e2; Sleep (Seconds 10);
                    UpdateHeaders; Sleep (Uniform 2 5); Get url 10;
                    attempt_failed 3 url e3])
       (jobs s)).
Proof.
  intros H1 H2 H3 R1 R2 R3. unfold BaseScraper._get_soup.
  change (range BaseScraper.max_retries) with [0; 1; 2].
  unfold bind at 1, tell, emit.
  rewrite (get_soup_loop_failure _ _ _ _ _ _ e1) by done.
  cbn [Z.ltb Z.compare requests trace jobs].
  rewrite (get_soup_loop_failure _ _ _ _ _ _ e2) by done.
  cbn [Z.ltb Z.compare Pos.compare Pos.compare_cont requests trace jobs].
  rewrite (get_soup_loop_failure _ _ _ _ _ _ e3) by done.
  cbn [Z.ltb Z.compare Pos.compare Pos.compare_cont requests trace jobs].
  by rewrite <- !app_assoc.
Qed.

(** A call of [_get_soup] issues at most three requests. *)
Lemma get_soup_at_most_three W url s :
  (requests s <= requests (snd (BaseScraper._get_soup W url s)) <= requests s + 3)%nat.
Proof.
  destruct (get_soup_run W url s) as (evs & -> & _). cbn [snd requests].
  apply (fetched_requests W url (range 3) (requests s)).
Qed.

(** One attempt answered with a status that is neither 200 nor 4xx or 5xx:
    nothing is logged, nothing is slept, and the loop goes on with the same
    delay. *)
Lemma get_soup_loop_unhandled W url attempt rest d s r :
  server W url (requests s) = Responds r ->
  (400 <=? status_code r) && (status_code r <? 600) = false ->
  (status_code r =? 200) = false ->
  BaseScraper._get_soup_loop W url (attempt :: rest) d s
  = BaseScraper._get_soup_loop W url rest d
      (State (S (requests s))
         (trace s ++ [UpdateHeaders; Sleep (Uniform 2 5); Get url 10])
         (jobs s)).
Proof.
  intros Hsrv Herr Hok. cbn [BaseScraper._get_soup_loop]. run.
  rewrite Hsrv, Herr. run. rewrite Hok. by rewrite <- !app_assoc.
Qed.

(** Three such answers in a row: [_get_soup] returns [None]. *)
Lemma get_soup_unhandled W url s r1 r2 r3 :
  server W url (requests s) = Responds r1 ->
  server W url (S (requests s)) = Responds r2 ->
  server W url (S (S (requests s))) = Responds r3 ->
  Forall (fun r => (400 <=? status_code r) && (status_code r <? 600) = false
                   /\ (status_code r =? 200) = false) [r1; r2; r3] ->
  BaseScraper._get_soup W url s
  = (inr None,
     State (S (S (S (requests s))))
       (trace s ++ [Enter_get_soup url;
                    UpdateHeaders; Sleep (Uniform 2 5); Get url 10;
                    UpdateHeaders; Sleep (Uniform 2 5); Get url 10;
                    UpdateHeaders; Sleep (Uniform 2 5); Get url 10])
       (jobs s)).
Proof.
  intros H1 H2 H3 Hall.
  apply Forall_cons_1 in Hall as [[E1 K1] Hall].
  apply Forall_cons_1 in Hall as [[E2 K2] Hall].
  apply Forall_cons_1 in Hall as [[E3 K3] _].
  unfold BaseScraper._get_soup.
  change (range BaseScraper.max_retries) with [0; 1; 2].
  unfold bind at 1, tell, emit.
  rewrite (get_soup_loop_unhandled _ _ _ _ _ _ r1) by done.
  rewrite (get_soup_loop_unhandled _ _ _ _ _ _ r2) by done.
  rewrite (get_soup_loop_unhandled _ _ _ _ _ _ r3) by done.
  cbn [BaseScraper._get_soup_loop requests trace jobs]. unfold ret.
  by rewrite <- !app_assoc.
Qed.

End RunFacts.

(** ** The card extractors *)

Section ExtractFacts.

Import Reference.

Lemma insert_nonempty (k v : string) (m : JobRecord) : <[k := v]> m <> ∅.
Proof. apply insert_non_empty. Qed.

Lemma indeed_extracts : extracts IndeedScraper._extract_job_data indeed_record.
Proof.
  intros card s. unfold IndeedScraper._extract_job_data, indeed_record. run.
  destruct (bs4.find card "h2" "jobTitle") as [title|]; run;
    [destruct (bs4.find card "span" "companyName") as [company|]; run;
     [destruct (bs4.find card "div" "companyLocation") as [location|]; run|]|].
  1: { exists []. rewrite app_nil_r, state_eta.
       cbn [list_to_map foldr fst snd uncurry helpers.clean_text isinstance_str negb str].
       split; [done|]. split; [done|].
       split; [intros H; by apply insert_nonempty in H | done]. }
  all: eexists; split; [reflexivity|]; split; [done|]; split; [by eexists | done].
Qed.

Lemma linkedin_extracts : extracts LinkedInScraper._extract_job_data linkedin_record.
Proof.
  intros card s. unfold LinkedInScraper._extract_job_data, linkedin_record. run.
  destruct (bs4.find card "h3" "base-search-card__title") as [title|]; run;
    [destruct (bs4.find card "h4" "base-search-card__subtitle") as [company|]; run;
     [destruct (bs4.find card "span" "job-search-card__location") as [location|]; run|]|].
  1: { exists []. rewrite app_nil_r, state_eta.
       cbn [list_to_map foldr fst snd uncurry helpers.clean_text isinstance_str negb str].
       split; [done|]. split; [done|].
       split; [intros H; by apply insert_nonempty in H | done]. }
  all: eexists; split; [reflexivity|]; split; [done|]; split; [by eexists | done].
Qed.

End ExtractFacts.

(** ** The pagination drivers *)

Lemma indeed_scrape_with W :
  IndeedScraper.scrape_job_listings W
  = Reference.scrape_with W 10 "job_seen_beacon" IndeedScraper._extract_job_data.
Proof. reflexivity. Qed.

Lemma linkedin_scrape_with W :
  LinkedInScraper.scrape_job_listings W
  = Reference.scrape_with W 25 "base-card" LinkedInScraper._extract_job_data.
Proof. reflexivity. Qed.

Section DriverFacts.

Import Reference.

Variable W : env.
Variable per_page : Z.
Variable card_class : string.
Variable extract : bs4.node -> M JobRecord.
Variable record_of : bs4.node -> JobRecord.
Hypothesis extract_ok : extracts extract record_of.

(** The loop over the cards of a page appends the non-empty records in the
    order of the cards. *)
Lemma cards_loop_run cards s :
  exists evs,
    for_each cards (fun job_element =>
      job_data <- extract job_element ;;
      if truthy job_data then jobs_append job_data else ret tt) s
    = (inr tt,
       State (requests s) (trace s ++ evs)
         (jobs s ++ List.filter truthy (map record_of cards)))
    /\ page_fetches evs = 0%nat.
Proof.
  revert s. induction cards as [|card cards IH]; intros s.
  - exists []. cbn. by rewrite !app_nil_r, state_eta.
  - cbn [for_each map List.filter]. unfold bind at 1 2.
    destruct (extract_ok card s) as (evs & -> & Hev & _).
    destruct (truthy (record_of card)); run;
      edestruct IH as (evs' & -> & Hev'); cbn [requests trace jobs];
      trace_done; by rewrite page_fetches_app, Hev, Hev'.
Qed.

(** One page: whatever the fetch does, the body of the loop ends normally;
    it appends the records of the page when the fetch yielded a document,
    and nothing otherwise. *)
Lemma scrape_page_run url max_pages page s :
  exists evs,
    scrape_page W per_page card_class extract url max_pages page s
    = (inr tt,
       State (snd (fetched W (page_url per_page url page) (range 3) (requests s)))
         (trace s ++ evs)
         (jobs s ++ page_records card_class record_of
                      (doc_of (fst (fetched W (page_url per_page url page)
                                      (range 3) (requests s))))))
    /\ page_fetches evs = 1%nat.
Proof.
  unfold scrape_page, page_url. cbv zeta. unfold try_except, bind at 1.
  edestruct get_soup_run as (evs & -> & Hev).
  destruct (fetched _ _ _ _) as [[e|[doc|]] n']; run;
    cbn [doc_of page_records]; rewrite ?app_nil_r.
  - trace_done. by rewrite page_fetches_app, Hev.
  - edestruct cards_loop_run as (evs' & -> & Hev'). cbn [requests trace jobs].
    trace_done. by rewrite !page_fetches_app, Hev, Hev'.
  - trace_done. by rewrite page_fetches_app, Hev.
Qed.

(** The loop over the pages: the records of the pages in page order, and one
    call of [_get_soup] per page. *)
Lemma pages_loop_run url max_pages pages s :
  exists n' evs,
    for_each pages (scrape_page W per_page card_class extract url max_pages) s
    = (inr tt,
       State n' (trace s ++ evs)
         (jobs s ++ flat_map (page_records card_class record_of)
                      (pages_docs W (page_url per_page url) pages (requests s))))
    /\ page_fetches evs = length pages.
Proof.
  revert s. induction pages as [|page pages IH]; intros s.
  - exists (requests s), []. cbn. by rewrite !app_nil_r, state_eta.
  - cbn [for_each pages_docs length]. unfold bind at 1.
    destruct (scrape_page_run url max_pages page s) as (evs & -> & Hev).
    change (range BaseScraper.max_retries) with (range 3).
    destruct (fetched _ _ _ _) as [r n1]. cbn [fst snd flat_map].
    edestruct IH as (n' & evs' & -> & Hev'). cbn [requests trace jobs].
    exists n'. eexists. split.
    + rewrite <- !app_assoc. reflexivity.
    + by rewrite page_fetches_app, Hev, Hev'.
Qed.

(** The whole method, from any state. *)
Lemma scrape_with_run url max_pages s :
  exists n' evs,
    let found := flat_map (page_records card_class record_of)
                   (pages_docs W (page_url per_page url) (range max_pages)
                      (requests s)) in
    scrape_with W per_page card_class extract url max_pages s
    = (inr found, State n' (trace s ++ evs) found)
    /\ page_fetches evs = Z.to_nat max_pages.
Proof.
  unfold scrape_with. unfold bind at 1 2. unfold jobs_init at 1.
  edestruct pages_loop_run as (n' & evs & -> & Hev).
  cbn [requests trace jobs app]. exists n', evs. split; [done|].
  rewrite Hev. unfold range. by rewrite length_map, length_seq.
Qed.

End DriverFacts.

(** ** The two sites *)

Section SiteFacts.

Import Reference.

Lemma scrape_job_listings_with w W :
  scrape_job_listings w W
  = scrape_with W (per_page w) (card_class w) (extract_job_data w).
Proof. by destruct w. Qed.

Lemma extract_job_data_extracts w : extracts (extract_job_data w) (record_of w).
Proof. destruct w; [apply indeed_extracts | apply linkedin_extracts]. Qed.

Ltac required_nodes w card :=
  cbn [record_of title_node company_node location_node fields];
  unfold indeed_record, linkedin_record;
  lazymatch w with
  | Indeed =>
      destruct (bs4.find card "h2" "jobTitle");
      [destruct (bs4.find card "span" "companyName");
       [destruct (bs4.find card "div" "companyLocation")|]|]
  | LinkedIn =>
      destruct (bs4.find card "h3" "base-search-card__title");
      [destruct (bs4.find card "h4" "base-search-card__subtitle");
       [destruct (bs4.find card "span" "job-search-card__location")|]|]
  end;
  cbn [list_to_map foldr uncurry fst snd].

(** The record of a card is empty exactly when a required node is missing. *)
Lemma record_of_empty w card :
  record_of w card = ∅
  <-> title_node w card = None \/ company_node w card = None
      \/ location_node w card = None.
Proof.
  destruct w;
    [required_nodes Indeed card | required_nodes LinkedIn card].
  all: split;
    [ intros H; first [ apply insert_non_empty in H; destruct H
                      | left; reflexivity | right; left; reflexivity
                      | right; right; reflexivity ]
    | intros [H|[H|H]]; first [discriminate H | reflexivity] ].
Qed.

(** A record that is not empty has all the fields of its site. *)
Lemma record_of_fields w card :
  record_of w card <> ∅ -> has_fields (fields w) (record_of w card).
Proof.
  unfold has_fields.
  destruct w;
    [required_nodes Indeed card | required_nodes LinkedIn card].
  all: intros H; try (exfalso; apply H; reflexivity).
  all: rewrite !dom_insert_L, dom_empty_L.
  all: unfold indeed_fields, linkedin_fields; cbn [list_to_set foldr].
  all: reflexivity.
Qed.

(** When every request fails, every fetch fails. *)
Lemma every_request_fails W :
  (forall url n, is_Some (failure_of (server W url n))) -> every_fetch_fails W.
Proof.
  intros H url n. change (range 3) with [0; 1; 2]. cbn [fetched].
  destruct (H url n) as [e1 ->].
  destruct (is_RequestException e1); cbn [andb Z.ltb Z.compare fst doc_of]; [|done].
  destruct (H url (S n)) as [e2 ->].
  destruct (is_RequestException e2);
    cbn [andb Z.ltb Z.compare Pos.compare Pos.compare_cont fst doc_of]; [|done].
  destruct (H url (S (S n))) as [e3 ->].
  by destruct (is_RequestException e3).
Qed.

(** One document, or none, per page. *)
Lemma pages_docs_length W page_url pages n :
  length (pages_docs W page_url pages n) = length pages.
Proof.
  revert n. induction pages as [|p ps IH]; intros n; [done|].
  cbn [pages_docs length]. destruct (fetched _ _ _ _). cbn [length].
  by rewrite IH.
Qed.

Lemma range_length n : length (range n) = Z.to_nat n.
Proof. unfold range. by rewrite length_map, length_seq. Qed.

(** When no fetch yields a document, no page has records. *)
Lemma pages_docs_fail W page_url pages n :
  every_fetch_fails W ->
  forall card_class record_of,
    flat_map (page_records card_class record_of) (pages_docs W page_url pages n) = [].
Proof.
  intros H cls rec. revert n. induction pages as [|p ps IH]; intros n; [done|].
  cbn [pages_docs]. change (range BaseScraper.max_retries) with (range 3).
  specialize (H (page_url p) n).
  destruct (fetched _ _ _ _) as [r n']. cbn [fst] in H.
  cbn [flat_map]. by rewrite H, IH.
Qed.

End SiteFacts.

(** ** The job type of a title *)

Section JobTypeFacts.

Import Reference.

Lemma append_assoc (a b c : string) :
  ((a ++ b) ++ c = a ++ (b ++ c))%string.
Proof.
  induction a as [|x a IH]; [reflexivity|].
  change (String x ((a ++ b) ++ c) = String x (a ++ (b ++ c)))%string.
  by rewrite IH.
Qed.

Lemma occurs_app_l (part more s : string) :
  occurs (part ++ more) s -> occurs part s.
Proof.
  intros (pre & suf & ->). exists pre, (more ++ suf)%string.
  by rewrite append_assoc.
Qed.

Lemma contains_app_l (part more s : string) :
  PyStr.contains (part ++ more) s = true -> PyStr.contains part s = true.
Proof. rewrite !contains_spec. apply occurs_app_l. Qed.

Lemma occurs_ci_false term title :
  PyStr.contains term (PyStr.lower title) = false <-> ~ occurs_ci term title.
Proof. rewrite <- contains_lower_spec. by destruct (PyStr.contains _ _). Qed.

(** Whoever contains the literal [part] contains its lower-case form up to
    case. *)
Lemma occurs_occurs_ci part title :
  occurs part title -> occurs_ci (PyStr.lower part) title.
Proof. intros (pre & suf & ->). by exists pre, part, suf. Qed.

(** The chain of tests of [job_type_of], with the test for the two contract
    terms written as one disjunction. *)
Lemma job_type_of_unfold title :
  LinkedInScraper.job_type_of title
  = let t := PyStr.lower title in
    if PyStr.contains "contract" t || PyStr.contains "contractor" t then "Contract"
    else if PyStr.contains "part-time" t then "Part-time"
    else if PyStr.contains "intern" t then "Internship"
    else if PyStr.contains "temporary" t then "Temporary"
    else "Full-time".
Proof.
  unfold LinkedInScraper.job_type_of. cbn [existsb]. by rewrite orb_false_r.
Qed.

Lemma job_type_of_rule title :
  job_type_rule title (LinkedInScraper.job_type_of title).
Proof.
  rewrite job_type_of_unfold. cbv zeta.
  destruct (PyStr.contains "contract" _) eqn:H1;
    [apply jt_contract; left; by apply contains_lower_spec|].
  destruct (PyStr.contains "contractor" _) eqn:H2;
    [apply jt_contract; right; by apply contains_lower_spec|].
  cbn [orb].
  destruct (PyStr.contains "part-time" _) eqn:H3;
    [apply jt_part_time; try (by apply occurs_ci_false);
     by apply contains_lower_spec|].
  destruct (PyStr.contains "intern" _) eqn:H4;
    [apply jt_internship; try (by apply occurs_ci_false);
     by apply contains_lower_spec|].
  destruct (PyStr.contains "temporary" _) eqn:H5;
    [apply jt_temporary; try (by apply occurs_ci_false);
     by apply contains_lower_spec|].
  apply jt_full_time; by apply occurs_ci_false.
Qed.

Lemma job_type_rule_functional title jt :
  job_type_rule title jt -> LinkedInScraper.job_type_of title = jt.
Proof.
  intros H. rewrite job_type_of_unfold. cbv zeta.
  inversion H as [[Hc|Hc]|Hn1 Hn2 Hp|Hn1 Hn2 Hn3 Hp|Hn1 Hn2 Hn3 Hn4 Hp
                  |Hn1 Hn2 Hn3 Hn4 Hn5]; subst jt;
    repeat match goal with
           | Hx : occurs_ci _ _ |- _ => apply contains_lower_spec in Hx; rewrite Hx
           | Hx : ~ occurs_ci _ _ |- _ => apply occurs_ci_false in Hx; rewrite Hx
           end;
    rewrite ?orb_true_r; reflexivity.
Qed.

(** The job type is one of the five literals. *)
Lemma job_type_of_cases title :
  In (LinkedInScraper.job_type_of title) job_types.
Proof.
  rewrite job_type_of_unfold. cbv zeta. unfold job_types.
  destruct (_ || _); [cbn; tauto|].
  destruct (PyStr.contains "part-time" _); [cbn; tauto|].
  destruct (PyStr.contains "intern" _); [cbn; tauto|].
  destruct (PyStr.contains "temporary" _); cbn; tauto.
Qed.

(** No output of the normalizer has a hyphen: the stored job types
    ['Full-time'] and ['Part-time'] are not normalized text. *)
Lemma normalize_not_hyphenated raw out :
  PyStr.all_chars PyStr.kept out = false -> helpers.normalize raw <> out.
Proof. intros Hout <-. by rewrite normalize_kept in Hout. Qed.

End JobTypeFacts.

(** ** The model at work on the sample inputs *)

Example clean_text_sample :
  helpers.clean_text (PyStr_ "  Senior   Dev (m/f)  ") = "Senior Dev mf".
Proof. reflexivity. Qed.

Example job_type_of_sample :
  map LinkedInScraper.job_type_of
    ["Contract Engineer"; "Part-time Analyst"; "Summer Intern";
     "Temporary Clerk"; "Software Developer"; "CONTRACTOR (part-time)"]
  = ["Contract"; "Part-time"; "Internship"; "Temporary"; "Full-time"; "Contract"].
Proof. reflexivity. Qed.

(** One page of the sample server: the two good cards, in order; the card
    without title is dropped. *)
Example scrape_sample_page :
  fst (IndeedScraper.scrape_job_listings Fixtures.server_up Fixtures.search_url 1
         Fixtures.start)
  = inr [Reference.indeed_record Fixtures.indeed_card;
         Reference.indeed_record Fixtures.indeed_card].
Proof. vm_compute. reflexivity. Qed.

(** A server that is down: three attempts with the backoff of 5 and 10
    seconds, and the [ConnectionError] reaches the caller. *)
Example get_soup_server_down :
  BaseScraper._get_soup Fixtures.server_down "u" Fixtures.start
  = (inl (Exn ConnectionError "Connection refused"),
     State 3
       [Enter_get_soup "u";
        UpdateHeaders; Sleep (Uniform 2 5); Get "u" 10;
        LogError "Attempt 1/3 failed for URL u: Connection refused";
        Sleep (Seconds 5);
        UpdateHeaders; Sleep (Uniform 2 5); Get "u" 10;
        LogError "Attempt 2/3 failed for URL u: Connection refused";
        Sleep (Seconds 10);
        UpdateHeaders; Sleep (Uniform 2 5); Get "u" 10;
        LogError "Attempt 3/3 failed for URL u: Connection refused"]
       []).
Proof. reflexivity. Qed.

(** * The claims *)

Section Claims.

Import Reference.

(** C1. [scrape_job_listings] never raises, whatever the base URL, the
    number of pages and the network do: it always returns a list.  A page
    whose fetch fails (the fetch client raising after its retries included)
    is caught at the page and skipped, so when the fetch of every page fails
    the result is the empty list. *)
Theorem scrape_job_listings_never_raises
    (w : site) (W : env) (url : string) (max_pages : Z) (s : state) :
  (exists found s',
     scrape_job_listings w W url max_pages s = (inr found, s'))
  /\ (every_fetch_fails W ->
      fst (scrape_job_listings w W url max_pages s) = inr []).
Proof.
  rewrite scrape_job_listings_with.
  destruct (scrape_with_run W (per_page w) (card_class w) _ _
              (extract_job_data_extracts w) url max_pages s)
    as (n' & evs & Hrun & _).
  cbv zeta in Hrun. rewrite Hrun. split.
  - by eexists _, _.
  - intros Hfail. cbn [fst]. by rewrite pages_docs_fail.
Qed.

Lemma scrape_job_listings_never_raises_witness :
  every_fetch_fails Fixtures.server_down
  /\ fst (scrape_job_listings Indeed Fixtures.server_down Fixtures.search_url 3
            Fixtures.start) = inr [].
Proof.
  assert (H : every_fetch_fails Fixtures.server_down)
    by (intros url n; reflexivity).
  split; [exact H|].
  exact (proj2 (scrape_job_listings_never_raises Indeed Fixtures.server_down
                  Fixtures.search_url 3 Fixtures.start) H).
Defined.

(** C9. With [max_pages = N] the driver calls [_get_soup] once per page
    index, so [max 0 N] times and never more than [N] pages are fetched;
    the returned list is the concatenation, in page order, of the records of
    each page, and those of a page are the non-empty records of its cards in
    the order in which [find_all] found the cards. *)
Theorem scrape_job_listings_page_order
    (w : site) (W : env) (url : string) (max_pages : Z) (s : state) :
  let docs := pages_docs W (page_url (per_page w) url) (range max_pages)
                (requests s) in
  let found := flat_map (page_records (card_class w) (record_of w)) docs in
  exists n' evs,
    scrape_job_listings w W url max_pages s
    = (inr found, State n' (trace s ++ evs) found)
    /\ Z.of_nat (page_fetches evs) = Z.max 0 max_pages
    /\ length docs = Z.to_nat max_pages.
Proof.
  intros docs found. rewrite scrape_job_listings_with.
  destruct (scrape_with_run W (per_page w) (card_class w) _ _
              (extract_job_data_extracts w) url max_pages s)
    as (n' & evs & Hrun & Hev).
  exists n', evs. split; [exact Hrun|]. split; [lia|].
  subst docs. by rewrite pages_docs_length, range_length.
Qed.

(** C4. Every record of the list that [scrape_job_listings] returns is a
    complete one: it is not empty and has exactly the fields of its site
    (title, company, location, salary, source, and job_type for LinkedIn).
    The empty mappings of failed extractions never get into the list. *)
Theorem scraped_records_complete
    (w : site) (W : env) (url : string) (max_pages : Z) (s : state) :
  exists found s',
    scrape_job_listings w W url max_pages s = (inr found, s')
    /\ Forall (fun r => r <> ∅ /\ has_fields (fields w) r) found.
Proof.
  rewrite scrape_job_listings_with.
  destruct (scrape_with_run W (per_page w) (card_class w) _ _
              (extract_job_data_extracts w) url max_pages s)
    as (n' & evs & Hrun & _).
  cbv zeta in Hrun. rewrite Hrun. eexists _, _. split; [reflexivity|].
  apply List.Forall_forall. intros r Hr.
  apply in_flat_map in Hr as ([doc|] & _ & Hr); [|destruct Hr].
  cbn [page_records] in Hr. apply filter_In in Hr as [Hr Ht].
  apply in_map_iff in Hr as (card & <- & _).
  apply bool_decide_eq_true in Ht.
  split; [exact Ht | by apply record_of_fields].
Qed.

(** C3. [_extract_job_data] never raises, whatever the card: it returns a
    mapping and touches neither the network nor [jobs].  When a required
    node (title, company or location) is missing, the failed lookup is
    caught, one error is logged, and the result is the empty mapping, which
    is false for the caller's [if job_data], so the card is skipped. *)
Theorem extract_job_data_never_raises
    (w : site) (card : bs4.node) (s : state) :
  exists d evs,
    extract_job_data w card s
    = (inr d, State (requests s) (trace s ++ evs) (jobs s))
    /\ (title_node w card = None \/ company_node w card = None
        \/ location_node w card = None ->
        d = ∅ /\ truthy d = false /\ exists msg, evs = [LogError msg]).
Proof.
  destruct (extract_job_data_extracts w card s) as (evs & Hrun & _ & Hlog & _).
  exists (record_of w card), evs. split; [exact Hrun|].
  intros Hmiss. apply record_of_empty in Hmiss.
  split; [exact Hmiss|]. split; [by rewrite Hmiss | by apply Hlog].
Qed.

Lemma extract_job_data_never_raises_witness :
  title_node Indeed Fixtures.indeed_card_untitled = None
  /\ fst (extract_job_data Indeed Fixtures.indeed_card_untitled Fixtures.start)
     = inr ∅.
Proof.
  split; [reflexivity|].
  destruct (extract_job_data_never_raises Indeed Fixtures.indeed_card_untitled
              Fixtures.start) as (d & evs & Hrun & Hmiss).
  rewrite Hrun. cbn [fst].
  destruct Hmiss as (-> & _); [left; reflexivity | reflexivity].
Defined.

(** C8. A card with its title, company and location nodes and without a
    salary node gives a record that is not empty, in which [salary] is the
    default ['Not specified'] and every other field comes from the card:
    title, company and location are the cleaned texts of their nodes,
    [source] names the site, and for LinkedIn [job_type] is read off the
    title.  Nothing is logged. *)
Theorem extract_job_data_default_salary
    (w : site) (card : bs4.node) (s : state) (title company location : bs4.node) :
  title_node w card = Some title ->
  company_node w card = Some company ->
  location_node w card = Some location ->
  salary_node w card = None ->
  exists d,
    extract_job_data w card s = (inr d, s)
    /\ d <> ∅
    /\ d !! "salary" = Some "Not specified"
    /\ d !! "title" = Some (cleaned title)
    /\ d !! "company" = Some (cleaned company)
    /\ d !! "location" = Some (cleaned location)
    /\ d !! "source" = Some (source_name w)
    /\ d !! "job_type"
       = match w with
         | Indeed => None
         | LinkedIn =>
             Some (LinkedInScraper.job_type_of (PyStr.strip (bs4.text title)))
         end
    /\ has_fields (fields w) d.
Proof.
  intros Ht Hc Hl Hs.
  destruct (extract_job_data_extracts w card s) as (evs & Hrun & _ & _ & Hquiet).
  assert (Hne : record_of w card <> ∅).
  { intros He. apply record_of_empty in He. rewrite Ht, Hc, Hl in He.
    by destruct He as [?|[?|?]]. }
  rewrite (Hquiet Hne), app_nil_r, state_eta in Hrun.
  exists (record_of w card). split; [exact Hrun|]. split; [exact Hne|].
  pose proof (record_of_fields w card Hne) as Hf.
  destruct w; cbn [title_node company_node location_node salary_node] in *;
    cbn [record_of source_name] in *; unfold indeed_record, linkedin_record in *;
    rewrite Ht, Hc, Hl, Hs in *; repeat split; try reflexivity; exact Hf.
Qed.

Lemma extract_job_data_default_salary_witness :
  exists d,
    extract_job_data Indeed Fixtures.indeed_card Fixtures.start
    = (inr d, Fixtures.start)
    /\ d !! "salary" = Some "Not specified"
    /\ d !! "title" = Some "Senior Dev mf".
Proof.
  destruct (extract_job_data_default_salary Indeed Fixtures.indeed_card
              Fixtures.start
              (bs4.Tag "h2" ["jobTitle"]
                 [bs4.Tag "span" [] [bs4.NavigableString "  Senior Dev (m/f) "]])
              (bs4.Tag "span" ["companyName"] [bs4.NavigableString "ACME"])
              (bs4.Tag "div" ["companyLocation"] [bs4.NavigableString "Oslo"])
              eq_refl eq_refl eq_refl eq_refl)
    as (d & Hrun & _ & Hsal & Htitle & _).
  exists d. split; [exact Hrun|]. split; [exact Hsal | exact Htitle].
Defined.





(** C7. The job type of a title follows the precedence of the keywords,
    matched without regard to case: a contract term (['contract'],
    ['contractor']) gives ['Contract']; otherwise ['part-time'] gives
    ['Part-time']; otherwise the internship term ['intern'] gives
    ['Internship']; otherwise ['temporary'] gives ['Temporary']; otherwise the
    default ['Full-time'].  So a title containing "Contract Engineer" gives
    ['Contract'], "Part-time Analyst" gives ['Part-time'] (as does any title
    containing it and no contract term), and a title without keyword gives
    ['Full-time']. *)
Theorem job_type_precedence (title : string) :
  (forall jt, job_type_rule title jt <-> LinkedInScraper.job_type_of title = jt)
  /\ (occurs "Contract Engineer" title ->
      LinkedInScraper.job_type_of title = "Contract")
  /\ (occurs "Part-time Analyst" title -> ~ occurs_ci "contract" title ->
      LinkedInScraper.job_type_of title = "Part-time")
  /\ LinkedInScraper.job_type_of "Contract Engineer" = "Contract"
  /\ LinkedInScraper.job_type_of "Part-time Analyst" = "Part-time"
  /\ LinkedInScraper.job_type_of "Software Developer" = "Full-time".
Proof.
  split; [|split; [|split; [|repeat split; reflexivity]]].
  - intros jt. split; [apply job_type_rule_functional|].
    intros <-. apply job_type_of_rule.
  - intros Hocc. apply job_type_rule_functional, jt_contract. left.
    apply (occurs_app_l "Contract" " Engineer") in Hocc.
    exact (occurs_occurs_ci "Contract" title Hocc).
  - intros Hocc Hnc. apply job_type_rule_functional, jt_part_time; [exact Hnc| |].
    + intros Hor. apply Hnc. apply contains_lower_spec.
      apply contains_lower_spec in Hor.
      exact (contains_app_l "contract" "or" _ Hor).
    + apply (occurs_app_l "Part-time" " Analyst") in Hocc.
      exact (occurs_occurs_ci "Part-time" title Hocc).
Qed.

Lemma job_type_precedence_witness :
  occurs "Contract Engineer" "Senior Contract Engineer (remote)"
  /\ LinkedInScraper.job_type_of "Senior Contract Engineer (remote)" = "Contract".
Proof.
  assert (H : occurs "Contract Engineer" "Senior Contract Engineer (remote)")
    by (exists "Senior ", " (remote)"; reflexivity).
  split; [exact H|].
  exact (proj1 (proj2 (job_type_precedence "Senior Contract Engineer (remote)")) H).
Defined.

(** C5 (the code falls short of it). [clean_text] collapses the runs of
    whitespace before it removes the special characters, so removing a
    character that stood between two spaces leaves these two spaces side by
    side: ["a ! b"] becomes ["a  b"]. *)
Theorem clean_text_adjacent_spaces :
  helpers.clean_text (PyStr_ "a ! b") = "a  b"
  /\ PyStr.adjacent_spaces (helpers.clean_text (PyStr_ "a ! b")) = true.
Proof. split; reflexivity. Qed.

(** What does hold of [clean_text] on every string: only word characters,
    whitespace and [. , $] are left, and no whitespace at either end. *)
Lemma clean_text_kept_and_trimmed (text : string) :
  PyStr.all_chars PyStr.kept (helpers.clean_text (PyStr_ text)) = true
  /\ PyStr.starts_with_space (helpers.clean_text (PyStr_ text)) = false
  /\ PyStr.ends_with_space (helpers.clean_text (PyStr_ text)) = false.
Proof.
  cbn [helpers.clean_text isinstance_str negb str].
  split; [apply normalize_kept | apply normalize_trimmed].
Qed.

(** C6, as the code has it. For an input that is not a [str], [clean_text]
    returns its string form as it is: nothing is collapsed, filtered or
    stripped. *)
Theorem clean_text_non_string (v : pyval) :
  isinstance_str v = false -> helpers.clean_text v = str v.
Proof. intros H. unfold helpers.clean_text. by rewrite H. Qed.

Lemma clean_text_non_string_witness :
  isinstance_str (PyInt (-5)) = false /\ helpers.clean_text (PyInt (-5)) = "-5".
Proof.
  split; [reflexivity|].
  exact (clean_text_non_string (PyInt (-5)) eq_refl).
Defined.

(** C6 as stated fails: the integer [-5] comes back as ["-5"], whereas the
    filtering of its string form removes the minus sign. *)
Lemma clean_text_non_string_not_filtered :
  isinstance_str (PyInt (-5)) = false
  /\ filtered_str (PyInt (-5)) = "5"
  /\ helpers.normalize (str (PyInt (-5))) = "5"
  /\ helpers.clean_text (PyInt (-5)) <> filtered_str (PyInt (-5)).
Proof. repeat split; try reflexivity. discriminate. Qed.

(** C2 (the code falls short of it). A status that is neither 200 nor a
    4xx or 5xx one is no failure for [_get_soup]: [raise_for_status] lets it
    pass and nothing is returned.  Against a server that answers 304 each
    time, [_get_soup] makes its three requests without any backoff sleep,
    logs nothing, and ends by returning [None] instead of raising. *)
Theorem get_soup_status_304 :
  BaseScraper._get_soup Fixtures.server_304 Fixtures.search_url Fixtures.start
  = (inr None,
     State 3
       [Enter_get_soup Fixtures.search_url;
        UpdateHeaders; Sleep (Uniform 2 5); Get Fixtures.search_url 10;
        UpdateHeaders; Sleep (Uniform 2 5); Get Fixtures.search_url 10;
        UpdateHeaders; Sleep (Uniform 2 5); Get Fixtures.search_url 10]
       []).
Proof. reflexivity. Qed.

End Claims.

(** * Further properties *)

(** ** The traces of the fetch client and of the drivers *)

Section TraceFacts.

Import Reference Trace.

(** The loop of [_get_soup] adds exactly the events [fetch_events]. *)
Lemma get_soup_loop_events W url attempts d s :
  BaseScraper._get_soup_loop W url attempts d s
  = (fst (fetched W url attempts (requests s)),
     State (snd (fetched W url attempts (requests s)))
       (trace s ++ fetch_events W url attempts d (requests s)) (jobs s)).
Proof.
  revert d s. induction attempts as [|attempt rest IH]; intros d s.
  - simpl. rewrite app_nil_r. by destruct s.
  - cbn [BaseScraper._get_soup_loop fetched fetch_events].
    unfold failure_of, attempt_failed. run.
    change (BaseScraper.max_retries - 1) with 2.
    destruct (server W url (requests s)) as [r|[cls msg]].
    + destruct ((400 <=? status_code r) && (status_code r <? 600)); run.
      * destruct (attempt <? 2); run; rewrite ?IH; cbn [requests trace jobs];
          by rewrite <- ?app_assoc.
      * destruct (status_code r =? 200); run; rewrite ?IH;
          cbn [requests trace jobs]; by rewrite <- ?app_assoc.
    + destruct cls; run; try (destruct (attempt <? 2); run); rewrite ?IH;
        cbn [requests trace jobs]; by rewrite <- ?app_assoc.
Qed.

Lemma get_soup_events W url s :
  BaseScraper._get_soup W url s
  = (fst (fetched W url (range 3) (requests s)),
     State (snd (fetched W url (range 3) (requests s)))
       (trace s ++ Enter_get_soup url
                   :: fetch_events W url (range 3) 5 (requests s))
       (jobs s)).
Proof.
  unfold BaseScraper._get_soup. run. rewrite get_soup_loop_events.
  cbn [requests trace jobs]. by rewrite <- app_assoc.
Qed.

Section DriverTrace.

Variable W : env.
Variable per_page : Z.
Variable card_class : string.
Variable extract : bs4.node -> M JobRecord.
Variable record_of : bs4.node -> JobRecord.
Hypothesis extract_ok : extracts extract record_of.

Lemma cards_loop_local cards s :
  exists evs,
    for_each cards (fun job_element =>
      job_data <- extract job_element ;;
      if truthy job_data then jobs_append job_data else ret tt) s
    = (inr tt,
       State (requests s) (trace s ++ evs)
         (jobs s ++ List.filter truthy (map record_of cards)))
    /\ Forall (fun e => is_local e = true) evs.
Proof.
  revert s. induction cards as [|card cards IH]; intros s.
  - exists []. cbn. by rewrite !app_nil_r, state_eta.
  - cbn [for_each map List.filter]. unfold bind at 1 2.
    destruct (extract_ok card s) as (evs & -> & _ & Hlog & Hquiet).
    assert (Hloc : Forall (fun e => is_local e = true) evs).
    { destruct (decide (record_of card = ∅)) as [He|He].
      - destruct (Hlog He) as [msg ->]. by repeat constructor.
      - rewrite (Hquiet He). constructor. }
    destruct (truthy (record_of card)); run;
      edestruct IH as (evs' & -> & Hev'); cbn [requests trace jobs];
      (eexists; split; [rewrite <- ?app_assoc; reflexivity |]);
      by apply Forall_app.
Qed.

Lemma scrape_page_trace url max_pages page s :
  exists tail,
    scrape_page W per_page card_class extract url max_pages page s
    = (inr tt,
       State (snd (fetched W (page_url per_page url page) (range 3) (requests s)))
         (trace s ++ Enter_get_soup (page_url per_page url page)
                     :: fetch_events W (page_url per_page url page) (range 3) 5
                          (requests s) ++ tail)
         (jobs s ++ page_records card_class record_of
                      (doc_of (fst (fetched W (page_url per_page url page)
                                      (range 3) (requests s))))))
    /\ Forall (fun e => is_local e = true) tail.
Proof.
  unfold scrape_page, page_url. cbv zeta. unfold try_except, bind at 1.
  rewrite get_soup_events.
  destruct (fetched _ _ _ _) as [[e|[doc|]] n']; run;
    cbn [doc_of page_records]; rewrite ?app_nil_r.
  - eexists. split; [rewrite <- ?app_assoc; reflexivity|]. by repeat constructor.
  - edestruct cards_loop_local as (evs' & -> & Hev'). cbn [requests trace jobs].
    eexists. split.
    + rewrite <- ?app_assoc. cbn [app]. rewrite <- ?app_assoc. reflexivity.
    + apply Forall_app. split; [exact Hev' | by repeat constructor].
  - eexists. split; [rewrite <- ?app_assoc; reflexivity|]. by repeat constructor.
Qed.

Lemma pages_loop_trace url max_pages pages s :
  exists n' evs,
    for_each pages (scrape_page W per_page card_class extract url max_pages) s
    = (inr tt,
       State n' (trace s ++ evs)
         (jobs s ++ flat_map (page_records card_class record_of)
                      (pages_docs W (page_url per_page url) pages (requests s))))
    /\ driver_trace W (page_url per_page url) pages (requests s) evs n'.
Proof.
  revert s. induction pages as [|page pages IH]; intros s.
  - exists (requests s), []. cbn. rewrite !app_nil_r, state_eta.
    split; [done | constructor].
  - cbn [for_each pages_docs]. unfold bind at 1.
    destruct (scrape_page_trace url max_pages page s) as (tail & -> & Htail).
    change (range BaseScraper.max_retries) with (range 3).
    destruct (fetched W (page_url per_page url page) (range 3) (requests s))
      as [r n1] eqn:Hf. cbn [fst snd flat_map].
    edestruct IH as (n' & evs' & -> & Hev'). cbn [requests trace jobs] in *.
    exists n'. eexists. split.
    + rewrite <- !app_assoc. cbn [app]. rewrite <- !app_assoc. reflexivity.
    + apply driver_page; [exact Htail|]. by rewrite Hf.
Qed.

Lemma scrape_with_trace url max_pages s :
  exists n' evs found,
    scrape_with W per_page card_class extract url max_pages s
    = (inr found, State n' (trace s ++ evs) found)
    /\ driver_trace W (page_url per_page url) (range max_pages) (requests s)
         evs n'.
Proof.
  unfold scrape_with. unfold bind at 1 2. unfold jobs_init at 1.
  edestruct pages_loop_trace as (n' & evs & -> & Hev).
  cbn [requests trace jobs app] in *.
  exists n', evs. eexists. split; [reflexivity | exact Hev].
Qed.

End DriverTrace.

(** *** What a trace of [fetch_events] and of the driver looks like *)

Lemma polite_from_cold st evs :
  polite_from Cold evs = true -> polite_from st evs = true.
Proof.
  revert st. induction evs as [|e evs IH]; intros st; [done|].
  destruct e as [| d | | | |]; cbn [polite_from]; try done.
  destruct st; try done. destruct (is_jitter d); [apply IH | done].
Qed.

Lemma polite_from_app st a b :
  polite_from st a = true -> polite_from Cold b = true ->
  polite_from st (a ++ b) = true.
Proof.
  revert st. induction a as [|e a IH]; intros st Ha Hb.
  - by apply polite_from_cold.
  - destruct e; cbn [app polite_from] in *; try (by apply IH).
    destruct st; try done. by apply IH.
Qed.

Lemma polite_local tail :
  Forall (fun e => is_local e = true) tail -> polite_from Cold tail = true.
Proof.
  induction 1 as [|e tail He _ IH]; [done|].
  destruct e as [| d | | | |]; try done; cbn [polite_from]; exact IH.
Qed.

Lemma requested_app a b :
  requested (a ++ b) = (requested a ++ requested b)%list.
Proof.
  induction a as [|e a IH]; [done|]. destruct e; cbn [app requested]; by rewrite IH.
Qed.

Lemma backoffs_app a b :
  backoffs (a ++ b) = (backoffs a ++ backoffs b)%list.
Proof.
  induction a as [|e a IH]; [done|].
  destruct e as [| [d|lo hi] | | | |]; cbn [app backoffs]; by rewrite IH.
Qed.

Lemma requested_local tail :
  Forall (fun e => is_local e = true) tail -> requested tail = [].
Proof.
  induction 1 as [|e tail He _ IH]; [done|]. destruct e; try done; exact IH.
Qed.

Lemma backoffs_local tail :
  Forall (fun e => is_local e = true) tail -> backoffs tail = [].
Proof.
  induction 1 as [|e tail He _ IH]; [done|].
  destruct e as [| [d|lo hi] | | | |]; try done; exact IH.
Qed.

Lemma fetch_events_polite W url attempts d n :
  polite_from Cold (fetch_events W url attempts d n) = true.
Proof.
  revert d n. induction attempts as [|a rest IH]; intros d n; [done|].
  cbn [fetch_events app polite_from is_jitter Z.eqb Pos.eqb andb].
  destruct (failure_of _) as [e|].
  - destruct (is_RequestException e); [|done]. unfold attempt_failed.
    cbn [polite_from]. destruct (a <? 2); [|done]. cbn [polite_from]. apply IH.
  - destruct (server W url n) as [r|e]; [|done].
    destruct (status_code r =? 200); [done | apply IH].
Qed.

(** One request per unit of the counter, each to [url] with the timeout of
    10 seconds. *)
Lemma fetch_events_requested W url attempts d n :
  requested (fetch_events W url attempts d n)
  = replicate (snd (fetched W url attempts n) - n) (url, 10).
Proof.
  revert d n. induction attempts as [|a rest IH]; intros d n.
  - cbn. by rewrite Nat.sub_diag.
  - pose proof (fetched_requests W url rest (S n)) as Hb.
    cbn [fetch_events fetched app requested].
    destruct (failure_of _) as [e|].
    + destruct (is_RequestException e); cbn [andb]; unfold attempt_failed.
      * cbn [requested]. destruct (a <? 2); cbn [requested snd].
        -- rewrite IH. by replace (snd (fetched W url rest (S n)) - n)%nat
             with (S (snd (fetched W url rest (S n)) - S n)) by lia.
        -- by replace (S n - n)%nat with 1%nat by lia.
      * cbn [requested snd]. by replace (S n - n)%nat with 1%nat by lia.
    + destruct (server W url n) as [r|e].
      * destruct (status_code r =? 200); cbn [requested snd].
        -- by replace (S n - n)%nat with 1%nat by lia.
        -- rewrite IH. by replace (snd (fetched W url rest (S n)) - n)%nat
             with (S (snd (fetched W url rest (S n)) - S n)) by lia.
      * cbn [requested snd]. by replace (S n - n)%nat with 1%nat by lia.
Qed.

(** The backoff of one call: nothing, 5 seconds, or 5 and then 10. *)
Lemma fetch_events_backoffs W url n :
  In (backoffs (fetch_events W url (range 3) 5 n)) [[]; [5]; [5; 10]].
Proof.
  change (range 3) with [0; 1; 2]. cbn [fetch_events app backoffs].
  repeat match goal with
         | |- context [failure_of ?o] => destruct (failure_of o) as [?e|]
         | |- context [is_RequestException ?e] => destruct (is_RequestException e)
         | |- context [match server W ?u ?k with _ => _ end] =>
             destruct (server W u k) as [?r|?e]
         | |- context [status_code ?r =? 200] => destruct (status_code r =? 200)
         | _ => progress (unfold attempt_failed;
                          cbn [backoffs app Z.ltb Z.compare Pos.compare
                               Pos.compare_cont Z.mul Pos.mul fetch_events])
         end; cbn; tauto.
Qed.

Lemma driver_trace_polite W url_of pages n evs n' :
  driver_trace W url_of pages n evs n' -> polite evs = true.
Proof.
  unfold polite. induction 1 as [|page pages n tail evs n' Htail _ IH]; [done|].
  cbn [polite_from]. apply polite_from_app; [apply fetch_events_polite|].
  apply polite_from_app; [by apply polite_local | exact IH].
Qed.

Lemma driver_trace_requested W url_of pages n evs n' :
  driver_trace W url_of pages n evs n' ->
  n' = (n + length (requested evs))%nat
  /\ (length (requested evs) <= 3 * length pages)%nat
  /\ Forall (fun ut => snd ut = 10 /\ exists page, In page pages /\ fst ut = url_of page)
       (requested evs).
Proof.
  induction 1 as [n|page pages n tail evs n' Htail _ (IHn & IHlen & IHall)].
  - cbn. split; [lia|]. split; [lia | constructor].
  - cbn [requested]. rewrite !requested_app, (requested_local tail Htail).
    rewrite fetch_events_requested. cbn [app].
    pose proof (fetched_requests W (url_of page) (range 3) n) as Hb.
    change (length (range 3)) with 3%nat in Hb.
    rewrite length_app, length_replicate. cbn [length].
    split; [lia|]. split; [lia|].
    apply Forall_app. split.
    + apply Forall_forall. intros ut ->%elem_of_replicate_inv.
      split; [done|]. exists page. split; [by left | done].
    + eapply Forall_impl; [exact IHall|].
      intros ut (Ht & p & Hp & Hu). split; [done|]. exists p. split; [by right | done].
Qed.

Lemma driver_trace_backoffs W url_of pages n evs n' :
  driver_trace W url_of pages n evs n' ->
  Forall (fun d => d = 5 \/ d = 10) (backoffs evs).
Proof.
  induction 1 as [n|page pages n tail evs n' Htail _ IH]; [constructor|].
  cbn [backoffs]. rewrite !backoffs_app, (backoffs_local tail Htail). cbn [app].
  apply Forall_app. split; [|exact IH].
  destruct (fetch_events_backoffs W (url_of page) n) as [<-|[<-|[<-|[]]]];
    repeat (constructor; [lia|]); constructor.
Qed.

Lemma in_range page n : In page (range n) <-> 0 <= page < n.
Proof.
  unfold range. rewrite in_map_iff. split.
  - intros (k & <- & Hk%in_seq). lia.
  - intros H. exists (Z.to_nat page). split; [lia|]. apply in_seq. lia.
Qed.

End TraceFacts.

Section TraceProperties.

Import Reference Trace.

(** X1. Politeness of a whole scrape: whatever the site, the network, the
    URL and the number of pages, each request of the run comes right after
    a refresh of the headers and a sleep of 2 to 5 seconds. *)
Theorem scrape_job_listings_polite
    (w : site) (W : env) (url : string) (max_pages : Z) (s : state) :
  exists evs,
    trace (snd (scrape_job_listings w W url max_pages s)) = (trace s ++ evs)%list
    /\ polite evs = true.
Proof.
  rewrite scrape_job_listings_with.
  destruct (scrape_with_trace W (per_page w) (card_class w) _ _
              (extract_job_data_extracts w) url max_pages s)
    as (n' & evs & found & -> & Hev).
  exists evs. split; [reflexivity|]. by eapply driver_trace_polite.
Qed.

(** X2. The requests of a whole scrape: at most three per page, so at most
    [3 * max 0 N] in all; each has the timeout of 10 seconds and goes to the
    URL of one of the pages [0 .. N-1], that is [url&start=<page * offset>];
    the request counter advances by their number. *)
Theorem scrape_job_listings_requests
    (w : site) (W : env) (url : string) (max_pages : Z) (s : state) :
  exists evs,
    trace (snd (scrape_job_listings w W url max_pages s)) = (trace s ++ evs)%list
    /\ requests (snd (scrape_job_listings w W url max_pages s))
       = (requests s + length (requested evs))%nat
    /\ Z.of_nat (length (requested evs)) <= 3 * Z.max 0 max_pages
    /\ Forall (fun ut =>
                 snd ut = 10
                 /\ exists page, 0 <= page < max_pages
                                 /\ fst ut = page_url (per_page w) url page)
         (requested evs).
Proof.
  rewrite scrape_job_listings_with.
  destruct (scrape_with_trace W (per_page w) (card_class w) _ _
              (extract_job_data_extracts w) url max_pages s)
    as (n' & evs & found & -> & Hev).
  apply driver_trace_requested in Hev as (Hn & Hlen & Hall).
  rewrite range_length in Hlen.
  exists evs. cbn [snd trace requests]. split; [reflexivity|].
  split; [exact Hn|]. split; [lia|].
  eapply Forall_impl; [exact Hall|].
  intros ut (Ht & p & Hp%in_range & Hu). split; [done|]. by exists p.
Qed.

(** X3. The backoff of [_get_soup]: the fixed sleeps of one call are none,
    or 5 seconds, or 5 and then 10 seconds; there is never a sleep after the
    last attempt, and never more than 15 seconds of backoff in all. *)
Theorem get_soup_backoff (W : env) (url : string) (s : state) :
  exists evs,
    trace (snd (BaseScraper._get_soup W url s)) = (trace s ++ evs)%list
    /\ In (backoffs evs) [[]; [5]; [5; 10]].
Proof.
  rewrite get_soup_events. cbn [snd trace]. eexists. split; [reflexivity|].
  cbn [backoffs]. apply fetch_events_backoffs.
Qed.

Lemma fetched_document W url attempts n doc :
  fst (fetched W url attempts n) = inr (Some doc) ->
  exists k r,
    (n <= k < n + length attempts)%nat
    /\ server W url k = Responds r
    /\ status_code r = 200
    /\ doc = html_parser W (body r).
Proof.
  revert n. induction attempts as [|a rest IH]; intros n; [done|].
  cbn [fetched length].
  assert (Hrest : fst (fetched W url rest (S n)) = inr (Some doc) ->
            exists k r, (n <= k < n + S (length rest))%nat
                        /\ server W url k = Responds r /\ status_code r = 200
                        /\ doc = html_parser W (body r)).
  { intros (k & r & Hk & H)%IH. exists k, r. split; [lia | done]. }
  destruct (failure_of (server W url n)) as [e|] eqn:Hf.
  - destruct (is_RequestException e && (a <? 2)); [exact Hrest | done].
  - destruct (server W url n) as [r|e] eqn:Hsrv; [|done].
    destruct (status_code r =? 200) eqn:Hst; [|exact Hrest].
    cbn [fst]. intros [= <-]. exists n, r. split; [lia|].
    split; [done|]. split; [lia | done].
Qed.

(** X23. [_get_soup] returns a document only for an answer with status
    200: whenever it returns one, one of the at most three requests of the
    call was answered with status 200, and the document is the parse of the
    body of that answer. *)
Theorem get_soup_document_is_200
    (W : env) (url : string) (s : state) (doc : bs4.node) :
  fst (BaseScraper._get_soup W url s) = inr (Some doc) ->
  exists k r,
    (requests s <= k < requests s + 3)%nat
    /\ server W url k = Responds r
    /\ status_code r = 200
    /\ doc = html_parser W (body r).
Proof.
  rewrite get_soup_events. cbn [fst]. apply fetched_document.
Qed.

Lemma get_soup_document_is_200_witness :
  exists k r,
    (k < 3)%nat
    /\ server Samples.server_flaky "u" k = Responds r
    /\ status_code r = 200.
Proof.
  destruct (get_soup_document_is_200 Samples.server_flaky "u" Fixtures.start
              Fixtures.indeed_page eq_refl) as (k & r & Hk & Hsrv & Hst & _).
  exists k, r. split; [exact (proj2 Hk) | by split].
Defined.



(** X5. Recovery at the second attempt: when the first attempt fails with a
    [RequestException] and the second is answered with status 200,
    [_get_soup] returns the parsed document after two requests, one logged
    failure and one backoff of 5 seconds. *)
Theorem get_soup_second_attempt
    (W : env) (url : string) (s : state) (e : exn) (r : response) :
  failure_of (server W url (requests s)) = Some e ->
  is_RequestException e = true ->
  server W url (S (requests s)) = Responds r ->
  status_code r = 200 ->
  BaseScraper._get_soup W url s
  = (inr (Some (html_parser W (body r))),
     State (S (S (requests s)))
       (trace s ++ [Enter_get_soup url;
                    UpdateHeaders; Sleep (Uniform 2 5); Get url 10;
                    attempt_failed 1 url e; Sleep (Seconds 5);
                    UpdateHeaders; Sleep (Uniform 2 5); Get url 10])
       (jobs s)).
Proof.
  intros Hf He Hsrv Hst. rewrite get_soup_events.
  change (range 3) with [0; 1; 2]. cbn [fetched fetch_events].
  rewrite Hf, He, Hsrv. cbn [andb Z.ltb Z.compare failure_of].
  rewrite Hst. reflexivity.
Qed.

Lemma get_soup_second_attempt_witness :
  fst (BaseScraper._get_soup Samples.server_flaky "u" Fixtures.start)
  = inr (Some Fixtures.indeed_page).
Proof.
  rewrite (get_soup_second_attempt Samples.server_flaky "u" Fixtures.start
             (Exn Timeout "Read timed out") (Response 200 "<html>...</html>")
             eq_refl eq_refl eq_refl eq_refl).
  reflexivity.
Defined.

(** X6. No page asked for: with [max_pages <= 0] the driver returns the
    empty list without a single request and without any event. *)
Theorem scrape_job_listings_no_pages
    (w : site) (W : env) (url : string) (max_pages : Z) (s : state) :
  max_pages <= 0 ->
  scrape_job_listings w W url max_pages s
  = (inr [], State (requests s) (trace s) []).
Proof.
  intros Hn. rewrite scrape_job_listings_with. unfold scrape_with, range.
  replace (Z.to_nat max_pages) with 0%nat by lia. reflexivity.
Qed.

Lemma scrape_job_listings_no_pages_witness :
  scrape_job_listings LinkedIn Fixtures.server_up Fixtures.search_url (-2)
    Fixtures.start
  = (inr [], Fixtures.start).
Proof.
  exact (scrape_job_listings_no_pages LinkedIn Fixtures.server_up
           Fixtures.search_url (-2) Fixtures.start ltac:(lia)).
Defined.

End TraceProperties.

(** ** The normalizer *)

Section NormalizerFacts.

Import PyStr Text.

Lemma sub_special_id s : all_chars kept s = true -> sub_special s = s.
Proof.
  induction s as [|c r IH]; [done|]. cbn [all_chars sub_special].
  intros [Hc Hr]%andb_true_iff. by rewrite Hc, IH.
Qed.

Lemma lstrip_id s : starts_with_space s = false -> lstrip s = s.
Proof. destruct s as [|c r]; [done|]. cbn. by intros ->. Qed.

Lemma rstrip_id s : ends_with_space s = false -> rstrip s = s.
Proof.
  induction s as [|c r IH]; [done|]. cbn [rstrip].
  destruct r as [|d r'].
  - cbn. by intros ->.
  - intros H. change (ends_with_space (String d r') = false) in H.
    by rewrite (IH H).
Qed.

Lemma sub_spaces_id b s :
  (b = true -> starts_with_space s = false) ->
  all_chars plain_space s = true -> adjacent_spaces s = false ->
  sub_spaces b s = s.
Proof.
  revert b. induction s as [|c r IH]; intros b Hb Hp Ha; [done|].
  cbn [all_chars] in Hp. apply andb_true_iff in Hp as [Hc Hr].
  assert (Har : adjacent_spaces r = false /\
                (isspace c = true -> starts_with_space r = false)).
  { destruct r as [|d r']; [done|].
    change (isspace c && isspace d || adjacent_spaces (String d r') = false) in Ha.
    apply orb_false_iff in Ha as [Hcd Ha]. split; [exact Ha|].
    intros Hsp. rewrite Hsp in Hcd. exact Hcd. }
  destruct Har as [Har Hnext]. cbn [sub_spaces].
  destruct (isspace c) eqn:Hsp.
  - destruct b; [by specialize (Hb eq_refl); cbn in Hb; rewrite Hsp in Hb|].
    unfold plain_space in Hc. rewrite Hsp in Hc. cbn in Hc.
    apply Ascii.eqb_eq in Hc as ->. by rewrite IH by auto.
  - by rewrite IH.
Qed.

Lemma sub_spaces_chars p b s :
  p " "%char = true -> all_chars p s = true -> all_chars p (sub_spaces b s) = true.
Proof.
  intros Hp. revert b. induction s as [|c r IH]; intros b; [done|].
  cbn [all_chars sub_spaces]. intros [Hc Hr]%andb_true_iff.
  destruct (isspace c); [destruct b|]; cbn [all_chars];
    rewrite ?Hp, ?Hc, ?IH; done.
Qed.

Lemma sub_spaces_plain b s : all_chars plain_space (sub_spaces b s) = true.
Proof.
  revert b. induction s as [|c r IH]; intros b; [done|]. cbn [sub_spaces].
  destruct (isspace c) eqn:Hsp; [destruct b|]; cbn [all_chars];
    rewrite ?IH; try done.
  unfold plain_space. by rewrite Hsp.
Qed.

Lemma sub_spaces_run s : starts_with_space (sub_spaces true s) = false.
Proof.
  induction s as [|c r IH]; [done|]. cbn [sub_spaces].
  destruct (isspace c) eqn:Hsp; [exact IH | cbn; exact Hsp].
Qed.

Lemma sub_spaces_not_adjacent b s : adjacent_spaces (sub_spaces b s) = false.
Proof.
  revert b. induction s as [|c r IH]; intros b; [done|]. cbn [sub_spaces].
  destruct (isspace c) eqn:Hsp; [destruct b; [apply IH|]|].
  - pose proof (sub_spaces_run r) as Hrun. specialize (IH true).
    destruct (sub_spaces true r) as [|d u]; [done|].
    change (isspace " " && isspace d || adjacent_spaces (String d u) = false).
    cbn in Hrun. by rewrite Hrun, IH, andb_false_r.
  - specialize (IH false).
    destruct (sub_spaces false r) as [|d u]; [done|].
    change (isspace c && isspace d || adjacent_spaces (String d u) = false).
    by rewrite Hsp, IH.
Qed.

Lemma sub_spaces_start s :
  starts_with_space s = false -> starts_with_space (sub_spaces false s) = false.
Proof. destruct s as [|c r]; [done|]. cbn. intros Hc. by rewrite Hc; cbn. Qed.

Lemma sub_spaces_end b s :
  ends_with_space s = false ->
  ends_with_space (sub_spaces b s) = false
  /\ (s <> EmptyString -> sub_spaces b s <> EmptyString).
Proof.
  revert b. induction s as [|c r IH]; intros b He; [done|].
  destruct r as [|d r'].
  - cbn in He. cbn. rewrite He. cbn. by rewrite He.
  - change (ends_with_space (String d r') = false) in He.
    assert (Hne : String d r' <> EmptyString) by done.
    remember (String d r') as t eqn:Ht. clear Ht.
    cbn [sub_spaces]. destruct (isspace c); [destruct b|].
    + destruct (IH true He) as [H1 H2]. split; [exact H1 | intros _; by apply H2].
    + destruct (IH true He) as [H1 H2]. specialize (H2 Hne).
      destruct (sub_spaces true t) as [|x u]; [done|].
      split; [exact H1 | done].
    + destruct (IH false He) as [H1 H2]. specialize (H2 Hne).
      destruct (sub_spaces false t) as [|x u]; [done|].
      split; [exact H1 | done].
Qed.

Lemma normalize_plain s : all_chars plain_space (helpers.normalize s) = true.
Proof.
  unfold helpers.normalize, strip.
  apply all_chars_rstrip, all_chars_lstrip.
  pose proof (sub_spaces_plain false s) as H.
  induction (sub_spaces false s) as [|c r IH]; [done|].
  cbn [all_chars sub_special] in *. apply andb_true_iff in H as [Hc Hr].
  destruct (kept c); cbn [all_chars]; rewrite ?Hc; by apply IH.
Qed.

(** A tidy string is left as it is. *)
Lemma normalize_tidy s : tidy s = true -> helpers.normalize s = s.
Proof.
  unfold tidy. rewrite !andb_true_iff, !negb_true_iff.
  intros ((((Hk & Hp) & Ha) & Hs) & He).
  unfold helpers.normalize, strip.
  rewrite sub_spaces_id by done. rewrite sub_special_id by done.
  rewrite lstrip_id by done. by apply rstrip_id.
Qed.

(** Normalizing text that is kept, plain and trimmed only collapses its
    runs of spaces, and the result is tidy. *)
Lemma normalize_settles s :
  all_chars kept s = true -> all_chars plain_space s = true ->
  starts_with_space s = false -> ends_with_space s = false ->
  helpers.normalize s = sub_spaces false s /\ tidy (sub_spaces false s) = true.
Proof.
  intros Hk Hp Hs He.
  assert (Hk' : all_chars kept (sub_spaces false s) = true)
    by (by apply sub_spaces_chars).
  pose proof (sub_spaces_plain false s) as Hp'.
  pose proof (sub_spaces_not_adjacent false s) as Ha'.
  pose proof (sub_spaces_start s Hs) as Hs'.
  destruct (sub_spaces_end false s He) as [He' _].
  split.
  - unfold helpers.normalize, strip.
    rewrite sub_special_id by done. rewrite lstrip_id by done. by apply rstrip_id.
  - unfold tidy. by rewrite Hk', Hp', Ha', Hs', He'.
Qed.

Lemma sub_spaces_length b s : (String.length (sub_spaces b s) <= String.length s)%nat.
Proof.
  revert b. induction s as [|c r IH]; intros b; [done|]. cbn [sub_spaces].
  destruct (isspace c); [destruct b|]; cbn [String.length];
    [specialize (IH true) | specialize (IH true) | specialize (IH false)]; lia.
Qed.

Lemma sub_special_length s : (String.length (sub_special s) <= String.length s)%nat.
Proof.
  induction s as [|c r IH]; [done|]. cbn [sub_special].
  destruct (kept c); cbn [String.length]; lia.
Qed.

Lemma lstrip_length s : (String.length (lstrip s) <= String.length s)%nat.
Proof.
  induction s as [|c r IH]; [done|]. cbn [lstrip].
  destruct (isspace c); cbn [String.length]; lia.
Qed.

Lemma rstrip_length s : (String.length (rstrip s) <= String.length s)%nat.
Proof.
  induction s as [|c r IH]; [done|]. cbn [rstrip].
  destruct (rstrip r) as [|d u]; [destruct (isspace c)|];
    cbn [String.length] in *; lia.
Qed.

End NormalizerFacts.

Section NormalizerProperties.

Import PyStr Text.

(** X7. The strings that [clean_text] leaves unchanged are exactly the tidy
    ones: only word characters, spaces and [. , $], no whitespace other than
    single spaces, and none at either end. *)
Theorem clean_text_fixed_points (text : string) :
  helpers.clean_text (PyStr_ text) = text <-> tidy text = true.
Proof.
  cbn [helpers.clean_text isinstance_str negb str]. split.
  - intros Hfix.
    pose proof (normalize_kept text) as Hk.
    pose proof (normalize_plain text) as Hp.
    destruct (normalize_trimmed text) as [Hs He].
    rewrite Hfix in Hk, Hp, Hs, He.
    destruct (normalize_settles text Hk Hp Hs He) as [Hn Ht].
    rewrite Hfix in Hn. by rewrite <- Hn in Ht.
  - apply normalize_tidy.
Qed.

(** X8. Cleaning twice settles: the second application of [clean_text]
    gives tidy text, free of consecutive whitespace, and a third application
    changes nothing any more. *)
Theorem clean_text_twice_settles (text : string) :
  let once := helpers.clean_text (PyStr_ text) in
  let twice := helpers.clean_text (PyStr_ once) in
  tidy twice = true
  /\ adjacent_spaces twice = false
  /\ helpers.clean_text (PyStr_ twice) = twice.
Proof.
  cbn [helpers.clean_text isinstance_str negb str]. cbv zeta.
  destruct (normalize_trimmed text) as [Hs He].
  destruct (normalize_settles _ (normalize_kept text) (normalize_plain text) Hs He)
    as [-> Ht].
  split; [exact Ht|]. split; [apply sub_spaces_not_adjacent|].
  by apply normalize_tidy.
Qed.

(** X9. [clean_text] never makes a string longer, and the only whitespace
    it leaves is the space character: tabs, newlines and the other
    whitespace characters are gone. *)
Theorem clean_text_plain_and_shorter (text : string) :
  all_chars plain_space (helpers.clean_text (PyStr_ text)) = true
  /\ (String.length (helpers.clean_text (PyStr_ text)) <= String.length text)%nat.
Proof.
  cbn [helpers.clean_text isinstance_str negb str].
  split; [apply normalize_plain|].
  unfold helpers.normalize, strip.
  pose proof (rstrip_length (lstrip (sub_special (sub_spaces false text)))).
  pose proof (lstrip_length (sub_special (sub_spaces false text))).
  pose proof (sub_special_length (sub_spaces false text)).
  pose proof (sub_spaces_length false text). lia.
Qed.

End NormalizerProperties.

(** ** The records of a scrape *)

Section RecordProperties.

Import Reference PyStr.

(** The fields of the record of a card: the source literal, the job type of
    LinkedIn, and normalized text for the rest. *)
Lemma record_of_field w card k v :
  record_of w card !! k = Some v ->
  (k = "source" /\ v = source_name w)
  \/ (k = "job_type" /\ w = LinkedIn /\ In v job_types)
  \/ (In k ["title"; "company"; "location"; "salary"]
      /\ exists raw, v = helpers.normalize raw).
Proof.
  destruct w; cbn [record_of source_name]; unfold indeed_record, linkedin_record.
  - destruct (bs4.find card "h2" "jobTitle");
      [destruct (bs4.find card "span" "companyName");
       [destruct (bs4.find card "div" "companyLocation")|]|];
      cbn [list_to_map foldr uncurry fst snd]; intros Hk;
      try (by rewrite lookup_empty in Hk).
    repeat (apply lookup_insert_Some in Hk as [[<- <-]|[_ Hk]];
            [first [ by left
                   | right; right; split; [cbn; tauto | eexists; reflexivity] ]|]).
    by rewrite lookup_empty in Hk.
  - destruct (bs4.find card "h3" "base-search-card__title");
      [destruct (bs4.find card "h4" "base-search-card__subtitle");
       [destruct (bs4.find card "span" "job-search-card__location")|]|];
      cbn [list_to_map foldr uncurry fst snd]; intros Hk;
      try (by rewrite lookup_empty in Hk).
    repeat (apply lookup_insert_Some in Hk as [[<- <-]|[_ Hk]];
            [first [ by left
                   | right; left; split; [reflexivity|];
                     split; [reflexivity | apply job_type_of_cases]
                   | right; right; split; [cbn; tauto | eexists; reflexivity] ]|]).
    by rewrite lookup_empty in Hk.
Qed.

Lemma record_of_source w card :
  record_of w card <> ∅ -> record_of w card !! "source" = Some (source_name w).
Proof.
  destruct w; cbn [record_of source_name]; unfold indeed_record, linkedin_record.
  - destruct (bs4.find card "h2" "jobTitle");
      [destruct (bs4.find card "span" "companyName");
       [destruct (bs4.find card "div" "companyLocation")|]|];
      cbn [list_to_map foldr uncurry fst snd]; intros Hne;
      try (by destruct Hne). reflexivity.
  - destruct (bs4.find card "h3" "base-search-card__title");
      [destruct (bs4.find card "h4" "base-search-card__subtitle");
       [destruct (bs4.find card "span" "job-search-card__location")|]|];
      cbn [list_to_map foldr uncurry fst snd]; intros Hne;
      try (by destruct Hne). reflexivity.
Qed.

(** X10. Every record of a scrape names its site in [source], and its
    title, company, location and salary are cleaned text: made of word
    characters, whitespace and [. , $] only, with no whitespace at either
    end. *)
Theorem scraped_records_clean
    (w : site) (W : env) (url : string) (max_pages : Z) (s : state) :
  exists found s',
    scrape_job_listings w W url max_pages s = (inr found, s')
    /\ Forall (fun r : JobRecord =>
                 r !! "source" = Some (source_name w)
                 /\ forall k v,
                      In k ["title"; "company"; "location"; "salary"] ->
                      r !! k = Some v ->
                      all_chars kept v = true
                      /\ starts_with_space v = false
                      /\ ends_with_space v = false)
         found.
Proof.
  rewrite scrape_job_listings_with.
  destruct (scrape_with_run W (per_page w) (card_class w) _ _
              (extract_job_data_extracts w) url max_pages s)
    as (n' & evs & Hrun & _).
  cbv zeta in Hrun. rewrite Hrun. eexists _, _. split; [reflexivity|].
  apply List.Forall_forall. intros r Hr.
  apply in_flat_map in Hr as ([doc|] & _ & Hr); [|destruct Hr].
  cbn [page_records] in Hr. apply filter_In in Hr as [Hr Ht].
  apply in_map_iff in Hr as (card & <- & _).
  apply bool_decide_eq_true in Ht.
  split; [by apply record_of_source|].
  intros k v Hin Hk.
  apply record_of_field in Hk as [[-> _]|[[-> _]|[_ [raw ->]]]].
  - cbn in Hin. intuition discriminate.
  - cbn in Hin. intuition discriminate.
  - split; [apply normalize_kept | apply normalize_trimmed].
Qed.

End RecordProperties.

(** ** Regular expressions: matching by derivatives is matching *)

Section RegexFacts.

Import Regex.

Lemma append_nil_r (s : string) : (s ++ "")%string = s.
Proof.
  induction s as [|c r IH]; [done|].
  change (String c (r ++ "") = String c r)%string. by rewrite IH.
Qed.

Lemma append_nil_l (s : string) : ("" ++ s)%string = s.
Proof. reflexivity. Qed.

Lemma append_cons c (s t : string) :
  (String c s ++ t)%string = String c (s ++ t).
Proof. reflexivity. Qed.

Lemma append_eq_nil (s t : string) :
  (s ++ t)%string = EmptyString -> s = EmptyString /\ t = EmptyString.
Proof. destruct s; [done|]. rewrite append_cons. discriminate. Qed.

Lemma lang_void s : ~ lang Void s.
Proof. inversion 1. Qed.

Lemma lang_eps_inv s : lang Eps s -> s = EmptyString.
Proof. by inversion 1. Qed.

Lemma lang_chr_inv p s :
  lang (Chr p) s -> exists c, s = String c EmptyString /\ p c = true.
Proof. inversion 1; subst. by eexists. Qed.

Lemma lang_cat_inv a b s :
  lang (Cat a b) s -> exists s1 s2, s = (s1 ++ s2)%string /\ lang a s1 /\ lang b s2.
Proof. inversion 1; subst. by eexists _, _. Qed.

Lemma lang_alt_inv a b s : lang (Alt a b) s -> lang a s \/ lang b s.
Proof. inversion 1; subst; auto. Qed.

Lemma lang_cat_smart a b s : lang (cat a b) s <-> lang (Cat a b) s.
Proof.
  split.
  - destruct a; cbn [cat]; try (intros H; by apply lang_void in H);
      destruct b; try (intros H; by apply lang_void in H); try done;
      intros H; by apply (lang_cat Eps _ EmptyString s); [constructor|].
  - intros (s1 & s2 & -> & Ha & Hb)%lang_cat_inv.
    destruct a; try (by apply lang_void in Ha);
      destruct b; try (by apply lang_void in Hb); cbn [cat];
      try (by constructor);
      by apply lang_eps_inv in Ha as ->.
Qed.

Lemma lang_alt_smart a b s : lang (alt a b) s <-> lang (Alt a b) s.
Proof.
  split.
  - destruct a; cbn [alt];
      try (intros H; by apply lang_alt_r);
      destruct b; try done; intros H; by apply lang_alt_l.
  - intros [Ha|Hb]%lang_alt_inv.
    + destruct a; try (by apply lang_void in Ha);
        destruct b; cbn [alt]; try done; by apply lang_alt_l.
    + destruct b; try (by apply lang_void in Hb);
        destruct a; cbn [alt]; try done; by apply lang_alt_r.
Qed.

Lemma nullable_lang r : nullable r = true <-> lang r EmptyString.
Proof.
  induction r as [| |p|a IHa b IHb|a IHa b IHb|a IHa]; cbn [nullable].
  - split; [done | by intros H%lang_void].
  - split; [constructor | done].
  - split; [done | by intros (c & H & _)%lang_chr_inv].
  - rewrite andb_true_iff, IHa, IHb. split.
    + intros [Ha Hb]. by apply (lang_cat a b EmptyString EmptyString).
    + intros (s1 & s2 & H & Ha & Hb)%lang_cat_inv.
      symmetry in H. apply append_eq_nil in H as [-> ->]. done.
  - rewrite orb_true_iff, IHa, IHb. split.
    + intros [H|H]; [by apply lang_alt_l | by apply lang_alt_r].
    + apply lang_alt_inv.
  - split; [constructor | done].
Qed.

Lemma lang_star_cons_inv a c s :
  lang (Star a) (String c s) ->
  exists s1 s2, s = (s1 ++ s2)%string /\ lang a (String c s1) /\ lang (Star a) s2.
Proof.
  intros H. remember (Star a) as r eqn:Hr. remember (String c s) as w eqn:Hw.
  revert s Hw.
  induction H as [| | | | | |a' u t H1 _ H2 IH2]; intros v Hw; try done.
  injection Hr as ->. destruct u as [|d u'].
  - rewrite ?append_nil_l, ?append_cons in Hw. by apply IH2.
  - rewrite ?append_nil_l, ?append_cons in Hw. injection Hw as -> <-. by exists u', t.
Qed.

Lemma deriv_lang c r s : lang (deriv c r) s <-> lang r (String c s).
Proof.
  revert s. induction r as [| |p|a IHa b IHb|a IHa b IHb|a IHa]; intros s;
    cbn [deriv].
  - split; by intros H%lang_void.
  - split; [by intros H%lang_void | by intros H%lang_eps_inv].
  - split.
    + destruct (p c) eqn:Hp; [|by intros H%lang_void].
      intros ->%lang_eps_inv. by constructor.
    + intros (d & Heq & Hp)%lang_chr_inv. injection Heq as -> ->.
      rewrite Hp. constructor.
  - rewrite lang_alt_smart. split.
    + intros [H|H]%lang_alt_inv.
      * apply lang_cat_smart, lang_cat_inv in H as (s1 & s2 & -> & Ha & Hb).
        apply IHa in Ha. by apply (lang_cat a b (String c s1) s2).
      * destruct (nullable a) eqn:Hn; [|by apply lang_void in H].
        apply nullable_lang in Hn. apply IHb in H.
        by apply (lang_cat a b EmptyString (String c s)).
    + intros (s1 & s2 & H & Ha & Hb)%lang_cat_inv. destruct s1 as [|d s1].
      * rewrite ?append_nil_l, ?append_cons in H. subst s2. apply lang_alt_r.
        apply nullable_lang in Ha. rewrite Ha. by apply IHb.
      * rewrite ?append_nil_l, ?append_cons in H. injection H as <- ->. apply lang_alt_l, lang_cat_smart.
        constructor; [by apply IHa | done].
  - rewrite lang_alt_smart. split.
    + intros [H|H]%lang_alt_inv; [apply lang_alt_l, IHa | apply lang_alt_r, IHb]; done.
    + intros [H|H]%lang_alt_inv; [apply lang_alt_l, IHa | apply lang_alt_r, IHb]; done.
  - rewrite lang_cat_smart. split.
    + intros (s1 & s2 & -> & Ha & Hs)%lang_cat_inv.
      apply IHa in Ha. by apply (lang_star_cons a (String c s1) s2).
    + intros (s1 & s2 & -> & Ha & Hs)%lang_star_cons_inv.
      constructor; [by apply IHa | done].
Qed.

(** The matcher decides the language. *)
Lemma matches_lang r s : matches r s = true <-> lang r s.
Proof.
  revert r. induction s as [|c s IH]; intros r; cbn [matches].
  - apply nullable_lang.
  - by rewrite IH, deriv_lang.
Qed.

End RegexFacts.

(** ** validate_url *)

Section UrlFacts.

Import Regex url.

Lemma before_final_newline_app s :
  before_final_newline (s ++ newline) = Some s.
Proof.
  induction s as [|c r IH]; [done|].
  rewrite append_cons. cbn [before_final_newline]. rewrite IH.
  destruct r; reflexivity.
Qed.

Lemma before_final_newline_inv s core :
  before_final_newline s = Some core -> s = (core ++ newline)%string.
Proof.
  revert core. induction s as [|c r IH]; intros core; [done|].
  cbn [before_final_newline]. destruct r as [|d r'].
  - destruct (Ascii.eqb_spec c "010") as [->|]; [|done]. by intros [= <-].
  - destruct (before_final_newline (String d r')) as [core'|]; [|done].
    intros [= <-]. by rewrite (IH core' eq_refl).
Qed.

(** What [validate_url] accepts: the strings of the pattern, with or
    without one newline after them. *)
Lemma validate_url_lang s :
  helpers_url.validate_url s = true
  <-> lang url_pattern s
      \/ exists core, s = (core ++ newline)%string /\ lang url_pattern core.
Proof.
  unfold helpers_url.validate_url, match_anchored.
  rewrite orb_true_iff, matches_lang. split.
  - intros [H|H]; [by left|]. right.
    destruct (before_final_newline s) as [core|] eqn:Hb; [|done].
    exists core. split; [by apply before_final_newline_inv | by apply matches_lang].
  - intros [H|(core & -> & H)]; [by left|]. right.
    rewrite before_final_newline_app. by apply matches_lang.
Qed.

Lemma all_chars_app p (s t : string) :
  PyStr.all_chars p (s ++ t) = PyStr.all_chars p s && PyStr.all_chars p t.
Proof.
  induction s as [|c r IH]; [done|].
  rewrite append_cons. cbn [PyStr.all_chars]. by rewrite IH, andb_assoc.
Qed.

(** The characters of a matched string lie in the classes of the
    expression. *)
Lemma lang_classes_within q r s :
  classes_within q r -> lang r s -> PyStr.all_chars q s = true.
Proof.
  intros Hq H. induction H as [|p c Hp|a b s t _ IHa _ IHb|a b s _ IH|a b s _ IH
                               | |a s t _ IHa _ IHs]; cbn [classes_within] in Hq.
  - done.
  - cbn. by rewrite (Hq c Hp).
  - destruct Hq. by rewrite all_chars_app, IHa, IHb.
  - destruct Hq. by apply IH.
  - destruct Hq. by apply IH.
  - done.
  - rewrite all_chars_app, IHa, IHs; done.
Qed.

Lemma classes_within_times q m r :
  classes_within q r -> classes_within q (times m r).
Proof. intros H. induction m; cbn [times classes_within]; auto. Qed.

Lemma classes_within_upto q k r :
  classes_within q r -> classes_within q (upto k r).
Proof. intros H. induction k; cbn [upto Opt classes_within]; auto. Qed.

Lemma classes_within_rep q m n r :
  classes_within q r -> classes_within q (rep m n r).
Proof.
  intros H. split; [by apply classes_within_times | by apply classes_within_upto].
Qed.

Ltac each_char c :=
  destruct c as [[] [] [] [] [] [] [] []]; try reflexivity; try discriminate.

Lemma url_pattern_nonspace : classes_within nonspace url_pattern.
Proof.
  assert (Ha : forall c, alnum c = true -> nonspace c = true)
    by (intros c; each_char c).
  assert (Hd : forall c, alnum_dash c = true -> nonspace c = true)
    by (intros c; each_char c).
  assert (Hl : forall c, letter c = true -> nonspace c = true)
    by (intros c; each_char c).
  assert (Hg : forall c, digit c = true -> nonspace c = true)
    by (intros c; each_char c).
  assert (Hq : forall c, slash_or_query c = true -> nonspace c = true)
    by (intros c; each_char c).
  assert (Hi : forall x, PyStr.isspace x = false ->
                 forall c, Ascii.eqb (PyStr.lower_char c) (PyStr.lower_char x) = true ->
                           nonspace c = true).
  { intros x Hx c Hc. apply Ascii.eqb_eq in Hc. unfold nonspace.
    destruct (PyStr.isspace c) eqn:Hs; [|done].
    assert (Hfix : PyStr.lower_char c = c) by (revert Hs; clear; each_char c).
    rewrite Hfix in Hc. subst c. revert Hs Hx. clear. each_char x. }
  assert (Hlit : forall x, PyStr.all_chars nonspace x = true ->
                   classes_within nonspace (ilit x)).
  { induction x as [|a x IH]; [done|]. cbn [PyStr.all_chars ilit ichar classes_within].
    intros [Hax Hx]%andb_true_iff. split; [|by apply IH].
    apply Hi. unfold nonspace in Hax. by apply negb_true_iff in Hax. }
  assert (Hoct : classes_within nonspace octet)
    by (by apply classes_within_rep).
  unfold url_pattern, scheme, host, domain, label, ipv4, port, path, Plus, Opt.
  cbn [classes_within].
  repeat match goal with
         | |- _ /\ _ => split
         | |- True => exact I
         | |- classes_within _ (ilit _) => by apply Hlit
         | |- classes_within _ (rep _ _ _) => by apply classes_within_rep
         | |- classes_within _ octet => exact Hoct
         | |- classes_within _ (ichar ?x) =>
             unfold ichar; cbn [classes_within]; apply (Hi x); reflexivity
         | |- forall c, _ => first [exact Ha | exact Hd | exact Hl | exact Hg | exact Hq
                                    | by apply Hi | done]
         end.
Qed.

Lemma ilit_lower x s : lang (ilit x) s -> PyStr.lower s = PyStr.lower x.
Proof.
  revert s. induction x as [|a x IH]; intros s; cbn [ilit].
  - by intros ->%lang_eps_inv.
  - intros (s1 & s2 & -> & (c & -> & Hc)%lang_chr_inv & H2)%lang_cat_inv.
    rewrite append_cons, append_nil_l. cbn [PyStr.lower].
    apply Ascii.eqb_eq in Hc. by rewrite Hc, (IH _ H2).
Qed.

Lemma scheme_lower s :
  lang scheme s -> PyStr.lower s = "http://" \/ PyStr.lower s = "https://".
Proof.
  unfold scheme.
  intros (s1 & t & -> & H1%ilit_lower & (s2 & s3 & -> & H2 & H3%ilit_lower)
            %lang_cat_inv)%lang_cat_inv.
  rewrite !lower_app, H1, H3.
  apply lang_alt_inv in H2 as [->%lang_eps_inv|(c & -> & Hc)%lang_chr_inv].
  - by left.
  - right. apply Ascii.eqb_eq in Hc. cbn [PyStr.lower]. by rewrite Hc.
Qed.

Lemma newline_is_space : PyStr.all_chars nonspace newline = false.
Proof. reflexivity. Qed.

(** The pattern matches no string that ends with a newline. *)
Lemma url_pattern_no_newline s : ~ lang url_pattern (s ++ newline).
Proof.
  intros H. apply (lang_classes_within _ _ _ url_pattern_nonspace) in H.
  rewrite all_chars_app, newline_is_space, andb_false_r in H. done.
Qed.

Lemma octet_lang s : octet_like s = true -> lang octet s.
Proof.
  unfold octet_like. rewrite !andb_true_iff.
  intros [[Hd Hlo] Hhi]. apply matches_lang.
  destruct s as [|c1 [|c2 [|c3 [|c4 s]]]]; try done; cbn [PyStr.all_chars] in Hd;
    repeat match goal with
           | H : _ && _ = true |- _ => apply andb_true_iff in H as [? ?]
           end;
    unfold octet, rep;
    cbn [Nat.sub times upto Opt matches deriv nullable cat alt andb orb];
    repeat match goal with
           | H : digit ?c = true |- _ =>
               rewrite !H; clear H;
               cbn [Opt matches deriv nullable cat alt andb orb]
           end; reflexivity.
Qed.

Lemma classes_blind_cat f a b :
  classes_blind f a -> classes_blind f b -> classes_blind f (cat a b).
Proof. destruct a, b; cbn [cat classes_blind]; tauto. Qed.

Lemma classes_blind_alt f a b :
  classes_blind f a -> classes_blind f b -> classes_blind f (alt a b).
Proof. destruct a, b; cbn [alt classes_blind]; tauto. Qed.

Lemma deriv_blind f c r : classes_blind f r -> deriv (f c) r = deriv c r.
Proof.
  induction r as [| |p|a IHa b IHb|a IHa b IHb|a IHa]; cbn [classes_blind deriv];
    try done.
  - by intros ->.
  - intros [Ha Hb]. by rewrite IHa, IHb.
  - intros [Ha Hb]. by rewrite IHa, IHb.
  - intros Ha. by rewrite IHa.
Qed.

Lemma classes_blind_deriv f c r :
  classes_blind f r -> classes_blind f (deriv c r).
Proof.
  induction r as [| |p|a IHa b IHb|a IHa b IHb|a IHa]; cbn [classes_blind deriv];
    try done.
  - intros _. by destruct (p c).
  - intros [Ha Hb]. apply classes_blind_alt.
    + apply classes_blind_cat; auto.
    + destruct (nullable a); [auto | done].
  - intros [Ha Hb]. apply classes_blind_alt; auto.
  - intros Ha. apply classes_blind_cat; auto.
Qed.

Lemma matches_lower r s :
  classes_blind PyStr.lower_char r -> matches r (PyStr.lower s) = matches r s.
Proof.
  revert r. induction s as [|c s IH]; intros r Hr; [done|].
  cbn [PyStr.lower matches]. rewrite deriv_blind by done.
  by apply IH, classes_blind_deriv.
Qed.

Lemma classes_blind_times f m r : classes_blind f r -> classes_blind f (times m r).
Proof. intros H. induction m; cbn [times classes_blind]; auto. Qed.

Lemma classes_blind_upto f k r : classes_blind f r -> classes_blind f (upto k r).
Proof. intros H. induction k; cbn [upto Opt classes_blind]; auto. Qed.

Lemma classes_blind_rep f m n r : classes_blind f r -> classes_blind f (rep m n r).
Proof.
  intros H. split; [by apply classes_blind_times | by apply classes_blind_upto].
Qed.

Lemma classes_blind_ilit x : classes_blind PyStr.lower_char (ilit x).
Proof.
  induction x as [|a x IH]; [done|]. cbn [ilit ichar classes_blind].
  split; [|exact IH]. intros c.
  assert (H : PyStr.lower_char (PyStr.lower_char c) = PyStr.lower_char c)
    by (clear; each_char c).
  by rewrite H.
Qed.

Lemma url_pattern_blind : classes_blind PyStr.lower_char url_pattern.
Proof.
  assert (Ha : forall c, alnum (PyStr.lower_char c) = alnum c)
    by (intros c; each_char c).
  assert (Hd : forall c, alnum_dash (PyStr.lower_char c) = alnum_dash c)
    by (intros c; each_char c).
  assert (Hl : forall c, letter (PyStr.lower_char c) = letter c)
    by (intros c; each_char c).
  assert (Hg : forall c, digit (PyStr.lower_char c) = digit c)
    by (intros c; each_char c).
  assert (Hq : forall c, slash_or_query (PyStr.lower_char c) = slash_or_query c)
    by (intros c; each_char c).
  assert (Hn : forall c, nonspace (PyStr.lower_char c) = nonspace c)
    by (intros c; each_char c).
  assert (Hi : forall x, classes_blind PyStr.lower_char (ichar x))
    by (intros x; apply (classes_blind_ilit (String x EmptyString))).
  unfold url_pattern, scheme, host, domain, label, ipv4, octet, port, path, Plus, Opt.
  cbn [classes_blind].
  repeat match goal with
         | |- _ /\ _ => split
         | |- True => exact I
         | |- classes_blind _ (ilit _) => apply classes_blind_ilit
         | |- classes_blind _ (rep _ _ _) => apply classes_blind_rep; cbn [classes_blind]
         | |- classes_blind _ (ichar _) => apply Hi
         | |- forall c, _ => first [exact Ha | exact Hd | exact Hl | exact Hg
                                    | exact Hq | exact Hn]
         end.
Qed.

Lemma before_final_newline_lower s :
  before_final_newline (PyStr.lower s)
  = option_map PyStr.lower (before_final_newline s).
Proof.
  induction s as [|c r IH]; [done|]. cbn [PyStr.lower before_final_newline].
  destruct r as [|d r'].
  - cbn [PyStr.lower]. clear. each_char c.
  - cbn [PyStr.lower] in *. rewrite IH.
    by destruct (before_final_newline (String d r')).
Qed.

End UrlFacts.

Section UrlProperties.

Import Regex url.

(** X11. A URL that [validate_url] accepts has no whitespace, except that
    one newline may follow it: the [$] of the pattern also matches just
    before a final newline. *)
Theorem validate_url_no_whitespace (url : string) :
  helpers_url.validate_url url = true ->
  exists core,
    (url = core \/ url = (core ++ newline)%string)
    /\ PyStr.all_chars nonspace core = true.
Proof.
  intros [H|(core & -> & H)]%validate_url_lang.
  - exists url. split; [by left|].
    by apply (lang_classes_within _ _ _ url_pattern_nonspace).
  - exists core. split; [by right|].
    by apply (lang_classes_within _ _ _ url_pattern_nonspace).
Qed.

Lemma validate_url_no_whitespace_witness :
  exists core,
    ("https://www.indeed.com/jobs?q=python&l=Oslo" = core
     \/ "https://www.indeed.com/jobs?q=python&l=Oslo" = (core ++ newline)%string)
    /\ PyStr.all_chars nonspace core = true.
Proof.
  exact (validate_url_no_whitespace
           "https://www.indeed.com/jobs?q=python&l=Oslo" eq_refl).
Defined.

(** X12. Among the URLs of Latin-1 characters (code points below 256, the
    strings of this development), one that [validate_url] accepts starts
    with [http://] or [https://], in any mix of upper and lower case.
    (Beyond Latin-1 the scheme has one more spelling: under [re.IGNORECASE]
    the long s, U+017F, also matches the [s] of [https].) *)
Theorem validate_url_scheme (url : string) :
  helpers_url.validate_url url = true ->
  String.prefix "http://" (PyStr.lower url) = true
  \/ String.prefix "https://" (PyStr.lower url) = true.
Proof.
  assert (Hpat : forall s, lang url_pattern s ->
            exists rest, PyStr.lower s = ("http://" ++ rest)%string
                         \/ PyStr.lower s = ("https://" ++ rest)%string).
  { intros s (s1 & s2 & -> & H1%scheme_lower & _)%lang_cat_inv.
    exists (PyStr.lower s2). rewrite lower_app. destruct H1 as [-> | ->]; auto. }
  intros [H|(core & -> & H)]%validate_url_lang.
  - destruct (Hpat _ H) as (rest & [Hr|Hr]); [left|right];
      apply prefix_spec; by exists rest.
  - destruct (Hpat _ H) as (rest & [Hr|Hr]); [left|right];
      apply prefix_spec; exists (rest ++ PyStr.lower newline)%string;
      by rewrite lower_app, Hr, append_assoc.
Qed.

Lemma validate_url_scheme_witness :
  String.prefix "http://" (PyStr.lower "HTTP://Example.COM/Jobs") = true
  \/ String.prefix "https://" (PyStr.lower "HTTP://Example.COM/Jobs") = true.
Proof. exact (validate_url_scheme "HTTP://Example.COM/Jobs" eq_refl). Defined.

(** X13. A newline at the end is not seen: for a string that does not end
    with a newline, [validate_url] gives the same answer with one newline
    appended, so ['http://localhost\n'] counts as valid. *)
Theorem validate_url_final_newline (url : string) :
  before_final_newline url = None ->
  helpers_url.validate_url (url ++ newline) = helpers_url.validate_url url.
Proof.
  intros Hnone. unfold helpers_url.validate_url, match_anchored.
  rewrite before_final_newline_app, Hnone, orb_false_r.
  destruct (matches url_pattern (url ++ newline)) eqn:Hm; [|done].
  apply matches_lang in Hm. by apply url_pattern_no_newline in Hm.
Qed.

Lemma validate_url_final_newline_witness :
  helpers_url.validate_url ("http://localhost" ++ newline) = true.
Proof.
  rewrite (validate_url_final_newline "http://localhost" eq_refl). reflexivity.
Defined.

(** X14. The parts of an IPv4 host are not range-checked: four groups of
    one to three digits, whatever the digits, make a valid URL. *)
Theorem validate_url_ipv4_unchecked (a b c d : string) :
  octet_like a = true -> octet_like b = true ->
  octet_like c = true -> octet_like d = true ->
  helpers_url.validate_url ("http://" ++ a ++ "." ++ b ++ "." ++ c ++ "." ++ d)
  = true.
Proof.
  intros Ha%octet_lang Hb%octet_lang Hc%octet_lang Hd%octet_lang.
  apply validate_url_lang. left.
  assert (Hdot : lang (ichar ".") ".") by (by constructor).
  assert (Hip : lang ipv4 (a ++ "." ++ b ++ "." ++ c ++ "." ++ d)).
  { unfold ipv4. repeat (apply lang_cat; [done|]). done. }
  rewrite <- (append_nil_r (a ++ "." ++ b ++ "." ++ c ++ "." ++ d)).
  unfold url_pattern. apply lang_cat; [by apply matches_lang|].
  apply lang_cat; [by apply lang_alt_r, lang_alt_r|].
  by apply matches_lang.
Qed.

Lemma validate_url_ipv4_unchecked_witness :
  helpers_url.validate_url "http://999.999.999.999" = true.
Proof.
  exact (validate_url_ipv4_unchecked "999" "999" "999" "999"
           eq_refl eq_refl eq_refl eq_refl).
Defined.

(** X15. Among the URLs of Latin-1 characters (code points below 256, the
    strings of this development), [validate_url] does not look at the case
    of letters: a URL and its lower-case form, which is again Latin-1 and of
    the same length, get the same answer.  (Beyond Latin-1 this fails: the
    dotted capital I, U+0130, matches [[A-Z]] under [re.IGNORECASE], and
    [str.lower] turns it into two characters of which the pattern refuses
    the second.) *)
Theorem validate_url_case_insensitive (url : string) :
  helpers_url.validate_url (PyStr.lower url) = helpers_url.validate_url url.
Proof.
  unfold helpers_url.validate_url, match_anchored.
  rewrite matches_lower by apply url_pattern_blind.
  rewrite before_final_newline_lower.
  destruct (before_final_newline url) as [core|]; cbn [option_map]; [|done].
  by rewrite matches_lower by apply url_pattern_blind.
Qed.

End UrlProperties.

(** ** save_to_json and save_to_csv *)

Section SaveFacts.

Import helpers_io.

Lemma digit_inj x y :
  0 <= x <= 9 -> 0 <= y <= 9 -> digit x = digit y -> x = y.
Proof.
  unfold digit. intros Hx Hy H.
  apply (f_equal N_of_ascii) in H.
  rewrite !N_ascii_embedding in H by lia. lia.
Qed.

Ltac digits := Z.to_euclidean_division_equations; lia.

Lemma two_digits_inj x y r r' :
  0 <= x <= 99 -> 0 <= y <= 99 ->
  two_digits x r = two_digits y r' -> x = y /\ r = r'.
Proof.
  unfold two_digits. intros Hx Hy H. injection H as H1 H2 H3.
  apply digit_inj in H1; [|digits|digits]. apply digit_inj in H2; [|digits|digits].
  split; [digits | done].
Qed.

Lemma four_digits_inj x y r r' :
  0 <= x <= 9999 -> 0 <= y <= 9999 ->
  four_digits x r = four_digits y r' -> x = y /\ r = r'.
Proof.
  unfold four_digits, two_digits. intros Hx Hy H. injection H as H1 H2 H3 H4 H5.
  apply digit_inj in H1; [|digits|digits]. apply digit_inj in H2; [|digits|digits].
  apply digit_inj in H3; [|digits|digits]. apply digit_inj in H4; [|digits|digits].
  split; [digits | done].
Qed.

Lemma string_tail_inj c d (a b : string) : String c a = String d b -> a = b.
Proof. by intros [= _ ->]. Qed.

(** Two well-formed times with the same stamp are the same time, whatever
    follows the stamp. *)
Lemma strftime_inj a b (rest rest' : string) :
  well_formed a -> well_formed b ->
  (strftime a ++ rest)%string = (strftime b ++ rest')%string -> a = b.
Proof.
  intros (Ha1 & Ha2 & Ha3 & Ha4 & Ha5 & Ha6) (Hb1 & Hb2 & Hb3 & Hb4 & Hb5 & Hb6).
  destruct a as [y1 m1 d1 h1 n1 s1], b as [y2 m2 d2 h2 n2 s2].
  cbn [year month day hour minute second] in *.
  unfold strftime. cbn [year month day hour minute second].
  intros H.
  change (four_digits y1 (two_digits m1 (two_digits d1 (String "_"
            (two_digits h1 (two_digits n1 (two_digits s1 rest))))))
          = four_digits y2 (two_digits m2 (two_digits d2 (String "_"
            (two_digits h2 (two_digits n2 (two_digits s2 rest'))))))) in H.
  apply four_digits_inj in H as [-> H]; [|lia|lia].
  apply two_digits_inj in H as [-> H]; [|lia|lia].
  apply two_digits_inj in H as [-> H]; [|lia|lia].
  apply string_tail_inj in H.
  apply two_digits_inj in H as [-> H]; [|lia|lia].
  apply two_digits_inj in H as [-> H]; [|lia|lia].
  apply two_digits_inj in H as [-> H]; [|lia|lia].
  reflexivity.
Qed.

Lemma prefix_slash_app (a b : string) :
  b <> EmptyString -> String.prefix "/" b = false ->
  String.prefix "/" (a ++ b) = String.prefix "/" a.
Proof.
  destruct a as [|c a]; intros Hne Hb.
  - by rewrite append_nil_l, Hb.
  - rewrite append_cons.
    assert (Hcons : forall x, String.prefix "/" (String c x)
                              = if ascii_dec "/" c then true else false).
    { intros x. change (String.prefix "/" (String c x))
        with (if ascii_dec "/" c then String.prefix "" x else false).
      destruct (ascii_dec "/" c); [by destruct x | done]. }
    by rewrite !Hcons.
Qed.

(** Where a stamped file goes: below [data] unless the name is absolute. *)
Lemma stamped_path (filename stamp : string) :
  String.prefix "/" stamp = false -> stamp <> EmptyString ->
  os_path_join "data" (filename ++ stamp)
  = ((if String.prefix "/" filename then "" else "data/") ++ filename ++ stamp)%string.
Proof.
  intros Hs Hne. unfold os_path_join.
  rewrite (prefix_slash_app filename stamp Hne Hs).
  by destruct (String.prefix "/" filename).
Qed.

Lemma last_char_app (s t : string) :
  t <> EmptyString -> last_char (s ++ t) = last_char t.
Proof.
  intros Hne. induction s as [|c s IH]; [done|].
  rewrite append_cons. cbn [last_char]. rewrite IH.
  destruct (s ++ t)%string eqn:Hst; [|done].
  apply append_eq_nil in Hst as [_ ->]. done.
Qed.

Lemma stamp_relative (stamp : string) : String.prefix "/" ("_" ++ stamp) = false.
Proof. reflexivity. Qed.

Lemma stamp_nonempty (stamp : string) : ("_" ++ stamp)%string <> EmptyString.
Proof. rewrite append_cons. discriminate. Qed.

Lemma last_char_stamped (pre filename stamp ext : string) :
  ext <> EmptyString ->
  last_char (pre ++ filename ++ "_" ++ stamp ++ ext) = last_char ext.
Proof.
  intros Hne. rewrite <- !append_assoc. by apply last_char_app.
Qed.

End SaveFacts.

(** ** The writers on a file system *)

Section DiskFacts.

Import helpers_io posix.

Lemma components_nonempty s : components s <> [].
Proof.
  destruct s as [|c s]; [done|]. cbn [components].
  destruct (Ascii.eqb c "/"); [done|]. by destruct (components s).
Qed.

Lemma components_no_slash s : no_slash s = true -> components s = [s].
Proof.
  unfold no_slash. induction s as [|c s IH]; [done|].
  cbn [PyStr.all_chars components]. intros [Hc Hs]%andb_true_iff.
  apply negb_true_iff in Hc. rewrite Hc, (IH Hs). done.
Qed.

Lemma components_slash s t :
  no_slash s = true -> components (s ++ "/" ++ t) = s :: components t.
Proof.
  unfold no_slash. induction s as [|c s IH].
  - intros _. by rewrite append_nil_l.
  - cbn [PyStr.all_chars]. intros [Hc Hs]%andb_true_iff.
    apply negb_true_iff in Hc. rewrite append_cons. cbn [components].
    rewrite Hc, (IH Hs). done.
Qed.


(** The characters of a time stamp are digits and the underscore. *)
Lemma digit_cases (p : ascii -> bool) (n : Z) :
  (forall c, In c (list_ascii_of_string "0123456789") -> p c = true) ->
  p (digit (n mod 10)) = true.
Proof.
  intros Hp. apply Hp.
  assert (Hd : 0 <= n mod 10 < 10) by (apply Z.mod_pos_bound; lia).
  assert (Hc : n mod 10 = 0 \/ n mod 10 = 1 \/ n mod 10 = 2 \/ n mod 10 = 3
               \/ n mod 10 = 4 \/ n mod 10 = 5 \/ n mod 10 = 6 \/ n mod 10 = 7
               \/ n mod 10 = 8 \/ n mod 10 = 9) by lia.
  destruct Hc as [->|[->|[->|[->|[->|[->|[->|[->|[->| ->]]]]]]]]];
    cbn; tauto.
Qed.

Lemma strftime_chars (p : ascii -> bool) (now : datetime) :
  (forall c, In c (list_ascii_of_string "0123456789_") -> p c = true) ->
  PyStr.all_chars p (strftime now) = true.
Proof.
  intros Hp.
  assert (Hd : forall n, p (digit (n mod 10)) = true).
  { intros n. apply digit_cases. intros c Hc. apply Hp.
    cbn in Hc |- *. tauto. }
  assert (Hu : p "_"%char = true) by (apply Hp; cbn; tauto).
  unfold strftime, four_digits, two_digits. cbn [PyStr.all_chars].
  by rewrite !Hd, Hu.
Qed.

Lemma stamped_no_slash (w : format) (now : datetime) :
  no_slash ("_" ++ strftime now ++ extension w) = true.
Proof.
  unfold no_slash. rewrite !all_chars_app, strftime_chars.
  - by destruct w.
  - intros c Hc. cbn in Hc.
    repeat (destruct Hc as [<-|Hc]; [reflexivity|]). destruct Hc.
Qed.

Lemma stamped_no_null (w : format) (now : datetime) :
  embedded_null ("_" ++ strftime now ++ extension w) = false.
Proof.
  unfold embedded_null. rewrite !all_chars_app, strftime_chars.
  - by destruct w.
  - intros c Hc. cbn in Hc.
    repeat (destruct Hc as [<-|Hc]; [reflexivity|]). destruct Hc.
Qed.

Lemma embedded_null_app (s t : string) :
  embedded_null (s ++ t) = embedded_null s || embedded_null t.
Proof. unfold embedded_null. by rewrite all_chars_app, negb_andb. Qed.

Lemma no_slash_app (s t : string) :
  no_slash (s ++ t) = no_slash s && no_slash t.
Proof. apply all_chars_app. Qed.

(** A name with an underscore in it is an entry's name. *)
Lemma is_dots_chars (s : string) :
  is_dots s = true -> PyStr.all_chars (fun c => Ascii.eqb c ".") s = true.
Proof.
  unfold is_dots. intros H.
  apply orb_true_iff in H as [H|H]; [apply orb_true_iff in H as [H|H]|];
    apply String.eqb_eq in H; by subst s.
Qed.

Lemma stamped_not_dots (s rest : string) : is_dots (s ++ "_" ++ rest) = false.
Proof.
  destruct (is_dots (s ++ "_" ++ rest)) eqn:H; [|done].
  apply is_dots_chars in H. rewrite !all_chars_app in H.
  apply andb_true_iff in H as [_ H]. apply andb_true_iff in H as [H _].
  discriminate H.
Qed.

Lemma no_slash_relative (s : string) :
  no_slash s = true -> String.prefix "/" s = false.
Proof.
  destruct s as [|c s]; [done|]. unfold no_slash. cbn [PyStr.all_chars].
  intros [Hc _]%andb_true_iff. apply negb_true_iff in Hc.
  change (String.prefix "/" (String c s))
    with (if ascii_dec "/" c then String.prefix "" s else false).
  destruct (ascii_dec "/" c) as [<-|]; [discriminate Hc | done].
Qed.

Lemma proper_relative (dir rest : string) :
  proper_name dir = true -> String.prefix "/" (dir ++ rest) = false.
Proof.
  unfold proper_name. intros [Hs Hd]%andb_true_iff.
  destruct dir as [|c dir]; [discriminate Hd|].
  apply no_slash_relative in Hs. rewrite append_cons.
  change (String.prefix "/" (String c (dir ++ rest)))
    with (if ascii_dec "/" c then String.prefix "" (dir ++ rest) else false).
  change (String.prefix "/" (String c dir))
    with (if ascii_dec "/" c then String.prefix "" dir else false) in Hs.
  destruct (ascii_dec "/" c); [by destruct dir | done].
Qed.

Lemma kind_below (fs : filesystem) (dir : names) (name : string) :
  kind fs (dir ++ [name])%list = fs !! (dir ++ [name])%list.
Proof. by destruct dir. Qed.

Lemma kind_insert_ne (fs : filesystem) (p q : names) (e : entry) :
  p <> q -> kind (<[p := e]> fs) q = kind fs q.
Proof. intros Hne. destruct q; [done|]. cbn [kind]. by rewrite lookup_insert_ne. Qed.

Lemma kind_insert (fs : filesystem) (dir : names) (name : string) (e : entry) :
  kind (<[(dir ++ [name])%list := e]> fs) (dir ++ [name])%list = Some e.
Proof. by rewrite kind_below, lookup_insert_eq. Qed.

Lemma below_ne (dir more : names) : more <> [] -> (dir ++ more)%list <> dir.
Proof.
  intros Hne H. apply (f_equal (@length string)) in H.
  rewrite length_app in H. destruct more; [done|]. cbn in H. lia.
Qed.

(** [os.makedirs('data', exist_ok=True)] where [data] is no regular file:
    afterwards the directory is there, and nothing else has changed. *)
Lemma makedirs_data (fs : filesystem) (cwd : names) :
  is_dir fs cwd = true -> is_file fs (cwd ++ ["data"])%list = false ->
  makedirs fs cwd "data" true = inr (<[(cwd ++ ["data"])%list := Dir]> fs).
Proof.
  intros Hcwd Hdata. unfold makedirs, mkdir, is_file, is_dir in *.
  change (name_too_long "data") with false. cbv iota.
  destruct (kind fs cwd) as [[|?]|]; try discriminate Hcwd.
  rewrite kind_below in *.
  destruct (fs !! (cwd ++ ["data"])%list) as [[|content]|] eqn:Hk;
    [|discriminate Hdata|done].
  cbn. by rewrite insert_id.
Qed.

Lemma is_dir_insert_ne (fs : filesystem) (p q : names) (e : entry) :
  p <> q -> is_dir (<[p := e]> fs) q = is_dir fs q.
Proof. intros Hne. unfold is_dir. by rewrite kind_insert_ne. Qed.

(** Writing at a place that the walk finds. *)
Lemma open_w_found (fs : filesystem) (cwd : names) (path content : string)
    (dir : names) (name : string) :
  embedded_null path = false -> path <> "" -> path_too_long path = false ->
  resolve fs cwd path = inr (dir, name) ->
  is_dots name = false -> name_too_long name = false ->
  is_dir fs (dir ++ [name])%list = false ->
  open_w fs cwd path content = inr (<[(dir ++ [name])%list := File content]> fs)
  /\ dataframe_to_csv fs cwd path content
     = inr (<[(dir ++ [name])%list := File content]> fs).
Proof.
  intros Hnull Hne Hlen Hres Hdots Hfits Hdir.
  assert (Hopen : open_w fs cwd path content
                  = inr (<[(dir ++ [name])%list := File content]> fs)).
  { unfold open_w. rewrite Hnull, Hlen, Hres, Hdots, Hfits.
    destruct (String.eqb path "") eqn:He; [by apply String.eqb_eq in He|].
    unfold is_dir in Hdir. by destruct (kind fs (dir ++ [name])%list) as [[|?]|]. }
  split; [exact Hopen|].
  unfold dataframe_to_csv, parent_is_dir. by rewrite Hnull, Hres.
Qed.

(** Writing where the walk does not arrive. *)
Lemma open_w_lost (fs : filesystem) (cwd : names) (path content : string)
    (e : exception) :
  embedded_null path = false -> path <> "" -> path_too_long path = false ->
  resolve fs cwd path = inl e ->
  open_w fs cwd path content = inl e
  /\ dataframe_to_csv fs cwd path content = inl OSError.
Proof.
  intros Hnull Hne Hlen Hres. split.
  - unfold open_w. rewrite Hnull, Hlen, Hres.
    by destruct (String.eqb path "") eqn:He; [apply String.eqb_eq in He|].
  - unfold dataframe_to_csv, parent_is_dir. by rewrite Hnull, Hres.
Qed.

Lemma enter_dir (fs : filesystem) (dir : names) (name : string) :
  is_dots name = false -> name_too_long name = false ->
  kind fs (dir ++ [name])%list = Some Dir ->
  enter fs dir name = inr (dir ++ [name])%list.
Proof.
  unfold is_dots, enter. intros [[-> ->]%orb_false_iff ->]%orb_false_iff -> Hk.
  cbn [orb]. by rewrite Hk.
Qed.

Lemma enter_missing (fs : filesystem) (dir : names) (name : string) :
  is_dots name = false -> name_too_long name = false ->
  kind fs (dir ++ [name])%list = None ->
  enter fs dir name = inl FileNotFoundError.
Proof.
  unfold is_dots, enter. intros [[-> ->]%orb_false_iff ->]%orb_false_iff -> Hk.
  cbn [orb]. by rewrite Hk.
Qed.

Lemma encoded_length_app (s t : string) :
  encoded_length (s ++ t) = (encoded_length s + encoded_length t)%nat.
Proof.
  induction s as [|c s IH]; [by rewrite append_nil_l|].
  rewrite append_cons. cbn [encoded_length]. rewrite IH. lia.
Qed.

(** A short way to a name that fits makes a path that fits. *)
Lemma path_fits (way name : string) :
  (encoded_length way <= 8)%nat -> name_too_long name = false ->
  path_too_long (way ++ name) = false.
Proof.
  unfold name_too_long, path_too_long, NAME_MAX, PATH_MAX.
  intros Hway Hname%Nat.ltb_ge. apply Nat.leb_gt.
  rewrite encoded_length_app. lia.
Qed.

Lemma locate_step (fs : filesystem) (dir : names) (name : string) (rest : list string) :
  rest <> [] ->
  locate fs dir (name :: rest)
  = match enter fs dir name with
    | inl e => inl e
    | inr dir' => locate fs dir' rest
    end.
Proof. by destruct rest. Qed.

(** The walk of a path below [data], once the directory is there. *)
Lemma resolve_data (fs : filesystem) (cwd : names) (rest : string) :
  is_dir fs cwd = true ->
  resolve (<[(cwd ++ ["data"])%list := Dir]> fs) cwd ("data/" ++ rest)
  = locate (<[(cwd ++ ["data"])%list := Dir]> fs) (cwd ++ ["data"])%list
      (components rest).
Proof.
  intros Hcwd. unfold resolve.
  change (String.prefix "/" ("data/" ++ rest)) with false. cbv iota.
  rewrite is_dir_insert_ne, Hcwd by (by apply below_ne).
  change ("data/" ++ rest)%string with ("data" ++ "/" ++ rest)%string.
  rewrite components_slash by reflexivity.
  rewrite locate_step by apply components_nonempty.
  rewrite enter_dir; [done|reflexivity|reflexivity|apply kind_insert].
Qed.

Lemma slash_absolute (s : string) : String.prefix "/" ("/" ++ s) = true.
Proof.
  rewrite append_cons, append_nil_l.
  change (String.prefix "/" (String "/" s))
    with (if ascii_dec "/" "/" then String.prefix "" s else false).
  destruct (ascii_dec "/" "/"); [by destruct s | done].
Qed.

Lemma underscore_apart (s rest t : string) :
  PyStr.all_chars (fun c => negb (Ascii.eqb c "_")) t = true ->
  (s ++ "_" ++ rest)%string <> t.
Proof.
  intros Ht <-. rewrite !all_chars_app in Ht.
  apply andb_true_iff in Ht as [_ Ht]. apply andb_true_iff in Ht as [Ht _].
  discriminate Ht.
Qed.

End DiskFacts.

Section DiskOutcome.

Import helpers_io posix.

Variable json_dumps : list JobRecord -> string.
Variable to_csv : list JobRecord -> string.

(** A call of a writer, step by step. *)
Lemma on_disk_save (w : format) (now : datetime) (data : list JobRecord)
    (filename : string) (fs : filesystem) (cwd : names) :
  let path := os_path_join "data" (filename ++ "_" ++ strftime now ++ extension w) in
  let content := serialized json_dumps to_csv w data in
  on_disk (save json_dumps to_csv w now data filename) fs cwd
  = match makedirs fs cwd "data" true with
    | inl e => (inl e, fs)
    | inr fs' =>
        match match w with
              | Json => open_w fs' cwd path content
              | Csv => dataframe_to_csv fs' cwd path content
              end with
        | inl e => (inl e, fs')
        | inr fs'' => (inr path, fs'')
        end
    end.
Proof.
  cbv zeta. unfold on_disk.
  destruct w; cbn [save save_to_json save_to_csv fst snd perform_all perform
                   extension serialized];
    destruct (makedirs fs cwd "data" true) as [e|fs']; try reflexivity.
  - by destruct (open_w fs' cwd _ _).
  - by destruct (dataframe_to_csv fs' cwd _ _).
Qed.

(** The outcome of a call, from where the walk of its path ends. *)
Lemma on_disk_found (w : format) (now : datetime) (data : list JobRecord)
    (filename : string) (fs : filesystem) (cwd : names)
    (path : string) (dir : names) (name : string) :
  is_dir fs cwd = true -> is_file fs (cwd ++ ["data"])%list = false ->
  os_path_join "data" (filename ++ "_" ++ strftime now ++ extension w) = path ->
  embedded_null path = false -> path <> "" -> path_too_long path = false ->
  resolve (<[(cwd ++ ["data"])%list := Dir]> fs) cwd path = inr (dir, name) ->
  is_dots name = false -> name_too_long name = false ->
  is_dir (<[(cwd ++ ["data"])%list := Dir]> fs) (dir ++ [name])%list = false ->
  on_disk (save json_dumps to_csv w now data filename) fs cwd
  = (inr path,
     <[(dir ++ [name])%list := File (serialized json_dumps to_csv w data)]>
       (<[(cwd ++ ["data"])%list := Dir]> fs)).
Proof.
  intros Hcwd Hdata Hpath Hnull Hne Hlen Hres Hdots Hfits Hdir.
  rewrite on_disk_save. cbv zeta. rewrite Hpath, (makedirs_data _ _ Hcwd Hdata).
  destruct (open_w_found _ cwd path (serialized json_dumps to_csv w data)
              dir name Hnull Hne Hlen Hres Hdots Hfits Hdir) as [Ho Hc].
  destruct w; by rewrite ?Ho, ?Hc.
Qed.

Lemma on_disk_lost (w : format) (now : datetime) (data : list JobRecord)
    (filename : string) (fs : filesystem) (cwd : names) (path : string) :
  is_dir fs cwd = true -> is_file fs (cwd ++ ["data"])%list = false ->
  os_path_join "data" (filename ++ "_" ++ strftime now ++ extension w) = path ->
  embedded_null path = false -> path <> "" -> path_too_long path = false ->
  resolve (<[(cwd ++ ["data"])%list := Dir]> fs) cwd path = inl FileNotFoundError ->
  on_disk (save json_dumps to_csv w now data filename) fs cwd
  = (inl (no_directory w), <[(cwd ++ ["data"])%list := Dir]> fs).
Proof.
  intros Hcwd Hdata Hpath Hnull Hne Hlen Hres.
  rewrite on_disk_save. cbv zeta. rewrite Hpath, (makedirs_data _ _ Hcwd Hdata).
  destruct (open_w_lost _ cwd path (serialized json_dumps to_csv w data)
              _ Hnull Hne Hlen Hres) as [Ho Hc].
  destruct w; by rewrite ?Ho, ?Hc.
Qed.

End DiskOutcome.

Section DiskProperties.

Import helpers_io posix.

Variable json_dumps : list JobRecord -> string.
Variable to_csv : list JobRecord -> string.

(** X16. What a call of the two writers does to the disk, on a Linux file
    system without symbolic links where nothing is refused for want of
    permission or space, run at a time [now] of a four-digit year, in a
    directory [cwd] where [data] is not a regular file, with a prefix
    without a NUL character.  Below, [<stamp>] is the time as
    [%Y%m%d_%H%M%S], [<ext>] is [.json] or [.csv], and the name of the file
    is [<prefix>_<stamp><ext>] without the directories of the prefix.
    - A prefix without a slash: when the name fits in 255 bytes and
      [data/<prefix>_<stamp><ext>] is not a directory, the call makes the
      directory [data] if it is not there, writes that one file in it with
      the serialized data, changes nothing else, and returns
      [data/<prefix>_<stamp><ext>].
    - A prefix [<dir>/<rest>] whose directory [data/<dir>] is not there,
      with a path of fewer than 4096 bytes: the call raises,
      [FileNotFoundError] from [open] for JSON and [OSError] from pandas
      for CSV, and no file is written; only the directory [data] has been
      made.
    - A prefix [../<name>]: the file is written next to [data], in [cwd]
      itself, and the path returned is [data/../<name>_<stamp><ext>].
    - A prefix [/<name>]: [os.path.join] drops [data], and the file is
      written in the root directory. *)
Theorem save_path_location
    (fs : filesystem) (cwd : names) (w : format)
    (now : datetime) (data : list JobRecord) (filename : string) :
  well_formed now ->
  is_dir fs cwd = true ->
  is_file fs (cwd ++ ["data"])%list = false ->
  embedded_null filename = false ->
  let stamped := ("_" ++ strftime now ++ extension w)%string in
  let made := <[(cwd ++ ["data"])%list := Dir]> fs in
  let file := File (serialized json_dumps to_csv w data) in
  let outcome := on_disk (save json_dumps to_csv w now data filename) fs cwd in
  (no_slash filename = true ->
   name_too_long (filename ++ stamped) = false ->
   is_dir fs (cwd ++ ["data"; (filename ++ stamped)%string])%list = false ->
   outcome = (inr ("data/" ++ filename ++ stamped)%string,
              <[(cwd ++ ["data"; (filename ++ stamped)%string])%list := file]> made))
  /\ (forall dir rest : string,
      filename = (dir ++ "/" ++ rest)%string -> proper_name dir = true ->
      name_too_long dir = false ->
      path_too_long ("data/" ++ filename ++ stamped) = false ->
      kind fs (cwd ++ ["data"; dir])%list = None ->
      outcome = (inl (no_directory w), made))
  /\ (forall name : string,
      filename = ("../" ++ name)%string -> no_slash name = true ->
      name_too_long (name ++ stamped) = false ->
      is_dir fs (cwd ++ [(name ++ stamped)%string])%list = false ->
      outcome = (inr ("data/../" ++ name ++ stamped)%string,
                 <[(cwd ++ [(name ++ stamped)%string])%list := file]> made))
  /\ (forall name : string,
      filename = ("/" ++ name)%string -> no_slash name = true ->
      name_too_long (name ++ stamped) = false ->
      is_dir fs [(name ++ stamped)%string] = false ->
      outcome = (inr ("/" ++ name ++ stamped)%string,
                 <[[(name ++ stamped)%string] := file]> made)).
Proof.
  intros _ Hcwd Hdata Hnull. cbv zeta.
  pose proof (stamped_no_slash w now) as Hss.
  pose proof (stamped_no_null w now) as Hsn.
  assert (Hrel : forall prefix : string,
            String.prefix "/" prefix = false ->
            os_path_join "data" (prefix ++ "_" ++ strftime now ++ extension w)
            = ("data/" ++ prefix ++ "_" ++ strftime now ++ extension w)%string).
  { intros prefix Hp. rewrite stamped_path, Hp;
      [done | apply stamp_relative | apply stamp_nonempty]. }
  assert (Hnn : forall prefix : string,
            embedded_null prefix = false ->
            embedded_null ("data/" ++ prefix ++ "_" ++ strftime now ++ extension w)
            = false).
  { intros prefix Hp.
    by rewrite (embedded_null_app "data/"), (embedded_null_app prefix), Hp, Hsn. }
  split; [|split; [|split]].
  - intros Hslash Hfits Hfree.
    replace (cwd ++ ["data"; (filename ++ "_" ++ strftime now ++ extension w)%string])%list
      with ((cwd ++ ["data"]) ++ [(filename ++ "_" ++ strftime now ++ extension w)%string])%list
      in * by (by rewrite <- app_assoc).
    apply on_disk_found; [exact Hcwd | exact Hdata | | | | | | | exact Hfits |].
    + apply Hrel. by apply no_slash_relative.
    + by apply Hnn.
    + discriminate.
    + apply (path_fits "data/"); [vm_compute; lia | exact Hfits].
    + rewrite resolve_data by done.
      by rewrite components_no_slash by (by rewrite no_slash_app, Hslash, Hss).
    + apply stamped_not_dots.
    + rewrite is_dir_insert_ne; [done|]. intros H. symmetry in H.
      by apply below_ne in H.
  - intros dir rest -> Hdir Hfits Hlen Hmissing.
    apply on_disk_lost
      with (path := ("data/" ++ dir ++ "/" ++ rest ++ "_" ++ strftime now
                       ++ extension w)%string);
      [exact Hcwd | exact Hdata | | | | |].
    + rewrite Hrel by (by apply proper_relative).
      by rewrite !append_assoc.
    + specialize (Hnn _ Hnull). by rewrite !append_assoc in Hnn.
    + discriminate.
    + by rewrite !append_assoc in Hlen.
    + rewrite resolve_data by done.
      apply andb_true_iff in Hdir as [Hslash Hdots]. apply negb_true_iff in Hdots.
      rewrite components_slash by done.
      rewrite locate_step by apply components_nonempty.
      rewrite enter_missing; [done|done|done|].
      rewrite kind_insert_ne by (intros H; symmetry in H; by apply below_ne in H).
      by rewrite <- app_assoc.
  - intros name -> Hslash Hfits Hfree.
    assert (Hname : no_slash (name ++ "_" ++ strftime now ++ extension w) = true)
      by (by rewrite no_slash_app, Hslash, Hss).
    apply on_disk_found; [exact Hcwd | exact Hdata | | | | | | | exact Hfits |].
    + by rewrite Hrel by reflexivity.
    + by apply Hnn.
    + discriminate.
    + apply (path_fits "data/../"); [vm_compute; lia | exact Hfits].
    + change ("data/../" ++ name ++ "_" ++ strftime now ++ extension w)%string
        with ("data/" ++ ".." ++ "/" ++ name ++ "_" ++ strftime now
                ++ extension w)%string.
      rewrite resolve_data by done.
      rewrite components_slash by reflexivity.
      rewrite components_no_slash by done.
      cbn [locate]. change (enter ?f ?d "..") with (inr (removelast d) : exception + names).
      by rewrite removelast_last.
    + apply stamped_not_dots.
    + rewrite is_dir_insert_ne; [done|]. intros H%app_inv_head. injection H as H.
      symmetry in H. by apply underscore_apart in H.
  - intros name -> Hslash Hfits Hfree.
    assert (Hname : no_slash (name ++ "_" ++ strftime now ++ extension w) = true)
      by (by rewrite no_slash_app, Hslash, Hss).
    apply on_disk_found with (dir := []);
      [exact Hcwd | exact Hdata | | | | | | | exact Hfits |].
    + rewrite stamped_path by (apply stamp_relative || apply stamp_nonempty).
      rewrite slash_absolute.
      by rewrite append_nil_l, !append_cons, !append_nil_l.
    + specialize (Hnn _ Hnull).
      rewrite (embedded_null_app "data/") in Hnn. exact Hnn.
    + discriminate.
    + apply (path_fits "/"); [vm_compute; lia | exact Hfits].
    + unfold resolve.
      rewrite slash_absolute.
      change (is_dir ?f []) with true. cbv iota.
      change ("/" ++ name ++ "_" ++ strftime now ++ extension w)%string
        with ("" ++ "/" ++ name ++ "_" ++ strftime now ++ extension w)%string.
      rewrite components_slash by reflexivity.
      by rewrite components_no_slash by done.
    + apply stamped_not_dots.
    + cbn [app]. rewrite is_dir_insert_ne; [done|].
      intros H. apply (f_equal (fun l => List.last l "")) in H.
      rewrite List.last_last in H. cbn [List.last] in H.
      symmetry in H. by apply underscore_apart in H.
Qed.

End DiskProperties.

Lemma save_path_location_witness :
  helpers_io.on_disk
    (helpers_io.save (fun _ => "[]") (fun _ => "") helpers_io.Json
       helpers_io.sample_time [] "jobs")
    helpers_io.sample_disk ["srv"]
  = (inr "data/jobs_20261103_152709.json",
     <[["srv"; "data"; "jobs_20261103_152709.json"] := posix.File "[]"]>
       (<[["srv"; "data"] := posix.Dir]> helpers_io.sample_disk))
  /\ helpers_io.on_disk
       (helpers_io.save (fun _ => "[]") (fun _ => "") helpers_io.Csv
          helpers_io.sample_time [] "sub/jobs")
       helpers_io.sample_disk ["srv"]
     = (inl posix.OSError, <[["srv"; "data"] := posix.Dir]> helpers_io.sample_disk).
Proof.
  assert (Hnow : helpers_io.well_formed helpers_io.sample_time)
    by (unfold helpers_io.well_formed; cbn; lia).
  split.
  - refine (proj1 (save_path_location (fun _ => "[]") (fun _ => "")
                     helpers_io.sample_disk ["srv"] helpers_io.Json
                     helpers_io.sample_time [] "jobs" Hnow _ _ _) _ _ _);
      vm_compute; reflexivity.
  - refine (proj1 (proj2 (save_path_location (fun _ => "[]") (fun _ => "")
                     helpers_io.sample_disk ["srv"] helpers_io.Csv
                     helpers_io.sample_time [] "sub/jobs" Hnow _ _ _))
              "sub" "jobs" _ _ _ _ _);
      vm_compute; reflexivity.
Defined.

Section SaveProperties.

Import helpers_io.

Variable json_dumps : list JobRecord -> string.
Variable to_csv : list JobRecord -> string.

Lemma save_paths (now : datetime) (data : list JobRecord) (filename : string) :
  let dir := if String.prefix "/" filename then "" else "data/" in
  snd (save_to_json json_dumps now data filename)
  = (dir ++ filename ++ "_" ++ strftime now ++ ".json")%string
  /\ snd (save_to_csv to_csv now data filename)
     = (dir ++ filename ++ "_" ++ strftime now ++ ".csv")%string.
Proof.
  cbv zeta. unfold save_to_json, save_to_csv. cbn [snd].
  rewrite !stamped_path by (apply stamp_relative || apply stamp_nonempty).
  done.
Qed.

(** X17. Runs at different times never share a file: for the same prefix,
    two well-formed times that differ give different paths, for JSON and for
    CSV.  (Within the same second the path is the same and the second run
    writes over the first.) *)
Theorem save_paths_differ_in_time
    (a b : datetime) (data data' : list JobRecord) (filename : string) :
  well_formed a -> well_formed b -> a <> b ->
  snd (save_to_json json_dumps a data filename)
  <> snd (save_to_json json_dumps b data' filename)
  /\ snd (save_to_csv to_csv a data filename)
     <> snd (save_to_csv to_csv b data' filename).
Proof.
  intros Ha Hb Hne.
  destruct (save_paths a data filename) as (-> & ->).
  destruct (save_paths b data' filename) as (-> & ->).
  split; intros H; apply Hne;
    apply String.app_inj in H; apply String.app_inj in H;
    apply string_tail_inj in H; by apply strftime_inj in H.
Qed.

End SaveProperties.

Lemma save_paths_differ_in_time_witness :
  snd (helpers_io.save_to_json (fun _ => "[]") helpers_io.sample_time [] "jobs")
  <> snd (helpers_io.save_to_json (fun _ => "[]") helpers_io.sample_time_later []
            "jobs").
Proof.
  refine (proj1 (save_paths_differ_in_time (fun _ => "[]") (fun _ => "")
                   helpers_io.sample_time helpers_io.sample_time_later [] []
                   "jobs" _ _ _)).
  - unfold helpers_io.well_formed. cbn. lia.
  - unfold helpers_io.well_formed. cbn. lia.
  - discriminate.
Defined.

(** X18. The JSON file and the CSV file never collide: whatever the
    prefixes and the times, [save_to_json] and [save_to_csv] return
    different paths. *)
Theorem save_json_csv_apart
    (json_dumps to_csv : list JobRecord -> string) (a b : helpers_io.datetime)
    (data data' : list JobRecord) (filename filename' : string) :
  snd (helpers_io.save_to_json json_dumps a data filename)
  <> snd (helpers_io.save_to_csv to_csv b data' filename').
Proof.
  destruct (save_paths json_dumps to_csv a data filename) as (-> & _).
  destruct (save_paths json_dumps to_csv b data' filename') as (_ & ->).
  intros H. apply (f_equal helpers_io.last_char) in H.
  rewrite !last_char_stamped in H by done. discriminate H.
Qed.

(** ** The visualizer *)

Section VisualizerFacts.

Import Reference visualization Pipeline.

Lemma dataframe_columns_spec (k : string) (rs : list JobRecord) :
  k ∈ dataframe_columns rs <-> exists r, In r rs /\ k ∈ dom r.
Proof.
  induction rs as [|r rs IH]; cbn [dataframe_columns foldr In].
  - split; [set_solver | by intros (r & [] & _)].
  - rewrite elem_of_union. fold (dataframe_columns rs). rewrite IH. split.
    + intros [H|(r' & Hin & H)]; [exists r | exists r']; auto.
    + intros (r' & [<-|Hin] & H); [by left | right; by exists r'].
Qed.

(** [JobVisualizer(jobs)] creates the output directory and yields the
    visualizer of [jobs]. *)
Lemma init_visualizer (found : list JobRecord) :
  init found = ([Makedirs "data/visualizations" true], inr (visualizer found)).
Proof. reflexivity. Qed.

(** A method whose column is missing fails before it draws or saves. *)
Lemma run_missing m self :
  column_of m ∉ columns self ->
  snd (run m self) = inl (missing_column m) /\ saved (fst (run m self)) = [].
Proof.
  intros H. destruct m; cbn [run column_of] in *;
    unfold plot_jobs_by_company, plot_jobs_by_location, plot_job_types,
      plot_salary_distribution, create_word_cloud, column, variable;
    (destruct (decide _) as [Hin|_]; [by destruct (H Hin)|]); by cbn.
Qed.

(** A method whose column is there saves one figure, at the path it
    returns. *)
Lemma run_present m self :
  column_of m ∈ columns self ->
  snd (run m self) = inr (helpers_io.os_path_join (output_dir self) (file_of m))
  /\ saved (fst (run m self))
     = [helpers_io.os_path_join (output_dir self) (file_of m)].
Proof.
  intros H. destruct m; cbn [run column_of file_of] in *;
    unfold plot_jobs_by_company, plot_jobs_by_location, plot_job_types,
      plot_salary_distribution, create_word_cloud, column, variable, _save_plot;
    (destruct (decide _) as [_|Hn]; [|by destruct (Hn H)]); by cbn.
Qed.

(** The records of a scrape have the fields of their site. *)
Lemma scraped_fields w W url max_pages s :
  Forall (has_fields (fields w)) (scraped w W url max_pages s).
Proof.
  unfold scraped. rewrite scrape_job_listings_with.
  destruct (scrape_with_run W (per_page w) (card_class w) _ _
              (extract_job_data_extracts w) url max_pages s)
    as (n' & evs & Hrun & _).
  cbv zeta in Hrun. rewrite Hrun. cbn [fst].
  apply List.Forall_forall. intros r Hr.
  apply in_flat_map in Hr as ([doc|] & _ & Hr); [|destruct Hr].
  cbn [page_records] in Hr. apply filter_In in Hr as [Hr Ht].
  apply in_map_iff in Hr as (card & <- & _).
  apply bool_decide_eq_true in Ht. by apply record_of_fields.
Qed.

(** The columns of the data frame of a scrape: none when it is empty, the
    fields of the site otherwise. *)
Lemma scraped_columns w W url max_pages s (k : string) :
  k ∈ dataframe_columns (scraped w W url max_pages s)
  <-> scraped w W url max_pages s <> [] /\ In k (fields w).
Proof.
  pose proof (scraped_fields w W url max_pages s) as Hall.
  rewrite dataframe_columns_spec. split.
  - intros (r & Hin & Hk). split; [by intros Hnil; rewrite Hnil in Hin|].
    rewrite List.Forall_forall in Hall. specialize (Hall r Hin).
    unfold has_fields in Hall. rewrite Hall in Hk.
    apply elem_of_list_to_set in Hk. by apply list_elem_of_In.
  - intros [Hne Hk]. destruct (scraped w W url max_pages s) as [|r rs]; [done|].
    exists r. split; [by left|].
    apply Forall_inv in Hall. unfold has_fields in Hall. rewrite Hall.
    apply elem_of_list_to_set. by apply list_elem_of_In.
Qed.

End VisualizerFacts.

Section VisualizerProperties.

Import Reference visualization Pipeline.

(** X19. The word cloud cannot be made from what the scrapers return:
    neither extractor fills a [description] field, so for the list of any
    scrape [create_word_cloud] raises [KeyError('description')] and saves
    nothing. *)
Theorem word_cloud_needs_description
    (w : site) (W : env) (url : string) (max_pages : Z) (s : state) :
  let found := scraped w W url max_pages s in
  snd (create_word_cloud (visualizer found)) = inl (KeyError "description")
  /\ saved (fst (create_word_cloud (visualizer found))) = [].
Proof.
  cbv zeta. apply (run_missing word_cloud). cbn [column_of columns visualizer].
  intros [_ Hin]%scraped_columns. destruct w; cbn in Hin; intuition discriminate.
Qed.

(** X20. The job-type chart depends on the site: for the list of an Indeed
    scrape [plot_job_types] raises [KeyError('job_type')] and saves no
    figure, since Indeed records have no such field; for a LinkedIn scrape
    that found at least one job it saves exactly one figure,
    [data/visualizations/job_types.png], and returns that path. *)
Theorem plot_job_types_by_site (W : env) (url : string) (max_pages : Z) (s : state) :
  let indeed := visualizer (scraped Indeed W url max_pages s) in
  let linkedin := visualizer (scraped LinkedIn W url max_pages s) in
  snd (plot_job_types indeed) = inl (KeyError "job_type")
  /\ saved (fst (plot_job_types indeed)) = []
  /\ (scraped LinkedIn W url max_pages s <> [] ->
      snd (plot_job_types linkedin) = inr "data/visualizations/job_types.png"
      /\ saved (fst (plot_job_types linkedin))
         = ["data/visualizations/job_types.png"]).
Proof.
  cbv zeta.
  assert (Hindeed :
    snd (plot_job_types (visualizer (scraped Indeed W url max_pages s)))
    = inl (KeyError "job_type")
    /\ saved (fst (plot_job_types (visualizer (scraped Indeed W url max_pages s))))
       = []).
  { apply (run_missing job_types). cbn [column_of columns visualizer].
    intros [_ Hin]%scraped_columns. cbn in Hin. intuition discriminate. }
  destruct Hindeed as [Hraised Hsaved].
  split; [exact Hraised|]. split; [exact Hsaved|].
  intros Hne. apply (run_present job_types). cbn [column_of columns visualizer].
    apply scraped_columns. split; [exact Hne | cbn; tauto].
Qed.

Lemma plot_job_types_by_site_witness :
  let linkedin :=
    visualizer (scraped LinkedIn Samples.server_linkedin Fixtures.search_url 1
                  Fixtures.start) in
  snd (plot_job_types linkedin) = inr "data/visualizations/job_types.png"
  /\ saved (fst (plot_job_types linkedin)) = ["data/visualizations/job_types.png"].
Proof.
  apply (proj2 (proj2 (plot_job_types_by_site Samples.server_linkedin
                         Fixtures.search_url 1 Fixtures.start))).
  intros H. apply (f_equal (@length JobRecord)) in H. vm_compute in H.
  discriminate H.
Defined.

(** X21. Nothing can be drawn from an empty list of jobs: each of the five
    methods fails on it for want of its column, with [KeyError] (with
    [ValueError] for the salary histogram), and saves no figure. *)
Theorem visualizer_empty_list (m : method) :
  snd (run m (visualizer [])) = inl (missing_column m)
  /\ saved (fst (run m (visualizer []))) = [].
Proof. apply run_missing. cbn [columns visualizer dataframe_columns foldr]. set_solver. Qed.

(** X22. From a scrape that found at least one job, the charts by company
    and by location and the salary histogram are drawn: each saves one
    figure, below [data/visualizations/], and returns its path. *)
Theorem visualizer_common_charts
    (w : site) (W : env) (url : string) (max_pages : Z) (s : state) (m : method) :
  scraped w W url max_pages s <> [] ->
  In m [by_company; by_location; salary_distribution] ->
  let self := visualizer (scraped w W url max_pages s) in
  snd (run m self) = inr ("data/visualizations/" ++ file_of m)%string
  /\ saved (fst (run m self)) = [("data/visualizations/" ++ file_of m)%string].
Proof.
  intros Hne Hm. cbv zeta.
  assert (Hcol : column_of m ∈ columns (visualizer (scraped w W url max_pages s))).
  { cbn [columns visualizer]. apply scraped_columns. split; [exact Hne|].
    destruct Hm as [<-|[<-|[<-|[]]]]; destruct w; cbn; tauto. }
  destruct (run_present m _ Hcol) as [Hr Hs]. rewrite Hr, Hs.
  by destruct Hm as [<-|[<-|[<-|[]]]].
Qed.

Lemma visualizer_common_charts_witness :
  snd (run by_company
         (visualizer (scraped Indeed Fixtures.server_up Fixtures.search_url 1
                        Fixtures.start)))
  = inr "data/visualizations/jobs_by_company.png".
Proof.
  refine (proj1 (visualizer_common_charts Indeed Fixtures.server_up
                   Fixtures.search_url 1 Fixtures.start by_company _ _)).
  - intros H. apply (f_equal (@length JobRecord)) in H. vm_compute in H.
    discriminate H.
  - left. reflexivity.
Defined.

End VisualizerProperties.
